(** * A shallow embedding of the howell-brain coordination engine

    The task queue ([task_queue.py]), the handoff table of the agent
    stratigraphy ([agent_db.py]), the instance registry
    ([instance_registry.py]), the knowledge-graph merge
    ([mcp_transport.py]) and the two store loaders ([task_queue.py],
    [howell_bridge.py]).

    Python dictionaries with a fixed key set become records, string
    status values become an inductive type, the task store (a JSON list)
    becomes a [list task] updated in place by position, and the
    dictionaries keyed by id become stdpp [gmap]s.  Wall-clock values
    ([datetime.now().isoformat()], [time.time()]) are passed in as
    arguments. *)

From Stdlib Require Import String Ascii ZArith List Sorted Permutation Lia Classical.
From stdpp Require Import base list gmap strings.

Local Open Scope string_scope.
Set Warnings "-register-all".

(* ================================================================= *)
(** ** Strings *)

Module Str.

(** [s.startswith(p)] *)
Fixpoint startswith (s p : string) : bool :=
  match p, s with
  | EmptyString, _ => true
  | String c p', String d s' => Ascii.eqb c d && startswith s' p'
  | String _ _, EmptyString => false
  end.

Definition backslash : ascii := ascii_of_nat 92.
Definition slash : ascii := ascii_of_nat 47.

(** [s.replace("\\", "/")] *)
Fixpoint replace_backslash (s : string) : string :=
  match s with
  | EmptyString => EmptyString
  | String c s' =>
      String (if Ascii.eqb c backslash then slash else c) (replace_backslash s')
  end.

(** [s.rstrip("/")]: drop every trailing ['/']. *)
Fixpoint rstrip_slash (s : string) : string :=
  match s with
  | EmptyString => EmptyString
  | String c s' =>
      let r := rstrip_slash s' in
      match r with
      | EmptyString => if Ascii.eqb c slash then EmptyString else String c EmptyString
      | _ => String c r
      end
  end.

(** [x in xs] for a list of strings. *)
Definition mem (x : string) (xs : list string) : bool :=
  existsb (String.eqb x) xs.

(** Duplicate removal, first occurrence kept: the elements of [set(xs)]. *)
Fixpoint dedup (xs : list string) : list string :=
  match xs with
  | [] => []
  | x :: xs' => if mem x xs' then dedup xs' else x :: dedup xs'
  end.

(** [set(a) & set(b)].  Python's set iteration order is unspecified; the
    model lists the common elements in the order of [a]. *)
Definition set_inter (a b : list string) : list string :=
  dedup (List.filter (fun x => mem x b) a).

End Str.

(* ================================================================= *)
(** ** The task queue ([task_queue.py]) *)

Module TaskQueue.

(** The [scope] dictionary of a task: [files], [directories], [tags]. *)
Record task_scope := mkScope {
  scope_files : list string;
  scope_dirs : list string;
  scope_tags : list string
}.

(** The status strings written by the module: "pending", "claimed",
    "in-progress", "completed", "failed". *)
Inductive task_status := Pending | Claimed | InProgress | Completed | Failed.

#[global] Instance task_status_eq_dec : EqDecision task_status.
Proof. solve_decision. Defined.

(** A progress note [{"timestamp": ..., "note": ...}]. *)
Record note := mkNote { note_timestamp : string; note_text : string }.

(** A task record as built by [create_task]; the ["id"] key is
    [task_id]. *)
Record task := mkTask {
  task_id : string;
  title : string;
  description : string;
  project : string;
  scope : task_scope;
  priority : string;
  status : task_status;
  dependencies : list string;
  created_by : string;
  created_at : string;
  claimed_by : option string;
  claimed_at : option string;
  started_at : option string;
  completed_at : option string;
  result : option string;
  artifacts : list string;
  notes : list note
}.

(** ** [_scopes_overlap] *)

(** One entry of the returned conflict list: ["file:f"], ["dir:da <-> db"],
    ["tag:t"]. *)
Inductive conflict :=
  | CFile (f : string)
  | CDir (da db : string)
  | CTag (t : string).

(** [d.replace("\\", "/").rstrip("/") + "/"] *)
Definition dir_norm (d : string) : string :=
  String.append (Str.rstrip_slash (Str.replace_backslash d)) "/".

Definition dir_conflicts (dirs_a dirs_b : list string) : list conflict :=
  flat_map (fun da =>
    flat_map (fun db =>
      if Str.startswith (dir_norm da) (dir_norm db)
         || Str.startswith (dir_norm db) (dir_norm da)
      then [CDir da db] else []) dirs_b) dirs_a.

Definition _scopes_overlap (scope_a scope_b : task_scope) : list conflict :=
  (map CFile (Str.set_inter (scope_files scope_a) (scope_files scope_b))
   ++ dir_conflicts (scope_dirs scope_a) (scope_dirs scope_b)
   ++ map CTag (Str.set_inter (scope_tags scope_a) (scope_tags scope_b)))%list.

(** Truthiness of the returned list. *)
Definition overlaps (a b : task_scope) : bool :=
  match _scopes_overlap a b with [] => false | _ :: _ => true end.

(** ** Lookup by id: [for t in tasks: if t["id"] == task_id: ...] *)

(** The loop body runs on the first task with the id; [f] returns the
    mutated task or [None] for an early [return None].  The result is the
    returned task and the store afterwards; a [None] result leaves the
    store as it was (nothing is saved). *)
Fixpoint update_first (tid : string) (f : task -> option task) (tasks : list task)
    : option task * list task :=
  match tasks with
  | [] => (None, [])
  | t :: rest =>
      if String.eqb (task_id t) tid then
        match f t with
        | Some t' => (Some t', t' :: rest)
        | None => (None, tasks)
        end
      else
        let '(r, rest') := update_first tid f rest in (r, t :: rest')
  end.

Definition is_active (t : task) : bool :=
  match status t with Claimed | InProgress => true | _ => false end.

Definition claimed_by_is (t : task) (instance_id : string) : bool :=
  bool_decide (claimed_by t = Some instance_id).

(** ** Operations *)

Definition create_task (tid now title description project : string)
    (scope_files scope_dirs scope_tags : list string) (priority : string)
    (dependencies : list string) (created_by : string) (tasks : list task)
    : task * list task :=
  let t := {| task_id := tid; title := title; description := description;
              project := project;
              scope := mkScope scope_files scope_dirs scope_tags;
              priority := priority; status := Pending;
              dependencies := dependencies; created_by := created_by;
              created_at := now; claimed_by := None; claimed_at := None;
              started_at := None; completed_at := None; result := None;
              artifacts := []; notes := [] |} in
  (t, app tasks [t]).

(** The claimed copy of [t]. *)
Definition set_claimed (instance_id now : string) (t : task) : task :=
  {| task_id := task_id t; title := title t; description := description t;
     project := project t; scope := scope t; priority := priority t;
     status := Claimed; dependencies := dependencies t;
     created_by := created_by t; created_at := created_at t;
     claimed_by := Some instance_id; claimed_at := Some now;
     started_at := started_at t; completed_at := completed_at t;
     result := result t; artifacts := artifacts t; notes := notes t |}.

Definition claim_task (tid instance_id now : string) (tasks : list task)
    : option task * list task :=
  let in_progress :=
    List.filter (fun t => is_active t && negb (String.eqb (task_id t) tid)) tasks in
  update_first tid (fun task =>
    if bool_decide (status task = Pending) then
      if existsb (fun ip => overlaps (scope task) (scope ip)) in_progress
      then None
      else Some (set_claimed instance_id now task)
    else None) tasks.

Definition set_started (now : string) (t : task) : task :=
  {| task_id := task_id t; title := title t; description := description t;
     project := project t; scope := scope t; priority := priority t;
     status := InProgress; dependencies := dependencies t;
     created_by := created_by t; created_at := created_at t;
     claimed_by := claimed_by t; claimed_at := claimed_at t;
     started_at := Some now; completed_at := completed_at t;
     result := result t; artifacts := artifacts t; notes := notes t |}.

Definition start_task (tid instance_id now : string) (tasks : list task)
    : option task * list task :=
  update_first tid (fun t =>
    if negb (bool_decide (status t = Claimed)) || negb (claimed_by_is t instance_id)
    then None else Some (set_started now t)) tasks.

Definition set_completed (now res : string) (arts : list string) (t : task) : task :=
  {| task_id := task_id t; title := title t; description := description t;
     project := project t; scope := scope t; priority := priority t;
     status := Completed; dependencies := dependencies t;
     created_by := created_by t; created_at := created_at t;
     claimed_by := claimed_by t; claimed_at := claimed_at t;
     started_at := started_at t; completed_at := Some now;
     result := Some res; artifacts := app (artifacts t) arts; notes := notes t |}.

Definition complete_task (tid instance_id now res : string) (arts : list string)
    (tasks : list task) : option task * list task :=
  update_first tid (fun t =>
    if negb (claimed_by_is t instance_id) then None
    else Some (set_completed now res arts t)) tasks.

(** The common reset of [fail_task], [release_task] and
    [release_all_for_instance]: append a note, back to pending, claim
    cleared. *)
Definition reset_to_pending (n : note) (t : task) : task :=
  {| task_id := task_id t; title := title t; description := description t;
     project := project t; scope := scope t; priority := priority t;
     status := Pending; dependencies := dependencies t;
     created_by := created_by t; created_at := created_at t;
     claimed_by := None; claimed_at := None;
     started_at := None; completed_at := completed_at t;
     result := result t; artifacts := artifacts t; notes := app (notes t) [n] |}.

Definition fail_task (tid instance_id now reason : string) (tasks : list task)
    : option task * list task :=
  update_first tid (fun t =>
    if negb (claimed_by_is t instance_id) then None
    else Some (reset_to_pending
                 (mkNote now ("FAILED by " ++ instance_id ++ ": " ++ reason)) t)) tasks.

Definition release_task (tid instance_id now : string) (tasks : list task)
    : option task * list task :=
  update_first tid (fun t =>
    if negb (claimed_by_is t instance_id) then None
    else if negb (is_active t) then None
    else Some (reset_to_pending
                 (mkNote now ("Released by " ++ instance_id ++ " (session ending)")) t))
    tasks.

Definition auto_release_note (instance_id now : string) : note :=
  mkNote now ("Auto-released: instance " ++ instance_id ++ " disconnected").

Definition should_release (instance_id : string) (t : task) : bool :=
  claimed_by_is t instance_id && is_active t.

(** Returns the count of released tasks and the store afterwards. *)
Fixpoint release_all_for_instance (instance_id now : string) (tasks : list task)
    : nat * list task :=
  match tasks with
  | [] => (0, [])
  | t :: rest =>
      let '(n, rest') := release_all_for_instance instance_id now rest in
      if should_release instance_id t
      then (S n, reset_to_pending (auto_release_note instance_id now) t :: rest')
      else (n, t :: rest')
  end.

(** ** [get_available_tasks] *)

(** [priority_order.get(t["priority"], 2)] *)
Definition priority_order (p : string) : nat :=
  if String.eqb p "critical" then 0
  else if String.eqb p "high" then 1
  else if String.eqb p "medium" then 2
  else if String.eqb p "low" then 3
  else 2.

Definition priority_key (t : task) : nat := priority_order (priority t).

(** [list.sort] is stable, and all stable sorts by one key agree; the
    model sorts by insertion, each element placed before the first one
    whose key is not smaller. *)
Fixpoint insert_by_key (x : task) (l : list task) : list task :=
  match l with
  | [] => [x]
  | y :: l' => if Nat.leb (priority_key x) (priority_key y) then x :: l
               else y :: insert_by_key x l'
  end.

Fixpoint sort_by_priority (l : list task) : list task :=
  match l with
  | [] => []
  | x :: l' => insert_by_key x (sort_by_priority l')
  end.

Definition completed_ids (tasks : list task) : list string :=
  map task_id (List.filter (fun t => bool_decide (status t = Completed)) tasks).

Definition in_progress_scopes (tasks : list task) : list task_scope :=
  map scope (List.filter is_active tasks).

(** The body of the filtering loop: [true] when the task is appended to
    [available]. *)
Definition passes_filter (tasks : list task) (task : task) : bool :=
  if negb (bool_decide (status task = Pending)) then false
  else
    let deps := dependencies task in
    if negb (match deps with [] => false | _ => true end)
       || forallb (fun d => Str.mem d (completed_ids tasks)) deps
    then negb (existsb (fun ip_scope => overlaps (scope task) ip_scope)
                 (in_progress_scopes tasks))
    else false.

Definition get_available_tasks (tasks : list task) : list task :=
  sort_by_priority (List.filter (passes_filter tasks) tasks).

(** ** [update_task] *)

(** One keyword argument of [update_task(task_id, **kwargs)]: the six
    recognised keys with their values, or any other key. *)
Inductive kwarg :=
  | Kw_title (v : string)
  | Kw_description (v : string)
  | Kw_project (v : string)
  | Kw_priority (v : string)
  | Kw_scope (v : task_scope)
  | Kw_dependencies (v : list string)
  | Kw_other (key : string) (v : string).

Definition kwarg_key (kw : kwarg) : string :=
  match kw with
  | Kw_title _ => "title"
  | Kw_description _ => "description"
  | Kw_project _ => "project"
  | Kw_priority _ => "priority"
  | Kw_scope _ => "scope"
  | Kw_dependencies _ => "dependencies"
  | Kw_other k _ => k
  end.

(** [if key in (...): t[key] = value] *)
Definition apply_kwarg (t : task) (kw : kwarg) : task :=
  let '(ti, de, pr, pri, sc, deps) :=
    match kw with
    | Kw_title v => (v, description t, project t, priority t, scope t, dependencies t)
    | Kw_description v => (title t, v, project t, priority t, scope t, dependencies t)
    | Kw_project v => (title t, description t, v, priority t, scope t, dependencies t)
    | Kw_priority v => (title t, description t, project t, v, scope t, dependencies t)
    | Kw_scope v => (title t, description t, project t, priority t, v, dependencies t)
    | Kw_dependencies v => (title t, description t, project t, priority t, scope t, v)
    | Kw_other _ _ => (title t, description t, project t, priority t, scope t, dependencies t)
    end in
  {| task_id := task_id t; title := ti; description := de;
     project := pr; scope := sc; priority := pri;
     status := status t; dependencies := deps;
     created_by := created_by t; created_at := created_at t;
     claimed_by := claimed_by t; claimed_at := claimed_at t;
     started_at := started_at t; completed_at := completed_at t;
     result := result t; artifacts := artifacts t; notes := notes t |}.

Definition update_task (tid : string) (kwargs : list kwarg) (tasks : list task)
    : option task * list task :=
  update_first tid (fun t =>
    if negb (bool_decide (status t = Pending)) then None
    else Some (fold_left apply_kwarg kwargs t)) tasks.

(** ** Sequences of task-queue operations *)

Inductive task_op :=
  | OpCreate (tid now title description project : string)
      (scope_files scope_dirs scope_tags : list string) (priority : string)
      (dependencies : list string) (created_by : string)
  | OpClaim (tid instance_id now : string)
  | OpStart (tid instance_id now : string)
  | OpComplete (tid instance_id now res : string) (arts : list string)
  | OpFail (tid instance_id now reason : string)
  | OpRelease (tid instance_id now : string)
  | OpReleaseAll (instance_id now : string).

(** The store after one operation. *)
Definition exec_op (op : task_op) (tasks : list task) : list task :=
  match op with
  | OpCreate tid now ti de pr fs ds tg p deps cb =>
      snd (create_task tid now ti de pr fs ds tg p deps cb tasks)
  | OpClaim tid iid now => snd (claim_task tid iid now tasks)
  | OpStart tid iid now => snd (start_task tid iid now tasks)
  | OpComplete tid iid now res arts => snd (complete_task tid iid now res arts tasks)
  | OpFail tid iid now reason => snd (fail_task tid iid now reason tasks)
  | OpRelease tid iid now => snd (release_task tid iid now tasks)
  | OpReleaseAll iid now => snd (release_all_for_instance iid now tasks)
  end.

Definition run_ops (ops : list task_op) (tasks : list task) : list task :=
  fold_left (fun s op => exec_op op s) ops tasks.

(** ** [add_task_note] *)

(** The copy of [t] with [n] appended to its notes. *)
Definition with_note (n : note) (t : task) : task :=
  {| task_id := task_id t; title := title t; description := description t;
     project := project t; scope := scope t; priority := priority t;
     status := status t; dependencies := dependencies t;
     created_by := created_by t; created_at := created_at t;
     claimed_by := claimed_by t; claimed_at := claimed_at t;
     started_at := started_at t; completed_at := completed_at t;
     result := result t; artifacts := artifacts t; notes := app (notes t) [n] |}.

Definition add_task_note (tid instance_id now note : string) (tasks : list task)
    : option task * list task :=
  update_first tid (fun t =>
    if negb (claimed_by_is t instance_id) then None
    else Some (with_note (mkNote now note) t)) tasks.

(** ** [delete_task] *)

(** [t["status"] in {"pending", "completed", "failed"}] *)
Definition deletable (s : task_status) : bool :=
  match s with Pending | Completed | Failed => true | Claimed | InProgress => false end.

(** The store is saved (and [True] returned) only when the list shrank. *)
Definition delete_task (tid : string) (tasks : list task) : bool * list task :=
  let kept := List.filter (fun t => negb (String.eqb (task_id t) tid && deletable (status t)))
                          tasks in
  if Nat.ltb (length kept) (length tasks) then (true, kept) else (false, tasks).

(** ** [archive_completed] *)

Section Archive.

(** [datetime.fromisoformat(s).timestamp()] in whole seconds; [None] when
    it raises. *)
Variable fromisoformat_ts : string -> option Z.




End Archive.

(** ** Queries *)

Fixpoint get_task (tid : string) (tasks : list task) : option task :=
  match tasks with
  | [] => None
  | t :: rest => if String.eqb (task_id t) tid then Some t else get_task tid rest
  end.

(** The string stored under ["status"]. *)
Definition status_str (s : task_status) : string :=
  match s with
  | Pending => "pending" | Claimed => "claimed" | InProgress => "in-progress"
  | Completed => "completed" | Failed => "failed"
  end.

(** A [str | None] filter is applied only when truthy: [None] and [""]
    disable it. *)
Definition truthy_str (o : option string) : option string :=
  match o with
  | Some s => if String.eqb s "" then None else Some s
  | None => None
  end.

Definition list_tasks (status project claimed_by tag : option string) (tasks : list task)
    : list task :=
  List.filter (fun t =>
    match truthy_str status with
    | Some s => String.eqb (status_str (TaskQueue.status t)) s | None => true end &&
    match truthy_str project with
    | Some p => String.eqb (TaskQueue.project t) p | None => true end &&
    match truthy_str claimed_by with
    | Some c => bool_decide (TaskQueue.claimed_by t = Some c) | None => true end &&
    match truthy_str tag with
    | Some g => Str.mem g (scope_tags (scope t)) | None => true end) tasks.

(** ** [worker_board] *)

(** [entry["blocked"]] is [deps and not all(...)]: the (empty) list [deps]
    itself when the task has no dependencies, a boolean otherwise. *)
Inductive blocked_value := BlockedNoDeps | Blocked (b : bool).

Definition blocked_truthy (b : blocked_value) : bool :=
  match b with BlockedNoDeps => false | Blocked b => b end.

(** The keys an entry gets besides the common ones, by bucket. *)
Inductive entry_extra :=
  | EPending (blocked : blocked_value) (blocking_deps : list string)
  | EClaimed (claimed_at : option string)
  | EInProgress (started_at : option string) (notes_count : nat) (latest_note : option string)
  | EDone (status : task_status) (completed_at : option string) (result : option string).

Record board_entry := mkEntry {
  e_id : string;
  e_title : string;
  e_project : string;
  e_priority : string;
  e_claimed_by : option string;
  e_scope_tags : list string;
  e_extra : entry_extra
}.

Record board := mkBoard {
  b_pending : list board_entry;
  b_claimed : list board_entry;
  b_in_progress : list board_entry;
  b_completed : list board_entry
}.

(** [t["notes"][-1]["note"] if t.get("notes") else None] *)
Fixpoint latest_note (ns : list note) : option string :=
  match ns with
  | [] => None
  | [n] => Some (note_text n)
  | _ :: ns' => latest_note ns'
  end.

(** One iteration of the loop over [tasks]. *)
Definition board_step (tasks : list task) (b : board) (t : task) : board :=
  let entry x := mkEntry (task_id t) (title t) (project t) (priority t) (claimed_by t)
                         (scope_tags (scope t)) x in
  match status t with
  | Pending =>
      let cids := completed_ids tasks in
      let deps := dependencies t in
      let blocked := match deps with
                     | [] => BlockedNoDeps
                     | _ :: _ => Blocked (negb (forallb (fun d => Str.mem d cids) deps))
                     end in
      let blocking_deps := if blocked_truthy blocked
                           then List.filter (fun d => negb (Str.mem d cids)) deps else [] in
      mkBoard (app (b_pending b) [entry (EPending blocked blocking_deps)])
              (b_claimed b) (b_in_progress b) (b_completed b)
  | Claimed =>
      mkBoard (b_pending b) (app (b_claimed b) [entry (EClaimed (claimed_at t))])
              (b_in_progress b) (b_completed b)
  | InProgress =>
      mkBoard (b_pending b) (b_claimed b)
              (app (b_in_progress b)
                   [entry (EInProgress (started_at t) (length (notes t)) (latest_note (notes t)))])
              (b_completed b)
  | Completed | Failed =>
      mkBoard (b_pending b) (b_claimed b) (b_in_progress b)
              (app (b_completed b) [entry (EDone (status t) (completed_at t) (result t))])
  end.

Definition worker_board (tasks : list task) : board :=
  let tasks := list_tasks None None None None tasks in
  fold_left (board_step tasks) tasks (mkBoard [] [] [] []).

(** ** [task_stats] *)

(** The [counts] dictionary built by the loop, keyed by the status string. *)
Definition status_counts (tasks : list task) : gmap string nat :=
  fold_left (fun counts t =>
    let s := status_str (status t) in
    <[s := default 0 (counts !! s) + 1]> counts) tasks ∅.

Record stats := mkStats {
  st_total : nat;
  st_pending : nat;
  st_claimed : nat;
  st_in_progress : nat;
  st_completed : nat;
  st_failed : nat
}.

Definition task_stats (tasks : list task) : stats :=
  let tasks := list_tasks None None None None tasks in
  let counts := status_counts tasks in
  mkStats (length tasks)
          (default 0 (counts !! "pending")) (default 0 (counts !! "claimed"))
          (default 0 (counts !! "in-progress")) (default 0 (counts !! "completed"))
          (default 0 (counts !! "failed")).

(** ** Task templates *)

Record template := mkTemplate {
  title_prefix : string;
  template_priority : string;
  template_scope_tags : list string;
  description_template : string
}.

Definition nl : string := String (ascii_of_nat 10) EmptyString.

(** The [TEMPLATES] dictionary, by name. *)
Definition TEMPLATES (template_name : string) : option template :=
  if String.eqb template_name "bug" then
    Some (mkTemplate "Fix: " "high" ["bugfix"]
            (String.concat nl ["Bug report:"; ""; "Expected: "; "Actual: ";
                               "Steps to reproduce:"; "1. "]))
  else if String.eqb template_name "feature" then
    Some (mkTemplate "Feature: " "medium" ["feature"]
            (String.concat nl ["New feature:"; ""; "Goal: "; "Acceptance criteria:"; "- "]))
  else if String.eqb template_name "refactor" then
    Some (mkTemplate "Refactor: " "medium" ["refactor"]
            (String.concat nl ["Refactoring:"; ""; "What: "; "Why: "; "Constraints: "]))
  else if String.eqb template_name "test" then
    Some (mkTemplate "Test: " "low" ["tests"]
            (String.concat nl ["Test coverage:"; ""; "Target: ";
                               "Test types: unit / integration / e2e"; "Edge cases: "]))
  else if String.eqb template_name "deploy" then
    Some (mkTemplate "Deploy: " "high" ["deploy"; "ops"]
            (String.concat nl ["Deployment:"; ""; "Target env: "; "Pre-checks: ";
                               "Rollback plan: "]))
  else if String.eqb template_name "research" then
    Some (mkTemplate "Research: " "low" ["research"]
            (String.concat nl ["Research task:"; ""; "Question: "; "Resources to check: ";
                               "Deliverables: "]))
  else None.

(** [x or default] for a [str | None] argument. *)
Definition or_str (o : option string) (dflt : string) : string :=
  match o with
  | Some s => if String.eqb s "" then dflt else s
  | None => dflt
  end.

(** [xs or []] for a [list | None] argument. *)
Definition or_nil (o : option (list string)) : list string :=
  match o with Some l => l | None => [] end.

(** [tid] and [now] are the id and the clock value [create_task] draws. *)
Definition create_from_template (tid now template_name title project : string)
    (scope_files scope_dirs extra_tags : option (list string))
    (priority description : option string) (dependencies : option (list string))
    (created_by : string) (tasks : list task) : option task * list task :=
  match TEMPLATES template_name with
  | None => (None, tasks)
  | Some tmpl =>
      let full_title := String.append (title_prefix tmpl) title in
      let tags := app (template_scope_tags tmpl) (or_nil extra_tags) in
      let '(t, tasks') :=
        create_task tid now full_title (or_str description (description_template tmpl))
          project (or_nil scope_files) (or_nil scope_dirs) tags
          (or_str priority (template_priority tmpl)) (or_nil dependencies) created_by tasks in
      (Some t, tasks')
  end.

End TaskQueue.

(* ================================================================= *)
(** ** The handoff table of the stratigraphy store ([agent_db.py]) *)

Module AgentDb.

(** A row of [handoffs]; [id] is the INTEGER PRIMARY KEY. *)
Record handoff := mkHandoff {
  h_id : Z;
  from_agent : string;
  to_scope : string;
  content : string;
  h_priority : string;
  h_claimed_by : option string;
  h_created_at : string;
  h_claimed_at : option string
}.

(** The two tables the claim touches: the ids of [agents] (the target of
    the [claimed_by REFERENCES agents(id)] foreign key, enforced since
    every connection runs [PRAGMA foreign_keys=ON]) and [handoffs] keyed
    by its primary key. *)
Record db := mkDb {
  agents : gset string;
  handoffs : gmap Z handoff
}.

Inductive sql_error := IntegrityError.

(** The value of [claim_handoff]: an exception raised by [conn.execute],
    or the returned [dict | None]. *)
Definition claim_outcome := (sql_error + option handoff)%type.

(** [UPDATE handoffs SET claimed_by = ?, claimed_at = ?
      WHERE id = ? AND claimed_by IS NULL]
    followed, when [rowcount] is not 0, by [SELECT * FROM handoffs WHERE id = ?].
    A row whose new [claimed_by] names no agent violates the foreign key:
    the statement is rolled back and [sqlite3.IntegrityError] propagates. *)
Definition claim_handoff (handoff_id : Z) (agent_id now : string) (d : db)
    : claim_outcome * db :=
  match handoffs d !! handoff_id with
  | Some h =>
      match h_claimed_by h with
      | None =>
          if decide (agent_id ∈ agents d) then
            let h' := {| h_id := h_id h; from_agent := from_agent h;
                         to_scope := to_scope h; content := content h;
                         h_priority := h_priority h;
                         h_claimed_by := Some agent_id;
                         h_created_at := h_created_at h;
                         h_claimed_at := Some now |} in
            (inr (Some h'), mkDb (agents d) (<[handoff_id := h']> (handoffs d)))
          else (inl IntegrityError, d)
      | Some _ => (inr None, d)
      end
  | None => (inr None, d)
  end.

(** ** [create_handoff] *)

Definition valid_priorities : list string := ["low"; "normal"; "high"; "critical"].

(** The largest id in the table (0 for an empty table). *)
Definition max_key (m : gmap Z handoff) : Z :=
  fold_right Z.max 0%Z (map fst (map_to_list m)).

(** [INSERT INTO handoffs (from_agent, to_scope, content, priority,
    created_at) VALUES (...)].  [seq] is the table's [sqlite_sequence]
    entry: an AUTOINCREMENT key is one more than the largest of it and
    every key in the table; the new value of [seq] is returned with the
    row.  [from_agent] is a foreign key into [agents]. *)
Definition create_handoff (from_agent to_scope content priority now : string) (seq : Z)
    (d : db) : (sql_error + handoff) * db * Z :=
  let priority := if Str.mem priority valid_priorities then priority else "normal" in
  if decide (from_agent ∈ agents d) then
    let new_id := (Z.max seq (max_key (handoffs d)) + 1)%Z in
    let h := mkHandoff new_id from_agent to_scope content priority None now None in
    (inr h, mkDb (agents d) (<[new_id := h]> (handoffs d)), new_id)
  else (inl IntegrityError, d, seq).

(** ** [release_stale_claims] *)

Section ReleaseStale.

(** [datetime.fromisoformat(s).timestamp()] in whole seconds; [None] when
    it raises [ValueError]. *)
Variable fromisoformat_ts : string -> option Z.

(** [claimed_by] and [claimed_at] set back to NULL. *)
Definition unclaim (h : handoff) : handoff :=
  mkHandoff (h_id h) (from_agent h) (to_scope h) (content h) (h_priority h) None
            (h_created_at h) None.

(** The loop body over the rows [WHERE claimed_by IS NOT NULL]: [true]
    when the row is released.  A NULL [claimed_at] makes [fromisoformat]
    raise [TypeError], which skips the row. *)
Definition stale_claim (active_agent_ids : list string) (max_age_seconds now : Z)
    (h : handoff) : bool :=
  match h_claimed_by h with
  | None => false
  | Some agent_id =>
      if Str.mem agent_id active_agent_ids then false
      else match h_claimed_at h with
           | None => false
           | Some claimed_at =>
               match fromisoformat_ts claimed_at with
               | None => false
               | Some claimed_ts => negb (Z.ltb (now - claimed_ts) max_age_seconds)
               end
           end
  end.

(** Each row's UPDATE touches only that row, so the loop releases every
    row the test selects; the count of released rows is returned. *)
Definition release_stale_claims (active_agent_ids : list string) (max_age_seconds now : Z)
    (d : db) : nat * db :=
  (size (filter (fun kv => stale_claim active_agent_ids max_age_seconds now kv.2 = true)
                (handoffs d)),
   mkDb (agents d)
        (fmap (fun h => if stale_claim active_agent_ids max_age_seconds now h
                        then unclaim h else h) (handoffs d))).

End ReleaseStale.

End AgentDb.

(* ================================================================= *)
(** ** The instance registry ([instance_registry.py]) *)

Module InstanceRegistry.

Record instance := mkInstance {
  i_id : string;
  workspace : string;
  platform : string;
  i_status : string;
  activity : string;
  active_files : list string;
  registered_at : string;
  last_heartbeat : string;
  last_heartbeat_ts : Z;
  heartbeat_count : nat
}.

(** The module-level [_instances] dictionary. *)
Abbreviation registry := (gmap string instance).

Definition EXPIRY_SECONDS : Z := 600.

(** [now - rec["last_heartbeat_ts"] > EXPIRY_SECONDS] *)
Definition expired (now : Z) (rec : instance) : Prop :=
  (now - last_heartbeat_ts rec > EXPIRY_SECONDS)%Z.

#[global] Instance expired_dec now rec : Decision (expired now rec).
Proof. unfold expired. apply _. Defined.

(** [_purge_expired()]: [now] is [time.time()]. *)
Definition _purge_expired (now : Z) (instances : registry) : registry :=
  filter (fun kv => ~ expired now kv.2) instances.

Definition register (instance_id workspace platform status now_iso : string)
    (now : Z) (instances : registry) : instance * registry :=
  let record := {| i_id := instance_id; workspace := workspace;
                   platform := platform; i_status := status; activity := "";
                   active_files := []; registered_at := now_iso;
                   last_heartbeat := now_iso; last_heartbeat_ts := now;
                   heartbeat_count := 0 |} in
  (record, <[instance_id := record]> (_purge_expired now instances)).

Definition heartbeat (instance_id : string) (status : option string)
    (now_iso : string) (now : Z) (instances : registry)
    : option instance * registry :=
  let instances := _purge_expired now instances in
  match instances !! instance_id with
  | None => (None, instances)
  | Some rec =>
      let rec' := {| i_id := i_id rec; workspace := workspace rec;
                     platform := platform rec;
                     i_status := default (i_status rec) status;
                     activity := activity rec; active_files := active_files rec;
                     registered_at := registered_at rec;
                     last_heartbeat := now_iso; last_heartbeat_ts := now;
                     heartbeat_count := S (heartbeat_count rec) |} in
      (Some rec', <[instance_id := rec']> instances)
  end.

(** [update_status] reads no clock and does not call [_purge_expired]. *)
Definition update_status (instance_id : string) (status activity : option string)
    (active_files : option (list string)) (instances : registry)
    : option instance * registry :=
  match instances !! instance_id with
  | None => (None, instances)
  | Some rec =>
      let rec' := {| i_id := i_id rec; workspace := workspace rec;
                     platform := platform rec;
                     i_status := default (i_status rec) status;
                     activity := default (InstanceRegistry.activity rec) activity;
                     active_files := default (InstanceRegistry.active_files rec) active_files;
                     registered_at := registered_at rec;
                     last_heartbeat := last_heartbeat rec;
                     last_heartbeat_ts := last_heartbeat_ts rec;
                     heartbeat_count := heartbeat_count rec |} in
      (Some rec', <[instance_id := rec']> instances)
  end.

(** A conflict record [{file, instance_id, workspace, platform, activity}]. *)
Record file_conflict := mkFileConflict {
  fc_file : string; fc_instance_id : string; fc_workspace : string;
  fc_platform : string; fc_activity : string
}.

Definition check_conflicts (instance_id : string) (files : list string)
    (now : Z) (instances : registry) : list file_conflict * registry :=
  let instances := _purge_expired now instances in
  (flat_map (fun '(iid, rec) =>
     if String.eqb iid instance_id then []
     else map (fun f => mkFileConflict f iid (workspace rec) (platform rec) (activity rec))
              (Str.set_inter files (InstanceRegistry.active_files rec)))
    (map_to_list instances), instances).

(** [deregister] does not call [_purge_expired]. *)
Definition deregister (instance_id : string) (instances : registry) : bool * registry :=
  match instances !! instance_id with
  | Some _ => (true, delete instance_id instances)
  | None => (false, instances)
  end.


Definition get_instance (instance_id : string) (now : Z) (instances : registry)
    : option (instance * Z) * registry :=
  let instances := _purge_expired now instances in
  (match instances !! instance_id with
   | Some r => Some (r, (now - last_heartbeat_ts r)%Z)
   | None => None
   end, instances).


End InstanceRegistry.

(* ================================================================= *)
(** ** The knowledge graph ([howell_bridge.py]) and its merge tool
       ([mcp_transport.py]) *)

Module Knowledge.

Record entity := mkEntity {
  name : string;
  entity_type : string;
  observations : list string;
  e_created : string
}.

Record relation := mkRelation {
  from_entity : string;
  relation_type : string;
  to_entity : string;
  r_created : string
}.

Record kgraph := mkGraph {
  entities : gmap string entity;
  relations : list relation;
  last_sync : string
}.

Definition empty_graph : kgraph := mkGraph ∅ [] "".

Definition with_observations (e : entity) (obs : list string) : entity :=
  mkEntity (name e) (entity_type e) obs (e_created e).

(** [if rel.from_entity == source: rel.from_entity = target] and the same
    for [to_entity]. *)
Definition repoint (source target : string) (rel : relation) : relation :=
  mkRelation (if String.eqb (from_entity rel) source then target else from_entity rel)
             (relation_type rel)
             (if String.eqb (to_entity rel) source then target else to_entity rel)
             (r_created rel).

Definition rel_key (rel : relation) : string * string * string :=
  (from_entity rel, relation_type rel, to_entity rel).

Definition key_eqb (a b : string * string * string) : bool :=
  bool_decide (a = b).

(** The dedup loop: [seen] holds the keys kept so far. *)
Fixpoint dedup_relations (seen : list (string * string * string)) (rels : list relation)
    : list relation :=
  match rels with
  | [] => []
  | rel :: rest =>
      let key := rel_key rel in
      if negb (existsb (key_eqb key) seen)
         && negb (String.eqb (from_entity rel) (to_entity rel))
      then rel :: dedup_relations (key :: seen) rest
      else dedup_relations seen rest
  end.

Inductive merge_result :=
  | SourceNotFound (source : string)
  | TargetNotFound (target : string)
  | Merged (source target : string).

(** [_tool_merge_entities(args)] on the loaded graph; [now] is the
    [last_sync] stamp written by [save_knowledge].  A graph is saved only
    on success. *)
Definition _tool_merge_entities (source target now : string) (kg : kgraph)
    : merge_result * kgraph :=
  match entities kg !! source, entities kg !! target with
  | None, _ => (SourceNotFound source, kg)
  | Some _, None => (TargetNotFound target, kg)
  | Some src, Some tgt =>
      let existing := observations tgt in
      let added := List.filter (fun obs => negb (Str.mem obs existing))
                               (observations src) in
      let ents := <[target := with_observations tgt (app existing added)]> (entities kg) in
      let rels := map (repoint source target) (relations kg) in
      let deduped := dedup_relations [] rels in
      (Merged source target, mkGraph (delete source ents) deduped now)
  end.

(** ** Loading a store *)

(** A JSON document as returned by [json.loads]. *)
Inductive json :=
  | JNull
  | JBool (b : bool)
  | JNum (n : Z)
  | JStr (s : string)
  | JArr (l : list json)
  | JObj (l : list (string * json)).

(** What reading an existing file gives: an [OSError], a
    [UnicodeDecodeError], or a text that [json.loads] parses ([Some]) or
    rejects with [json.JSONDecodeError] ([None]). *)
Inductive file_contents :=
  | Unreadable
  | BadEncoding
  | Text (parsed : option json).

Inductive exc :=
  | OSError | UnicodeDecodeError | JSONDecodeError
  | KeyError | TypeError | AttributeError.

Definition py (A : Type) := (exc + A)%type.

Definition py_bind {A B} (m : py A) (k : A -> py B) : py B :=
  match m with inl e => inl e | inr a => k a end.

Local Notation "'let*' x := m 'in' k" := (py_bind m (fun x => k))
  (at level 200, x name, m at level 100, k at level 200).

Definition read_text (c : file_contents) : py (option json) :=
  match c with
  | Unreadable => inl OSError
  | BadEncoding => inl UnicodeDecodeError
  | Text p => inr p
  end.

Definition json_loads (p : option json) : py json :=
  match p with Some v => inr v | None => inl JSONDecodeError end.

Definition read_json (c : file_contents) : py json :=
  let* p := read_text c in json_loads p.

(** The primary file and its rolling backup ([exists()] is [Some]),
    the files the primary was renamed to, and whether a rename succeeds. *)
Record store_files := mkFiles {
  primary : option file_contents;
  backup : option file_contents;
  set_aside : list (Z * file_contents);
  rename_ok : bool
}.

Inductive log_line :=
  | WarnRestoredFromBak
  | ErrorNoValidBackup
  | ErrorCorruptSavedAs (ts : Z).

(** A call's outcome: raised exception or returned value, the files
    afterwards, the printed lines. *)
Definition load_outcome (A : Type) := (py A * store_files * list log_line)%type.

(** [data.get(key)] on a parsed JSON object (the last binding wins). *)
Definition jget (key : string) (l : list (string * json)) : option json :=
  fold_left (fun acc kv => if String.eqb kv.1 key then Some kv.2 else acc) l None.

(** [dict.get] on a value that is not a [dict] raises [AttributeError]. *)
Definition jdict_get (key : string) (dflt : json) (v : json) : py json :=
  match v with
  | JObj l => inr (default dflt (jget key l))
  | _ => inl AttributeError
  end.

(** [.items()] *)
Definition jitems (v : json) : py (list (string * json)) :=
  match v with JObj l => inr l | _ => inl AttributeError end.

(** [for x in v] *)
Definition jiter (v : json) : py (list json) :=
  match v with
  | JArr l => inr l
  | JObj l => inr (map (fun kv => JStr kv.1) l)
  | JStr s => inr (map (fun c => JStr (String c EmptyString)) (list_ascii_of_string s))
  | _ => inl TypeError
  end.

(** The dataclasses keep whatever value they are given; the model keeps
    strings and lists of strings and maps any other value to [""]/[[]]
    (no claim below depends on those values). *)
Definition as_str (v : json) : string := match v with JStr s => s | _ => "" end.
Definition as_strs (v : json) : list string :=
  match v with JArr l => map as_str l | _ => [] end.

(** Calling a dataclass with the keyword arguments of [d]: [d] must be a mapping ([TypeError] otherwise), its keys
    among the dataclass fields and the required ones present
    ([TypeError] otherwise). *)
Definition kw_call (fields required : list string) (v : json)
    : py (list (string * json)) :=
  match v with
  | JObj l =>
      if forallb (fun kv => Str.mem kv.1 fields) l
         && forallb (fun f => existsb (fun kv => String.eqb kv.1 f) l) required
      then inr l else inl TypeError
  | _ => inl TypeError
  end.

Definition entity_of (now_iso : string) (v : json) : py entity :=
  let* l := kw_call ["name"; "entity_type"; "observations"; "created"]
                    ["name"; "entity_type"] v in
  inr (mkEntity (as_str (default JNull (jget "name" l)))
                (as_str (default JNull (jget "entity_type" l)))
                (as_strs (default (JArr []) (jget "observations" l)))
                (default now_iso (option_map as_str (jget "created" l)))).

Definition relation_of (now_iso : string) (v : json) : py relation :=
  let* l := kw_call ["from_entity"; "relation_type"; "to_entity"; "created"]
                    ["from_entity"; "relation_type"; "to_entity"] v in
  inr (mkRelation (as_str (default JNull (jget "from_entity" l)))
                  (as_str (default JNull (jget "relation_type" l)))
                  (as_str (default JNull (jget "to_entity" l)))
                  (default now_iso (option_map as_str (jget "created" l)))).

Fixpoint py_fold {A B} (f : B -> A -> py B) (l : list A) (acc : B) : py B :=
  match l with
  | [] => inr acc
  | x :: l' => let* acc' := f acc x in py_fold f l' acc'
  end.

(** [KnowledgeGraph.from_dict(data)] *)
Definition from_dict (now_iso : string) (data : json) : py kgraph :=
  let* ents_v := jdict_get "entities" (JObj []) data in
  let* items := jitems ents_v in
  let* ents := py_fold (fun m kv => let* e := entity_of now_iso kv.2 in inr (<[kv.1 := e]> m))
                  items ∅ in
  let* rels_v := jdict_get "relations" (JArr []) data in
  let* rel_items := jiter rels_v in
  let* rels := py_fold (fun acc v => let* r := relation_of now_iso v in inr (app acc [r]))
                  rel_items [] in
  let* sync := jdict_get "last_sync" (JStr "") data in
  inr (mkGraph ents rels (as_str sync)).

(** The exception classes named in [load_knowledge]'s [except] clause. *)
Definition caught_by_load_knowledge (e : exc) : bool :=
  match e with JSONDecodeError | KeyError | TypeError => true | _ => false end.

Definition load_knowledge (now_iso : string) (fs : store_files) : load_outcome kgraph :=
  match primary fs with
  | None => (inr empty_graph, fs, [])
  | Some c =>
      match let* data := read_json c in from_dict now_iso data with
      | inr kg => (inr kg, fs, [])
      | inl e =>
          if caught_by_load_knowledge e then
            (* the warning is printed once the backup parses, before
               [from_dict]; a failing [from_dict] falls through to the error *)
            let attempt :=
              match backup fs with
              | Some b =>
                  match read_json b with
                  | inr data =>
                      match from_dict now_iso data with
                      | inr kg => (Some kg, [WarnRestoredFromBak])
                      | inl _ => (None, [WarnRestoredFromBak])
                      end
                  | inl _ => (None, [])
                  end
              | None => (None, [])
              end in
            match attempt with
            | (Some kg, log) => (inr kg, fs, log)
            | (None, log) => (inr empty_graph, fs, app log [ErrorNoValidBackup])
            end
          else (inl e, fs, [])
      end
  end.

(** [_load_tasks()] of [task_queue.py], after [ensure_tasks_dir()]; the
    tasks are returned as the parsed JSON values.  [now] is
    [int(time.time())]. *)
Definition _load_tasks (now : Z) (fs : store_files) : load_outcome (list json) :=
  match primary fs with
  | None => (inr [], fs, [])
  | Some c =>
      match read_json c with
      | inr data => (inr (match data with JArr l => l | _ => [] end), fs, [])
      | inl _ =>
          let restored :=
            match backup fs with
            | Some b => match read_json b with inr (JArr l) => Some l | _ => None end
            | None => None
            end in
          match restored with
          | Some l => (inr l, fs, [WarnRestoredFromBak])
          | None =>
              if rename_ok fs then
                (inr [], mkFiles None (backup fs) ((now, c) :: set_aside fs) (rename_ok fs),
                 [ErrorNoValidBackup; ErrorCorruptSavedAs now])
              else (inr [], fs, [ErrorNoValidBackup])
          end
      end
  end.

(** ** Saving *)

(** [asdict(e)] and [asdict(r)] *)
Definition entity_json (e : entity) : json :=
  JObj [("name", JStr (name e)); ("entity_type", JStr (entity_type e));
        ("observations", JArr (map JStr (observations e))); ("created", JStr (e_created e))].

Definition relation_json (r : relation) : json :=
  JObj [("from_entity", JStr (from_entity r)); ("relation_type", JStr (relation_type r));
        ("to_entity", JStr (to_entity r)); ("created", JStr (r_created r))].

(** [KnowledgeGraph.to_dict()]; the entities object lists the map's
    bindings (a JSON object's key order does not matter to [from_dict]). *)
Definition to_dict (kg : kgraph) : json :=
  JObj [("entities", JObj (map (fun kv => (kv.1, entity_json kv.2)) (map_to_list (entities kg))));
        ("relations", JArr (map relation_json (relations kg)));
        ("last_sync", JStr (last_sync kg))].

(** [save_knowledge(kg)]: [last_sync] is stamped with [now], the current
    primary text is copied to the backup when it reads and [bak_write_ok]
    (the [backup.write_text] call succeeds; a failed read or write is
    swallowed and leaves the old backup), and the new content replaces the
    primary.  The text written is the JSON document [to_dict kg],
    represented by its parse; writing the temporary file and the replace
    are taken to succeed.  The stamped graph is returned with the files. *)
Definition save_knowledge (now : string) (kg : kgraph) (bak_write_ok : bool)
    (fs : store_files) : kgraph * store_files :=
  let kg := mkGraph (entities kg) (relations kg) now in
  let backup' := match primary fs with
                 | Some (Text p) => if bak_write_ok then Some (Text p) else backup fs
                 | _ => backup fs
                 end in
  (kg, mkFiles (Some (Text (Some (to_dict kg)))) backup' (set_aside fs) (rename_ok fs)).

(** ** [KnowledgeGraph.add_entity] and [add_relation] *)

(** [now] is the [created] default of a new [Entity]. *)
Definition add_entity (name entity_type : string) (observations : list string) (now : string)
    (kg : kgraph) : kgraph :=
  match entities kg !! name with
  | Some e =>
      mkGraph (<[name := with_observations e (app (Knowledge.observations e) observations)]>
                 (entities kg)) (relations kg) (last_sync kg)
  | None =>
      mkGraph (<[name := mkEntity name entity_type observations now]> (entities kg))
              (relations kg) (last_sync kg)
  end.

Definition same_triple (from_entity relation_type to_entity : string) (r : relation) : bool :=
  String.eqb (Knowledge.from_entity r) from_entity &&
  String.eqb (Knowledge.relation_type r) relation_type &&
  String.eqb (Knowledge.to_entity r) to_entity.

Definition add_relation (from_entity relation_type to_entity now : string) (kg : kgraph)
    : kgraph :=
  if existsb (same_triple from_entity relation_type to_entity) (relations kg) then kg
  else mkGraph (entities kg)
               (app (relations kg) [mkRelation from_entity relation_type to_entity now])
               (last_sync kg).

(** ** The graph-editing tools of [mcp_transport.py]

    Each tool loads the graph, edits it and, where it calls
    [save_knowledge], saves it; as for [_tool_merge_entities] the model
    takes the loaded graph and returns the reply with the graph afterwards,
    its [last_sync] stamped with [now] when it is saved.  The error replies
    also list up to 20 entity names; the model keeps the rest of each
    reply. *)

Inductive add_entity_reply :=
  | EntityUpdated (name : string) (n : nat)
  | EntityCreated (name entity_type : string) (n : nat).

(** The update loop: [if obs not in observations: observations.append(obs)]. *)
Definition append_new (existing new : list string) : list string :=
  fold_left (fun acc obs => if Str.mem obs acc then acc else app acc [obs]) new existing.

Definition _tool_add_entity (name entity_type : string) (observations : list string)
    (now : string) (kg : kgraph) : add_entity_reply * kgraph :=
  match entities kg !! name with
  | Some e =>
      (EntityUpdated name (length observations),
       mkGraph (<[name := with_observations e (append_new (Knowledge.observations e) observations)]>
                  (entities kg)) (relations kg) now)
  | None =>
      let kg := add_entity name entity_type observations now kg in
      (EntityCreated name entity_type (length observations),
       mkGraph (entities kg) (relations kg) now)
  end.

Inductive add_relation_reply :=
  | RelationAdded (from_entity relation_type to_entity : string)
  | RelationEntitiesMissing (missing : list string).

Definition _tool_add_relation (from_e rel_type to_e now : string) (kg : kgraph)
    : add_relation_reply * kgraph :=
  let missing := List.filter (fun e => match entities kg !! e with Some _ => false | None => true end)
                             [from_e; to_e] in
  match missing with
  | _ :: _ => (RelationEntitiesMissing missing, kg)
  | [] =>
      let kg := add_relation from_e rel_type to_e now kg in
      (RelationAdded from_e rel_type to_e, mkGraph (entities kg) (relations kg) now)
  end.

Inductive delete_entity_reply :=
  | DeleteEntityMissing (name : string)
  | EntityDeleted (name : string) (removed_rels : nat).

Definition _tool_delete_entity (name now : string) (kg : kgraph) : delete_entity_reply * kgraph :=
  match entities kg !! name with
  | None => (DeleteEntityMissing name, kg)
  | Some _ =>
      let rels := List.filter (fun r => negb (String.eqb (from_entity r) name) &&
                                        negb (String.eqb (to_entity r) name)) (relations kg) in
      (EntityDeleted name (length (relations kg) - length rels),
       mkGraph (delete name (entities kg)) rels now)
  end.

Inductive delete_relation_reply :=
  | RelationDeleted (from_e rel_type to_e : string)
  | RelationMissing (from_e rel_type to_e : string).

(** The graph is saved before the reply is chosen, also when nothing was
    removed. *)
Definition _tool_delete_relation (from_e rel_type to_e now : string) (kg : kgraph)
    : delete_relation_reply * kgraph :=
  let rels := List.filter (fun r => negb (same_triple from_e rel_type to_e r)) (relations kg) in
  let removed := length (relations kg) - length rels in
  let kg' := mkGraph (entities kg) rels now in
  if Nat.ltb 0 removed then (RelationDeleted from_e rel_type to_e, kg')
  else (RelationMissing from_e rel_type to_e, kg').

Inductive rename_reply :=
  | RenameSourceMissing (old_name : string)
  | RenameTargetExists (new_name : string)
  | Renamed (old_name new_name : string).

(** [entity.name = new_name; kg.entities[new_name] = entity;
    del kg.entities[old_name]], then the relations are repointed in place. *)
Definition _tool_rename_entity (old_name new_name now : string) (kg : kgraph)
    : rename_reply * kgraph :=
  match entities kg !! old_name with
  | None => (RenameSourceMissing old_name, kg)
  | Some e =>
      match entities kg !! new_name with
      | Some _ => (RenameTargetExists new_name, kg)
      | None =>
          let e' := mkEntity new_name (entity_type e) (observations e) (e_created e) in
          (Renamed old_name new_name,
           mkGraph (delete old_name (<[new_name := e']> (entities kg)))
                   (map (repoint old_name new_name) (relations kg)) now)
      end
  end.

End Knowledge.

(* ================================================================= *)
(** ** Predicates and concrete stores used by the properties *)

Module Spec.
Import TaskQueue.

(** The invariant the seven operations keep: a task's claim is empty
    exactly when it is pending, and the status [failed] is never written. *)
Definition claim_consistent (t : task) : Prop :=
  (claimed_by t = None <-> status t = Pending) /\ status t <> Failed.

Definition key_le (a b : task) : Prop := priority_key a <= priority_key b.

Definition in_bucket (k : nat) (t : task) : bool := Nat.eqb (priority_key t) k.

(** The run of the scenario create A; X claims A; X completes A. *)
Definition claim_complete_ops : list task_op :=
  [OpCreate "260207-a1b2c3" "t0" "A" "" "" [] [] [] "medium" [] "ryan";
   OpClaim "260207-a1b2c3" "X" "t1";
   OpComplete "260207-a1b2c3" "X" "t2" "done" []].

(** Every dependency of [t] is the id of a completed task of [tasks]. *)
Definition dependencies_completed (tasks : list task) (t : task) : Prop :=
  forall d, In d (dependencies t) ->
    exists u, In u tasks /\ status u = Completed /\ task_id u = d.

(** Two pending tasks, the second depending on the first. *)
Definition dep_store : list task :=
  snd (create_task "260207-bbbbbb" "t1" "B" "" "" [] [] [] "medium" ["260207-aaaaaa"] "ryan"
         (snd (create_task "260207-aaaaaa" "t0" "A" "" "" [] [] [] "medium" [] "ryan" []))).

(** What [release_all_for_instance] does to a released task [t]. *)
Definition released_copy (instance_id now : string) (t t' : task) : Prop :=
  status t' = Pending /\ claimed_by t' = None /\ claimed_at t' = None /\
  started_at t' = None /\
  notes t' = app (notes t) [auto_release_note instance_id now] /\
  task_id t' = task_id t /\ title t' = title t /\ description t' = description t /\
  project t' = project t /\ scope t' = scope t /\ priority t' = priority t /\
  dependencies t' = dependencies t /\ created_by t' = created_by t /\
  created_at t' = created_at t /\ completed_at t' = completed_at t /\
  result t' = result t /\ artifacts t' = artifacts t.

(** The fields [update_task] never writes. *)
Definition update_frame (t t' : task) : Prop :=
  task_id t' = task_id t /\ status t' = status t /\ created_by t' = created_by t /\
  created_at t' = created_at t /\ claimed_by t' = claimed_by t /\
  claimed_at t' = claimed_at t /\ started_at t' = started_at t /\
  completed_at t' = completed_at t /\ result t' = result t /\
  artifacts t' = artifacts t /\ notes t' = notes t.

End Spec.


Module SpecDb.
Import AgentDb.

(** The call returned a handoff. *)
Definition succeeded (o : claim_outcome) : bool :=
  match o with inr (Some _) => true | _ => false end.

(** An unclaimed handoff 1 to workspace "w"; the only agent is
    CH-260207-0. *)
Definition h1 : handoff :=
  mkHandoff 1 "CH-260207-0" "w" "next steps" "normal" None "2026-02-07T10:00:00" None.

Definition db0 : db := mkDb {[ "CH-260207-0" ]} {[ 1%Z := h1 ]}.

End SpecDb.

Module SpecRegistry.
Import InstanceRegistry.

(** One instance whose last heartbeat was at time 0. *)
Definition stale : instance :=
  mkInstance "a1b2c3d4" "w" "vscode" "working" "" [] "2026-02-07T10:00:00"
             "2026-02-07T10:00:00" 0 3.

Definition stale_registry : registry := {[ "a1b2c3d4" := stale ]}.

End SpecRegistry.


Module SpecKg.
Import Knowledge.

(** Entities alpha (["a1"]) and beta (["b1"; "b1"]): a source whose own
    observation list repeats one value. *)
Definition alpha : entity := mkEntity "alpha" "concept" ["a1"] "2026-02-07T10:00:00".
Definition beta : entity := mkEntity "beta" "concept" ["b1"; "b1"] "2026-02-07T10:00:00".

Definition kg_dup : kgraph :=
  mkGraph (<["alpha" := alpha]> {[ "beta" := beta ]})
          [mkRelation "alpha" "owns" "beta" "2026-02-07T10:00:00"] "".

(** The backup tasks, when it reads and parses to a JSON list. *)
Definition backup_list (fs : store_files) : option (list json) :=
  match backup fs with
  | Some b => match read_json b with inr (JArr l) => Some l | _ => None end
  | None => None
  end.

(** The backup graph, when reading, parsing and [from_dict] all succeed. *)
Definition backup_graph (now_iso : string) (fs : store_files) : option kgraph :=
  match backup fs with
  | Some b => match py_bind (read_json b) (fun data => from_dict now_iso data) with
              | inr kg => Some kg | inl _ => None end
  | None => None
  end.

(** Whether the backup exists, reads and parses as JSON. *)
Definition backup_parses (fs : store_files) : bool :=
  match backup fs with
  | Some b => match read_json b with inr _ => true | inl _ => false end
  | None => false
  end.

(** A knowledge file holding the JSON array [[]] and no backup. *)
Definition list_primary : store_files :=
  mkFiles (Some (Text (Some (JArr [])))) None [] true.

(** A primary that is not valid JSON next to a valid backup graph. *)
Definition corrupt_primary_valid_backup : store_files :=
  mkFiles (Some (Text None))
          (Some (Text (Some (JObj [("entities", JObj []); ("relations", JArr []);
                                   ("last_sync", JStr "2026-02-07T09:00:00")]))))
          [] true.

End SpecKg.

Module SpecQueue.
Import TaskQueue.

(** The coordination rule the claim check protects: a claimed or
    in-progress task is the first task of the store with its id, and two
    claimed or in-progress tasks at different positions have scopes that
    do not overlap. *)
Definition scopes_isolated (tasks : list task) : Prop :=
  (forall i t, tasks !! i = Some t -> is_active t = true ->
     forall j u, j < i -> tasks !! j = Some u -> task_id u <> task_id t) /\
  (forall i j t u, i <> j -> tasks !! i = Some t -> tasks !! j = Some u ->
     is_active t = true -> is_active u = true ->
     _scopes_overlap (scope t) (scope u) = []).

(** Two pending tasks with disjoint scopes, the first one claimed by X. *)
Definition two_store : list task :=
  snd (claim_task "260207-aaaaaa" "X" "t2"
         (snd (create_task "260207-bbbbbb" "t1" "B" "" "" [] ["docs"] [] "low" [] "ryan"
                 (snd (create_task "260207-aaaaaa" "t0" "A" "" "" [] ["src"] [] "high" [] "ryan"
                         []))))).

End SpecQueue.

(* ================================================================= *)
(** * Properties *)

(** ** String helpers *)

Lemma mem_In (x : string) (xs : list string) : Str.mem x xs = true <-> In x xs.
Proof.
  unfold Str.mem. rewrite existsb_exists. split.
  - intros [y [Hy Heq]]. apply String.eqb_eq in Heq. subst. exact Hy.
  - intros H. exists x. split; [exact H | apply String.eqb_refl].
Qed.

Lemma dedup_In (x : string) (xs : list string) : In x (Str.dedup xs) <-> In x xs.
Proof.
  induction xs as [|y xs IH]; simpl; [tauto|].
  destruct (Str.mem y xs) eqn:E.
  - apply mem_In in E. rewrite IH. split; [tauto|]. intros [<-|H]; auto.
  - simpl. rewrite IH. tauto.
Qed.

Lemma set_inter_In (x : string) (a b : list string) :
  In x (Str.set_inter a b) <-> In x a /\ In x b.
Proof.
  unfold Str.set_inter. rewrite dedup_In, filter_In, mem_In. tauto.
Qed.

Lemma nil_iff_no_member {A} (l : list A) : l = [] <-> forall x, ~ In x l.
Proof.
  split.
  - intros -> x H. exact H.
  - destruct l as [|y l]; [reflexivity|]. intros H. exfalso. apply (H y). left. reflexivity.
Qed.

Lemma set_inter_nil_comm (a b : list string) :
  Str.set_inter a b = [] <-> Str.set_inter b a = [].
Proof.
  rewrite !nil_iff_no_member. setoid_rewrite set_inter_In. firstorder.
Qed.

(** ** Scope overlap *)

Module ScopeFacts.
Import TaskQueue.

Lemma dir_conflicts_In (c : conflict) (A B : list string) :
  In c (dir_conflicts A B) <->
  exists da db, c = CDir da db /\ In da A /\ In db B /\
    (Str.startswith (dir_norm da) (dir_norm db) = true \/
     Str.startswith (dir_norm db) (dir_norm da) = true).
Proof.
  unfold dir_conflicts. rewrite in_flat_map. split.
  - intros [da [Ha Hc]]. apply in_flat_map in Hc as [db [Hb Hc]].
    destruct (Str.startswith (dir_norm da) (dir_norm db)
              || Str.startswith (dir_norm db) (dir_norm da)) eqn:E;
      [|destruct Hc].
    destruct Hc as [<-|[]]. apply orb_true_iff in E.
    exists da, db. tauto.
  - intros [da [db [-> [Ha [Hb Hcond]]]]]. exists da. split; [exact Ha|].
    apply in_flat_map. exists db. split; [exact Hb|].
    apply orb_true_iff in Hcond. rewrite Hcond. left. reflexivity.
Qed.

Lemma scopes_overlap_nil_iff (a b : task_scope) :
  _scopes_overlap a b = [] <->
  (forall f, ~ (In f (scope_files a) /\ In f (scope_files b))) /\
  (forall da db, In da (scope_dirs a) -> In db (scope_dirs b) ->
     Str.startswith (dir_norm da) (dir_norm db) = false /\
     Str.startswith (dir_norm db) (dir_norm da) = false) /\
  (forall t, ~ (In t (scope_tags a) /\ In t (scope_tags b))).
Proof.
  unfold _scopes_overlap. rewrite nil_iff_no_member.
  repeat setoid_rewrite in_app_iff. repeat setoid_rewrite in_map_iff.
  setoid_rewrite set_inter_In. setoid_rewrite dir_conflicts_In.
  split.
  - intros H. split; [|split].
    + intros f Hf. apply (H (CFile f)). left. exists f. tauto.
    + intros da db Ha Hb.
      destruct (Str.startswith (dir_norm da) (dir_norm db)) eqn:E1;
      destruct (Str.startswith (dir_norm db) (dir_norm da)) eqn:E2;
        try (split; reflexivity);
        exfalso; apply (H (CDir da db)); right; left; exists da, db; tauto.
    + intros t Ht. apply (H (CTag t)). right; right. exists t. tauto.
  - intros [Hf [Hd Ht]] c [[f [<- Hc]]|[[da [db [_ [Ha [Hb Hc]]]]]|[t [<- Hc]]]].
    + exact (Hf f Hc).
    + destruct (Hd da db Ha Hb) as [E1 E2]. rewrite E1, E2 in Hc.
      destruct Hc; discriminate.
    + exact (Ht t Hc).
Qed.

End ScopeFacts.

(** C4: [_scopes_overlap] reports a conflict exactly when the scopes share a
    file path, or a directory of one, normalised by [dir_norm] (backslashes
    to ['/'], trailing ['/'] stripped, one ['/'] appended), is a string
    prefix of a normalised directory of the other, or they share a tag; the
    report is symmetric; ["src"] and ["src/"] overlap as directories, ["src"]
    and ["srcs"] do not. *)
Theorem scopes_overlap_iff (a b : TaskQueue.task_scope) :
  (TaskQueue._scopes_overlap a b <> [] <->
     (exists f, In f (TaskQueue.scope_files a) /\ In f (TaskQueue.scope_files b)) \/
     (exists da db, In da (TaskQueue.scope_dirs a) /\ In db (TaskQueue.scope_dirs b) /\
        (Str.startswith (TaskQueue.dir_norm da) (TaskQueue.dir_norm db) = true \/
         Str.startswith (TaskQueue.dir_norm db) (TaskQueue.dir_norm da) = true)) \/
     (exists t, In t (TaskQueue.scope_tags a) /\ In t (TaskQueue.scope_tags b))) /\
  (TaskQueue._scopes_overlap a b = [] <-> TaskQueue._scopes_overlap b a = []) /\
  TaskQueue._scopes_overlap (TaskQueue.mkScope [] ["src"] []) (TaskQueue.mkScope [] ["src/"] []) <> [] /\
  TaskQueue._scopes_overlap (TaskQueue.mkScope [] ["src"] []) (TaskQueue.mkScope [] ["srcs"] []) = [].
Proof.
  split; [|split; [|split]].
  - rewrite ScopeFacts.scopes_overlap_nil_iff. split.
    + intros H.
      destruct (classic (exists f, In f (TaskQueue.scope_files a) /\
                                   In f (TaskQueue.scope_files b))) as [Hf|Hf]; [left; exact Hf|].
      destruct (classic (exists t, In t (TaskQueue.scope_tags a) /\
                                   In t (TaskQueue.scope_tags b))) as [Ht|Ht]; [right; right; exact Ht|].
      right; left.
      apply NNPP. intros Hd. apply H. split; [firstorder|]. split; [|firstorder].
      intros da db Ha Hb.
      destruct (Str.startswith (TaskQueue.dir_norm da) (TaskQueue.dir_norm db)) eqn:E1;
      destruct (Str.startswith (TaskQueue.dir_norm db) (TaskQueue.dir_norm da)) eqn:E2;
        try (split; reflexivity); exfalso; apply Hd; exists da, db; tauto.
    + intros [[f Hf]|[[da [db [Ha [Hb Hc]]]]|[t Ht]]] [H1 [H2 H3]].
      * exact (H1 f Hf).
      * destruct (H2 da db Ha Hb) as [E1 E2]. rewrite E1, E2 in Hc. destruct Hc; discriminate.
      * exact (H3 t Ht).
  - rewrite !ScopeFacts.scopes_overlap_nil_iff. firstorder.
  - vm_compute. discriminate.
  - vm_compute. reflexivity.
Qed.

(** ** Task-queue state invariant *)

Module TaskFacts.
Import TaskQueue Spec.

Lemma update_first_Forall (P : task -> Prop) (tid : string) (f : task -> option task)
    (tasks : list task) :
  (forall t t', P t -> f t = Some t' -> P t') ->
  Forall P tasks -> Forall P (snd (update_first tid f tasks)).
Proof.
  intros Hf. induction tasks as [|t rest IH]; simpl; intros H; [constructor|].
  inversion H as [|? ? Ht Hrest]; subst.
  destruct (String.eqb (task_id t) tid).
  - destruct (f t) as [t'|] eqn:E; simpl.
    + constructor; [exact (Hf t t' Ht E)|exact Hrest].
    + exact H.
  - destruct (update_first tid f rest) as [r rest'] eqn:E. simpl.
    constructor; [exact Ht|]. specialize (IH Hrest). simpl in IH. exact IH.
Qed.

Lemma claimed_by_is_true (t : task) (iid : string) :
  claimed_by_is t iid = true <-> claimed_by t = Some iid.
Proof. unfold claimed_by_is. apply bool_decide_eq_true. Qed.

Lemma reset_to_pending_consistent (n : note) (t : task) :
  claim_consistent (reset_to_pending n t).
Proof. unfold claim_consistent; simpl. split; [tauto|discriminate]. Qed.

Lemma release_all_Forall (P : task -> Prop) (iid now : string) (tasks : list task) :
  (forall t, P (reset_to_pending (auto_release_note iid now) t)) ->
  Forall P tasks -> Forall P (snd (release_all_for_instance iid now tasks)).
Proof.
  intros HP. induction tasks as [|t rest IH]; simpl; intros H; [constructor|].
  inversion H as [|? ? Ht Hrest]; subst.
  destruct (release_all_for_instance iid now rest) as [n rest'] eqn:E.
  specialize (IH Hrest). simpl in IH.
  destruct (should_release iid t); simpl; constructor; auto.
Qed.

Lemma exec_op_consistent (op : task_op) (tasks : list task) :
  Forall claim_consistent tasks -> Forall claim_consistent (exec_op op tasks).
Proof.
  intros H. destruct op; simpl.
  - apply Forall_app. split; [exact H|]. constructor; [|constructor].
    unfold claim_consistent; simpl. split; [tauto|discriminate].
  - unfold claim_task. apply update_first_Forall; [|exact H].
    intros t t' _ Hf. case_bool_decide; [|discriminate].
    destruct (existsb _ _); [discriminate|]. injection Hf as <-.
    unfold claim_consistent; simpl. split; [split; discriminate|discriminate].
  - unfold start_task. apply update_first_Forall; [|exact H].
    intros t t' Ht Hf.
    destruct (negb (bool_decide (status t = Claimed)) || negb (claimed_by_is t instance_id))
      eqn:E; [discriminate|]. injection Hf as <-.
    apply orb_false_iff in E as [_ E]. apply negb_false_iff, claimed_by_is_true in E.
    unfold claim_consistent; simpl. rewrite E. split; [split; discriminate|discriminate].
  - unfold complete_task. apply update_first_Forall; [|exact H].
    intros t t' Ht Hf.
    destruct (negb (claimed_by_is t instance_id)) eqn:E; [discriminate|].
    injection Hf as <-. apply negb_false_iff, claimed_by_is_true in E.
    unfold claim_consistent; simpl. rewrite E. split; [split; discriminate|discriminate].
  - unfold fail_task. apply update_first_Forall; [|exact H].
    intros t t' _ Hf. destruct (negb _); [discriminate|].
    injection Hf as <-. apply reset_to_pending_consistent.
  - unfold release_task. apply update_first_Forall; [|exact H].
    intros t t' _ Hf. destruct (negb _); [discriminate|]. destruct (negb _); [discriminate|].
    injection Hf as <-. apply reset_to_pending_consistent.
  - apply release_all_Forall; [|exact H]. intros t. apply reset_to_pending_consistent.
Qed.

Lemma run_ops_consistent (ops : list task_op) (tasks : list task) :
  Forall claim_consistent tasks -> Forall claim_consistent (run_ops ops tasks).
Proof.
  revert tasks. induction ops as [|op ops IH]; simpl; intros tasks H; [exact H|].
  apply IH. apply exec_op_consistent. exact H.
Qed.

End TaskFacts.

(** C1 (counterexample): after create, claim by X and complete by X the
    task is [completed] with [claimed_by = Some "X"], so "[claimed_by] is
    set iff the status is claimed or in-progress" fails. *)
Lemma claimed_by_iff_active_fails :
  ~ (forall (ops : list TaskQueue.task_op) (t : TaskQueue.task),
       In t (TaskQueue.run_ops ops []) ->
       (TaskQueue.claimed_by t <> None <-> TaskQueue.is_active t = true)).
Proof.
  intros H.
  specialize (H Spec.claim_complete_ops).
  set (s := TaskQueue.run_ops Spec.claim_complete_ops []) in H.
  vm_compute in s. subst s.
  specialize (H _ (or_introl eq_refl)). simpl in H.
  destruct H as [H _]. specialize (H ltac:(discriminate)). discriminate H.
Qed.

(** C1 (amended): in every store reached from the empty one by a sequence
    of [create_task], [claim_task], [start_task], [complete_task],
    [fail_task], [release_task] and [release_all_for_instance], every task
    has [claimed_by] null exactly when its status is [pending], and no task
    is [failed]; so claimed and in-progress tasks have a claimer, and a
    completed task keeps the claimer that completed it. *)
Theorem claimed_by_null_iff_pending (ops : list TaskQueue.task_op) :
  Forall (fun t => (TaskQueue.claimed_by t = None <-> TaskQueue.status t = TaskQueue.Pending) /\
                   TaskQueue.status t <> TaskQueue.Failed)
         (TaskQueue.run_ops ops []).
Proof.
  apply (TaskFacts.run_ops_consistent ops []). constructor.
Qed.

(** ** Availability and its ordering *)

Module AvailabilityFacts.
Import TaskQueue Spec.

Lemma insert_by_key_perm (x : task) (l : list task) :
  Permutation (insert_by_key x l) (x :: l).
Proof.
  induction l as [|y l IH]; simpl; [reflexivity|].
  destruct (Nat.leb (priority_key x) (priority_key y)); [reflexivity|].
  rewrite IH. apply perm_swap.
Qed.

Lemma sort_by_priority_perm (l : list task) :
  Permutation (sort_by_priority l) l.
Proof.
  induction l as [|x l IH]; simpl; [reflexivity|].
  rewrite insert_by_key_perm, IH. reflexivity.
Qed.

Lemma insert_by_key_hdrel (a x : task) (l : list task) :
  priority_key a <= priority_key x -> HdRel key_le a l -> HdRel key_le a (insert_by_key x l).
Proof.
  intros Hax Hl. destruct l as [|y l]; simpl.
  - constructor. exact Hax.
  - destruct (Nat.leb (priority_key x) (priority_key y)); constructor.
    + exact Hax.
    + inversion Hl; assumption.
Qed.

Lemma insert_by_key_sorted (x : task) (l : list task) :
  Sorted key_le l -> Sorted key_le (insert_by_key x l).
Proof.
  induction l as [|y l IH]; simpl; intros H.
  - repeat constructor.
  - destruct (Nat.leb (priority_key x) (priority_key y)) eqn:E.
    + constructor; [exact H|]. constructor. apply Nat.leb_le. exact E.
    + inversion H as [|? ? Hl Hy]; subst. constructor; [exact (IH Hl)|].
      apply insert_by_key_hdrel; [|exact Hy].
      apply Nat.leb_gt in E. unfold key_le. lia.
Qed.

Lemma sort_by_priority_sorted (l : list task) : Sorted key_le (sort_by_priority l).
Proof.
  induction l as [|x l IH]; simpl; [constructor|]. apply insert_by_key_sorted. exact IH.
Qed.

Lemma insert_by_key_bucket (k : nat) (x : task) (l : list task) :
  List.filter (in_bucket k) (insert_by_key x l) = List.filter (in_bucket k) (x :: l).
Proof.
  induction l as [|y l IH]; simpl; [reflexivity|].
  destruct (Nat.leb (priority_key x) (priority_key y)) eqn:E; [reflexivity|].
  apply Nat.leb_gt in E. simpl. rewrite IH. simpl. unfold in_bucket.
  destruct (Nat.eqb (priority_key x) k) eqn:Ex;
  destruct (Nat.eqb (priority_key y) k) eqn:Ey; try reflexivity.
  apply Nat.eqb_eq in Ex, Ey. lia.
Qed.

Lemma sort_by_priority_bucket (k : nat) (l : list task) :
  List.filter (in_bucket k) (sort_by_priority l) = List.filter (in_bucket k) l.
Proof.
  induction l as [|x l IH]; simpl; [reflexivity|].
  rewrite insert_by_key_bucket. simpl. rewrite IH. reflexivity.
Qed.

Lemma completed_ids_mem (tasks : list task) (d : string) :
  Str.mem d (completed_ids tasks) = true <->
  exists u, In u tasks /\ status u = Completed /\ task_id u = d.
Proof.
  rewrite mem_In. unfold completed_ids. rewrite in_map_iff. split.
  - intros [u [<- Hu]]. apply filter_In in Hu as [Hu Hc].
    apply bool_decide_eq_true in Hc. exists u. tauto.
  - intros [u [Hu [Hc <-]]]. exists u. split; [reflexivity|].
    apply filter_In. split; [exact Hu|]. apply bool_decide_eq_true. exact Hc.
Qed.

Lemma overlaps_false (a b : task_scope) : overlaps a b = false <-> _scopes_overlap a b = [].
Proof.
  unfold overlaps. destruct (_scopes_overlap a b); split; congruence.
Qed.

Lemma passes_filter_iff (tasks : list task) (t : task) :
  passes_filter tasks t = true <->
  status t = Pending /\
  (forall d, In d (dependencies t) ->
     exists u, In u tasks /\ status u = Completed /\ task_id u = d) /\
  (forall u, In u tasks -> is_active u = true -> _scopes_overlap (scope t) (scope u) = []).
Proof.
  unfold passes_filter.
  assert (Hscope :
    negb (existsb (fun ip_scope => overlaps (scope t) ip_scope) (in_progress_scopes tasks)) = true
    <-> (forall u, In u tasks -> is_active u = true -> _scopes_overlap (scope t) (scope u) = [])).
  { rewrite negb_true_iff. split.
    - intros H u Hu Ha. apply overlaps_false.
      destruct (overlaps (scope t) (scope u)) eqn:E; [|reflexivity].
      rewrite <- H. symmetry. apply existsb_exists. exists (scope u). split; [|exact E].
      unfold in_progress_scopes. apply in_map. apply filter_In. tauto.
    - intros H. apply not_true_is_false. intros Hex.
      apply existsb_exists in Hex as [s [Hs Hov]].
      unfold in_progress_scopes in Hs. apply in_map_iff in Hs as [u [<- Hu]].
      apply filter_In in Hu as [Hu Ha]. specialize (H u Hu Ha).
      apply overlaps_false in H. congruence. }
  assert (Hdeps :
    (negb (match dependencies t with [] => false | _ => true end)
     || forallb (fun d => Str.mem d (completed_ids tasks)) (dependencies t)) = true
    <-> (forall d, In d (dependencies t) ->
           exists u, In u tasks /\ status u = Completed /\ task_id u = d)).
  { rewrite orb_true_iff, forallb_forall. setoid_rewrite completed_ids_mem.
    destruct (dependencies t) as [|d0 ds]; simpl; split.
    - intros _ d [].
    - intros _. left. reflexivity.
    - intros [H|H]; [discriminate|exact H].
    - intros H. right. exact H. }
  case_bool_decide as Hp; simpl.
  - destruct (_ || _) eqn:E.
    + rewrite Hscope. pose proof (proj1 Hdeps eq_refl). tauto.
    + split; [discriminate|]. intros [_ [Hd _]]. apply Hdeps in Hd. discriminate.
  - split; [discriminate|]. intros [Hs _]. contradiction.
Qed.

End AvailabilityFacts.

(** C3: [get_available_tasks] returns the tasks of the store that are
    pending, whose every dependency id is the id of a completed task, and
    whose scope overlaps the scope of no claimed or in-progress task, each
    as often as in the store; the result is sorted by the priority key
    (critical 0, high 1, medium 2, low 3), and within one key the tasks
    keep their store order, which is creation order. *)
Theorem get_available_tasks_spec (tasks : list TaskQueue.task) :
  (forall t, In t (TaskQueue.get_available_tasks tasks) <->
     In t tasks /\ TaskQueue.status t = TaskQueue.Pending /\
     (forall d, In d (TaskQueue.dependencies t) ->
        exists u, In u tasks /\ TaskQueue.status u = TaskQueue.Completed /\ TaskQueue.task_id u = d) /\
     (forall u, In u tasks -> TaskQueue.is_active u = true ->
        TaskQueue._scopes_overlap (TaskQueue.scope t) (TaskQueue.scope u) = [])) /\
  Permutation (TaskQueue.get_available_tasks tasks)
              (List.filter (TaskQueue.passes_filter tasks) tasks) /\
  Sorted (fun a b => TaskQueue.priority_key a <= TaskQueue.priority_key b)
         (TaskQueue.get_available_tasks tasks) /\
  (TaskQueue.priority_order "critical" < TaskQueue.priority_order "high" /\
   TaskQueue.priority_order "high" < TaskQueue.priority_order "medium" /\
   TaskQueue.priority_order "medium" < TaskQueue.priority_order "low") /\
  (forall k, List.filter (fun t => Nat.eqb (TaskQueue.priority_key t) k)
                         (TaskQueue.get_available_tasks tasks) =
             List.filter (fun t => Nat.eqb (TaskQueue.priority_key t) k)
                         (List.filter (TaskQueue.passes_filter tasks) tasks)).
Proof.
  unfold TaskQueue.get_available_tasks.
  split; [|split; [|split; [|split]]].
  - intros t. split.
    + intros H. apply (Permutation_in _ (AvailabilityFacts.sort_by_priority_perm _)) in H.
      apply filter_In in H as [Hin Hp]. apply AvailabilityFacts.passes_filter_iff in Hp. tauto.
    + intros [Hin Hp]. apply (Permutation_in _ (Permutation_sym (AvailabilityFacts.sort_by_priority_perm _))).
      apply filter_In. split; [exact Hin|]. apply AvailabilityFacts.passes_filter_iff. exact Hp.
  - apply AvailabilityFacts.sort_by_priority_perm.
  - apply AvailabilityFacts.sort_by_priority_sorted.
  - vm_compute. lia.
  - intros k. apply (AvailabilityFacts.sort_by_priority_bucket k).
Qed.

(** ** Claiming, releasing, updating *)

Module OpFacts.
Import TaskQueue Spec.

(** The general shape of the [for t in tasks: if t["id"] == task_id]
    loops: the first task with the id is the one passed to the body. *)
Lemma update_first_spec (tid : string) (f : task -> option task) (tasks : list task) :
  match update_first tid f tasks with
  | (None, tasks') => tasks' = tasks
  | (Some t', tasks') =>
      exists i t, tasks !! i = Some t /\ task_id t = tid /\
        (forall j u, j < i -> tasks !! j = Some u -> task_id u <> tid) /\
        f t = Some t' /\ tasks' = <[i := t']> tasks
  end.
Proof.
  induction tasks as [|t rest IH]; simpl; [reflexivity|].
  destruct (String.eqb (task_id t) tid) eqn:E.
  - apply String.eqb_eq in E. destruct (f t) as [t'|] eqn:Ef; [|reflexivity].
    exists 0, t. repeat split; auto. intros j u Hj. lia.
  - destruct (update_first tid f rest) as [[t'|] rest'].
    + destruct IH as [i [u [Hi [Hid [Hfirst [Hf ->]]]]]].
      exists (S i), u. repeat split; auto.
      intros j v Hj Hv. destruct j as [|j]; simpl in Hv.
      * injection Hv as <-. apply String.eqb_neq. exact E.
      * apply (Hfirst j v); [lia|exact Hv].
    + subst. reflexivity.
Qed.

(** What [claim_task] does check: the task is pending and its scope
    overlaps no other claimed or in-progress task. *)
Lemma claim_task_guard (tid instance_id now : string) (tasks : list task) :
  match claim_task tid instance_id now tasks with
  | (None, tasks') => tasks' = tasks
  | (Some t', tasks') =>
      exists i t, tasks !! i = Some t /\ task_id t = tid /\ status t = Pending /\
        (forall u, In u tasks -> is_active u = true -> task_id u <> tid ->
           _scopes_overlap (scope t) (scope u) = []) /\
        t' = set_claimed instance_id now t /\ tasks' = <[i := t']> tasks
  end.
Proof.
  unfold claim_task.
  pose proof (update_first_spec tid
    (fun task =>
       if bool_decide (status task = Pending) then
         if existsb (fun ip => overlaps (scope task) (scope ip))
              (List.filter (fun t => is_active t && negb (String.eqb (task_id t) tid)) tasks)
         then None else Some (set_claimed instance_id now task)
       else None) tasks) as H.
  destruct (update_first _ _ tasks) as [[t'|] tasks']; [|exact H].
  destruct H as [i [t [Hi [Hid [_ [Hf ->]]]]]].
  case_bool_decide as Hp; [|discriminate].
  destruct (existsb _ _) eqn:Ex; [discriminate|]. injection Hf as <-.
  exists i, t. repeat split; auto.
  intros u Hu Ha Hne. apply AvailabilityFacts.overlaps_false.
  destruct (overlaps (scope t) (scope u)) eqn:E; [|reflexivity].
  rewrite <- Ex. symmetry. apply existsb_exists. exists u. split; [|exact E].
  apply filter_In. split; [exact Hu|]. rewrite Ha. simpl.
  apply negb_true_iff, String.eqb_neq. exact Hne.
Qed.

Lemma should_release_iff (instance_id : string) (t : task) :
  should_release instance_id t = true <->
  claimed_by t = Some instance_id /\ (status t = Claimed \/ status t = InProgress).
Proof.
  unfold should_release, is_active. rewrite andb_true_iff, TaskFacts.claimed_by_is_true.
  destruct (status t); intuition discriminate.
Qed.

Lemma release_all_shape (instance_id now : string) (tasks : list task) :
  fst (release_all_for_instance instance_id now tasks) =
    length (List.filter (should_release instance_id) tasks) /\
  snd (release_all_for_instance instance_id now tasks) =
    map (fun t => if should_release instance_id t
                  then reset_to_pending (auto_release_note instance_id now) t else t) tasks.
Proof.
  induction tasks as [|t rest IH]; simpl; [split; reflexivity|].
  destruct (release_all_for_instance instance_id now rest) as [n rest'].
  simpl in IH. destruct IH as [-> ->].
  destruct (should_release instance_id t); simpl; split; reflexivity.
Qed.

Lemma apply_kwargs_frame (kwargs : list kwarg) (t : task) :
  update_frame t (fold_left apply_kwarg kwargs t) /\
  (~ In "title" (map kwarg_key kwargs) -> title (fold_left apply_kwarg kwargs t) = title t) /\
  (~ In "description" (map kwarg_key kwargs) ->
     description (fold_left apply_kwarg kwargs t) = description t) /\
  (~ In "project" (map kwarg_key kwargs) -> project (fold_left apply_kwarg kwargs t) = project t) /\
  (~ In "priority" (map kwarg_key kwargs) -> priority (fold_left apply_kwarg kwargs t) = priority t) /\
  (~ In "scope" (map kwarg_key kwargs) -> scope (fold_left apply_kwarg kwargs t) = scope t) /\
  (~ In "dependencies" (map kwarg_key kwargs) ->
     dependencies (fold_left apply_kwarg kwargs t) = dependencies t).
Proof.
  revert t. induction kwargs as [|kw kws IH]; intros t; simpl.
  - unfold update_frame. repeat split; reflexivity.
  - destruct (IH (apply_kwarg t kw)) as [Hfr [H1 [H2 [H3 [H4 [H5 H6]]]]]].
    unfold update_frame in *.
    destruct Hfr as [F1 [F2 [F3 [F4 [F5 [F6 [F7 [F8 [F9 [F10 F11]]]]]]]]]].
    destruct kw; simpl in *;
      rewrite ?F1, ?F2, ?F3, ?F4, ?F5, ?F6, ?F7, ?F8, ?F9, ?F10, ?F11;
      repeat split; try reflexivity;
      intros Hn;
      first [ rewrite H1 by tauto | rewrite H2 by tauto | rewrite H3 by tauto
            | rewrite H4 by tauto | rewrite H5 by tauto | rewrite H6 by tauto
            | idtac ];
      simpl; try reflexivity; exfalso; apply Hn; left; reflexivity.
Qed.

End OpFacts.

(** C2 (the code's behaviour at the failing input): with B pending and
    depending on the still pending A, [claim_task] claims B for X; the
    claimed B has a dependency that names no completed task. *)
Theorem claim_task_ignores_dependencies :
  exists b tasks',
    TaskQueue.claim_task "260207-bbbbbb" "X" "t2" Spec.dep_store = (Some b, tasks') /\
    TaskQueue.status b = TaskQueue.Claimed /\ In b tasks' /\
    ~ Spec.dependencies_completed tasks' b.
Proof.
  set (r := TaskQueue.claim_task _ _ _ _). vm_compute in r. subst r.
  eexists; eexists; split; [reflexivity|].
  split; [reflexivity|]. split; [simpl; tauto|].
  intros H. destruct (H "260207-aaaaaa" (or_introl eq_refl)) as [u [Hu [Hs _]]].
  simpl in Hu. destruct Hu as [<-|[<-|[]]]; discriminate.
Qed.

(** C6: [release_all_for_instance instance_id] returns the number of tasks
    whose [claimed_by] is [instance_id] and whose status is claimed or
    in-progress; each such task becomes pending with [claimed_by],
    [claimed_at] and [started_at] null and its notes extended by exactly
    one auto-release note, its other fields kept; every other task is
    unchanged, and the store keeps its length and order. *)
Theorem release_all_for_instance_spec (instance_id now : string) (tasks : list TaskQueue.task) :
  let '(n, tasks') := TaskQueue.release_all_for_instance instance_id now tasks in
  n = length (List.filter (fun t => bool_decide (TaskQueue.claimed_by t = Some instance_id /\
                                    (TaskQueue.status t = TaskQueue.Claimed \/
                                     TaskQueue.status t = TaskQueue.InProgress))) tasks) /\
  length tasks' = length tasks /\
  forall i t, tasks !! i = Some t ->
    exists t', tasks' !! i = Some t' /\
      (TaskQueue.claimed_by t = Some instance_id /\
       (TaskQueue.status t = TaskQueue.Claimed \/ TaskQueue.status t = TaskQueue.InProgress) ->
       Spec.released_copy instance_id now t t') /\
      (~ (TaskQueue.claimed_by t = Some instance_id /\
          (TaskQueue.status t = TaskQueue.Claimed \/ TaskQueue.status t = TaskQueue.InProgress)) ->
       t' = t).
Proof.
  destruct (OpFacts.release_all_shape instance_id now tasks) as [Hn Hl].
  destruct (TaskQueue.release_all_for_instance instance_id now tasks) as [n tasks'].
  simpl in Hn, Hl. subst n tasks'. split; [|split].
  - f_equal. apply filter_ext. intros t.
    destruct (TaskQueue.should_release instance_id t) eqn:E.
    + symmetry. apply bool_decide_eq_true. apply OpFacts.should_release_iff. exact E.
    + symmetry. apply bool_decide_eq_false. rewrite <- OpFacts.should_release_iff. congruence.
  - apply length_map.
  - intros i t Hi. eexists. split.
    + rewrite list_lookup_fmap, Hi. reflexivity.
    + rewrite <- OpFacts.should_release_iff. split.
      * intros ->. unfold Spec.released_copy. simpl. repeat split; reflexivity.
      * intros Hn. destruct (TaskQueue.should_release instance_id t); [contradiction|reflexivity].
Qed.

(** C10: [update_task task_id kwargs] returns null and leaves the store as
    it was unless the first task with that id is pending; on success it
    rewrites only that task, only the recognised keys given among title,
    description, project, priority, scope and dependencies change, and the
    id, status, claim, notes, timestamps, result and artifacts are kept. *)
Theorem update_task_frame (tid : string) (kwargs : list TaskQueue.kwarg) (tasks : list TaskQueue.task) :
  match TaskQueue.update_task tid kwargs tasks with
  | (None, tasks') => tasks' = tasks
  | (Some t', tasks') =>
      exists i t, tasks !! i = Some t /\ TaskQueue.task_id t = tid /\
        TaskQueue.status t = TaskQueue.Pending /\
        (forall j u, j < i -> tasks !! j = Some u -> TaskQueue.task_id u <> tid) /\
        tasks' = <[i := t']> tasks /\
        Spec.update_frame t t' /\
        (~ In "title" (map TaskQueue.kwarg_key kwargs) -> TaskQueue.title t' = TaskQueue.title t) /\
        (~ In "description" (map TaskQueue.kwarg_key kwargs) ->
           TaskQueue.description t' = TaskQueue.description t) /\
        (~ In "project" (map TaskQueue.kwarg_key kwargs) -> TaskQueue.project t' = TaskQueue.project t) /\
        (~ In "priority" (map TaskQueue.kwarg_key kwargs) ->
           TaskQueue.priority t' = TaskQueue.priority t) /\
        (~ In "scope" (map TaskQueue.kwarg_key kwargs) -> TaskQueue.scope t' = TaskQueue.scope t) /\
        (~ In "dependencies" (map TaskQueue.kwarg_key kwargs) ->
           TaskQueue.dependencies t' = TaskQueue.dependencies t)
  end.
Proof.
  unfold TaskQueue.update_task.
  pose proof (OpFacts.update_first_spec tid
    (fun t => if negb (bool_decide (TaskQueue.status t = TaskQueue.Pending)) then None
              else Some (fold_left TaskQueue.apply_kwarg kwargs t)) tasks) as H.
  destruct (TaskQueue.update_first _ _ tasks) as [[t'|] tasks']; [|exact H].
  destruct H as [i [t [Hi [Hid [Hfirst [Hf ->]]]]]].
  destruct (bool_decide (TaskQueue.status t = TaskQueue.Pending)) eqn:Hp; simpl in Hf;
    [|discriminate].
  apply bool_decide_eq_true in Hp. injection Hf as <-.
  exists i, t. do 5 (split; [assumption || reflexivity|]).
  apply OpFacts.apply_kwargs_frame.
Qed.

(** ** Handoff claims *)

(** C5 (counterexample): handoff 1 is unclaimed, yet claiming it for an id
    that names no agent does not succeed: the foreign key on [claimed_by]
    makes the UPDATE raise [IntegrityError]. *)
Lemma claim_handoff_unknown_agent_raises :
  (AgentDb.handoffs SpecDb.db0 !! 1%Z = Some SpecDb.h1 /\ AgentDb.h_claimed_by SpecDb.h1 = None) /\
  AgentDb.claim_handoff 1 "CH-260207-7" "2026-02-07T11:00:00" SpecDb.db0 =
    (inl AgentDb.IntegrityError, SpecDb.db0).
Proof.
  split; [split; reflexivity|].
  vm_compute. reflexivity.
Qed.

(** C5 (amended): [claim_handoff] is a compare-and-set on [claimed_by]: it
    returns the handoff, with [claimed_by] and [claimed_at] set together,
    exactly when the row exists, its [claimed_by] is null and the agent id
    names an agent; it returns null with no change when the row is missing
    or already claimed; with an unknown agent on an unclaimed row it raises
    [IntegrityError] with no change.  Of two consecutive calls on one
    handoff at most one succeeds, and after a success the next call returns
    null. *)
Theorem claim_handoff_cas (hid : Z) (agent_id now : string) (d : AgentDb.db) :
  (match AgentDb.claim_handoff hid agent_id now d with
   | (inr (Some h'), d') =>
       exists h, AgentDb.handoffs d !! hid = Some h /\ AgentDb.h_claimed_by h = None /\
         agent_id ∈ AgentDb.agents d /\
         AgentDb.h_claimed_by h' = Some agent_id /\ AgentDb.h_claimed_at h' = Some now /\
         AgentDb.h_id h' = AgentDb.h_id h /\ AgentDb.from_agent h' = AgentDb.from_agent h /\
         AgentDb.to_scope h' = AgentDb.to_scope h /\ AgentDb.content h' = AgentDb.content h /\
         AgentDb.h_priority h' = AgentDb.h_priority h /\
         AgentDb.h_created_at h' = AgentDb.h_created_at h /\
         d' = AgentDb.mkDb (AgentDb.agents d) (<[hid := h']> (AgentDb.handoffs d))
   | (inr None, d') =>
       d' = d /\ forall h, AgentDb.handoffs d !! hid = Some h -> AgentDb.h_claimed_by h <> None
   | (inl AgentDb.IntegrityError, d') =>
       d' = d /\ (agent_id ∉ AgentDb.agents d) /\
       exists h, AgentDb.handoffs d !! hid = Some h /\ AgentDb.h_claimed_by h = None
   end) /\
  (forall agent_id2 now2,
     let '(r1, d1) := AgentDb.claim_handoff hid agent_id now d in
     let '(r2, _) := AgentDb.claim_handoff hid agent_id2 now2 d1 in
     (SpecDb.succeeded r1 = true -> r2 = inr None) /\
     ~ (SpecDb.succeeded r1 = true /\ SpecDb.succeeded r2 = true)).
Proof.
  split.
  - unfold AgentDb.claim_handoff.
    destruct (AgentDb.handoffs d !! hid) as [h|] eqn:Hh.
    + destruct (AgentDb.h_claimed_by h) as [c|] eqn:Hc.
      * split; [reflexivity|]. intros h0 Hh0. injection Hh0 as <-.
        rewrite Hc. discriminate.
      * destruct (decide (agent_id ∈ AgentDb.agents d)) as [Ha|Ha].
        -- exists h. repeat split; auto.
        -- split; [reflexivity|]. split; [exact Ha|]. exists h. tauto.
    + split; [reflexivity|]. intros h0 Hh0. discriminate.
  - intros agent_id2 now2. unfold AgentDb.claim_handoff at 1.
    destruct (AgentDb.handoffs d !! hid) as [h|] eqn:Hh.
    + destruct (AgentDb.h_claimed_by h) as [c|] eqn:Hc.
      * simpl. destruct (AgentDb.claim_handoff hid agent_id2 now2 d).
        split; [discriminate|]. intros [H _]. discriminate.
      * destruct (decide (agent_id ∈ AgentDb.agents d)) as [Ha|Ha].
        -- unfold AgentDb.claim_handoff. simpl. rewrite lookup_insert_eq. simpl.
           split; [reflexivity|]. intros [_ H]. discriminate.
        -- simpl. destruct (AgentDb.claim_handoff hid agent_id2 now2 d).
           split; [discriminate|]. intros [H _]. discriminate.
    + simpl. destruct (AgentDb.claim_handoff hid agent_id2 now2 d).
      split; [discriminate|]. intros [H _]. discriminate.
Qed.

(** ** Registry expiry *)

Module RegistryFacts.
Import InstanceRegistry.

Lemma purge_expired_lookup (now : Z) (instances : registry) (iid : string) (rec : instance) :
  _purge_expired now instances !! iid = Some rec <->
  instances !! iid = Some rec /\ ~ expired now rec.
Proof.
  unfold _purge_expired. rewrite map_lookup_filter_Some. simpl. tauto.
Qed.

(** The operations that purge never return an expired record. *)
Lemma get_instance_not_expired (iid : string) (now : Z) (instances : registry) :
  forall rec age, fst (get_instance iid now instances) = Some (rec, age) -> ~ expired now rec.
Proof.
  intros rec age. unfold get_instance. simpl.
  destruct (_purge_expired now instances !! iid) as [r|] eqn:E; [|discriminate].
  intros H. injection H as <- _. apply purge_expired_lookup in E. tauto.
Qed.

Lemma heartbeat_not_expired (iid : string) (st : option string) (now_iso : string)
    (now : Z) (instances : registry) :
  forall rec, fst (heartbeat iid st now_iso now instances) = Some rec -> ~ expired now rec.
Proof.
  intros rec. unfold heartbeat.
  destruct (_purge_expired now instances !! iid) as [r|]; simpl; [|discriminate].
  intros H. injection H as <-. unfold expired, EXPIRY_SECONDS. simpl. lia.
Qed.

End RegistryFacts.

(** C7 (the code's behaviour at the failing input): [update_status] runs
    no purge, so at time 1000 it updates and returns the record whose last
    heartbeat was at time 0, 1000 seconds ago, past the 600-second
    threshold; [get_instance] at the same time, which purges first, does
    not see it. *)
Theorem update_status_returns_expired :
  exists rec reg',
    InstanceRegistry.update_status "a1b2c3d4" (Some "editing") None None SpecRegistry.stale_registry
      = (Some rec, reg') /\
    InstanceRegistry.expired 1000 rec /\
    fst (InstanceRegistry.get_instance "a1b2c3d4" 1000 SpecRegistry.stale_registry) = None.
Proof.
  eexists; eexists. split; [reflexivity|]. split.
  - unfold InstanceRegistry.expired, InstanceRegistry.EXPIRY_SECONDS. simpl. lia.
  - reflexivity.
Qed.

(** ** Knowledge-graph merge *)

Module MergeFacts.
Import Knowledge.

Lemma dedup_relations_sound (seen : list (string * string * string)) (rels : list relation) :
  forall r, In r (dedup_relations seen rels) ->
    In r rels /\ from_entity r <> to_entity r /\ ~ In (rel_key r) seen.
Proof.
  revert seen. induction rels as [|rel rest IH]; simpl; intros seen r H; [destruct H|].
  destruct (negb (existsb (key_eqb (rel_key rel)) seen)
            && negb (String.eqb (from_entity rel) (to_entity rel))) eqn:E.
  - apply andb_true_iff in E as [E1 E2].
    apply negb_true_iff in E1, E2. apply String.eqb_neq in E2.
    destruct H as [<-|H].
    + split; [left; reflexivity|]. split; [exact E2|].
      intros Hin. assert (existsb (key_eqb (rel_key rel)) seen = true) as C; [|congruence].
      apply existsb_exists. exists (rel_key rel). split; [exact Hin|].
      unfold key_eqb. apply bool_decide_eq_true. reflexivity.
    + destruct (IH _ r H) as [H1 [H2 H3]]. split; [right; exact H1|]. split; [exact H2|].
      intros Hin. apply H3. right. exact Hin.
  - destruct (IH _ r H) as [H1 [H2 H3]]. split; [right; exact H1|]. tauto.
Qed.

Lemma dedup_relations_complete (seen : list (string * string * string)) (rels : list relation) :
  forall r, In r rels -> from_entity r <> to_entity r ->
    In (rel_key r) seen \/ exists r', In r' (dedup_relations seen rels) /\ rel_key r' = rel_key r.
Proof.
  revert seen. induction rels as [|rel rest IH]; simpl; intros seen r Hr Hne; [destruct Hr|].
  destruct (negb (existsb (key_eqb (rel_key rel)) seen)
            && negb (String.eqb (from_entity rel) (to_entity rel))) eqn:E.
  - destruct Hr as [<-|Hr].
    + right. exists rel. split; [left; reflexivity|reflexivity].
    + destruct (IH (rel_key rel :: seen) r Hr Hne) as [[Heq|Hin]|[r' [H1 H2]]].
      * right. exists rel. split; [left; reflexivity|exact Heq].
      * left. exact Hin.
      * right. exists r'. split; [right; exact H1|exact H2].
  - destruct Hr as [<-|Hr].
    + apply andb_false_iff in E as [E|E].
      * apply negb_false_iff in E. apply existsb_exists in E as [k [Hk Heq]].
        unfold key_eqb in Heq. apply bool_decide_eq_true in Heq. subst k. left. exact Hk.
      * apply negb_false_iff, String.eqb_eq in E. contradiction.
    + exact (IH seen r Hr Hne).
Qed.

Lemma dedup_relations_nodup (seen : list (string * string * string)) (rels : list relation) :
  NoDup (map rel_key (dedup_relations seen rels)).
Proof.
  revert seen. induction rels as [|rel rest IH]; simpl; intros seen; [constructor|].
  destruct (negb (existsb (key_eqb (rel_key rel)) seen)
            && negb (String.eqb (from_entity rel) (to_entity rel))) eqn:E; [|apply IH].
  simpl. constructor; [|apply IH].
  intros Hin. apply list_elem_of_In, in_map_iff in Hin as [r [Hk Hr]].
  apply dedup_relations_sound in Hr as [_ [_ Hr]]. apply Hr. rewrite Hk. left. reflexivity.
Qed.

Lemma repoint_not_source (source target : string) (rel : relation) :
  source <> target ->
  from_entity (repoint source target rel) <> source /\
  to_entity (repoint source target rel) <> source.
Proof.
  intros Hne. unfold repoint. simpl.
  destruct (String.eqb (from_entity rel) source) eqn:E1;
  destruct (String.eqb (to_entity rel) source) eqn:E2;
    apply String.eqb_neq in E1 || apply String.eqb_eq in E1;
    apply String.eqb_neq in E2 || apply String.eqb_eq in E2;
    split; congruence.
Qed.

(** What the merge guarantees for a source distinct from the target: the
    source is gone, no relation names it, the target's observations are
    the union of both lists, and the relations are the redirected triples
    without self-loops, one per distinct triple. *)
Lemma merge_distinct (source target now : string) (kg : kgraph) :
  source <> target ->
  match _tool_merge_entities source target now kg with
  | (Merged _ _, kg') =>
      exists src tgt e,
        entities kg !! source = Some src /\ entities kg !! target = Some tgt /\
        entities kg' !! source = None /\ entities kg' !! target = Some e /\
        (forall o, In o (observations e) <-> In o (observations tgt) \/ In o (observations src)) /\
        (forall r, In r (relations kg') ->
           from_entity r <> source /\ to_entity r <> source) /\
        (forall r, In r (relations kg') ->
           In r (map (repoint source target) (relations kg)) /\ from_entity r <> to_entity r) /\
        (forall r, In r (map (repoint source target) (relations kg)) ->
           from_entity r <> to_entity r ->
           exists r', In r' (relations kg') /\ rel_key r' = rel_key r) /\
        NoDup (map rel_key (relations kg'))
  | (_, kg') => kg' = kg
  end.
Proof.
  intros Hne. unfold _tool_merge_entities.
  destruct (entities kg !! source) as [src|] eqn:Hs; [|reflexivity].
  destruct (entities kg !! target) as [tgt|] eqn:Ht; [|reflexivity].
  simpl. eexists src, tgt, _. split; [reflexivity|]. split; [reflexivity|].
  split; [apply lookup_delete_eq|].
  split; [rewrite lookup_delete_ne by congruence; apply lookup_insert_eq|].
  split; [|split; [|split; [|split]]].
  - intros o. simpl. rewrite in_app_iff, filter_In, negb_true_iff.
    split; [intros [H|[H _]]; tauto|].
    intros [H|H]; [left; exact H|].
    destruct (Str.mem o (observations tgt)) eqn:E.
    + left. apply mem_In. exact E.
    + right. tauto.
  - intros r Hr. apply dedup_relations_sound in Hr as [Hr _].
    apply in_map_iff in Hr as [rel [<- _]]. apply repoint_not_source. exact Hne.
  - intros r Hr. apply dedup_relations_sound in Hr. tauto.
  - intros r Hr Hft. destruct (dedup_relations_complete [] _ r Hr Hft) as [[]|H]. exact H.
  - apply dedup_relations_nodup.
Qed.

End MergeFacts.

(** C8 (the code's behaviour at the failing input): merging beta
    (observations ["b1"; "b1"]) into alpha (["a1"]) leaves alpha with
    ["a1"; "b1"; "b1"]: the source's observations are filtered only against
    the target's list from before the merge, so a value repeated in the
    source is copied twice. *)
Theorem merge_keeps_duplicate_observations :
  exists kg' e,
    Knowledge._tool_merge_entities "beta" "alpha" "2026-02-07T12:00:00" SpecKg.kg_dup
      = (Knowledge.Merged "beta" "alpha", kg') /\
    Knowledge.entities kg' !! "alpha" = Some e /\
    Knowledge.observations e = ["a1"; "b1"; "b1"] /\
    ~ NoDup (Knowledge.observations e).
Proof.
  eexists; eexists. split; [reflexivity|]. split; [vm_compute; reflexivity|].
  split; [reflexivity|].
  intros H. inversion H as [|? ? _ H1]. inversion H1 as [|? ? Hn _].
  apply Hn. set_solver.
Qed.

(** ** Loading the stores *)

(** C9 (code bug): [load_knowledge] raises instead of falling back.  A
    knowledge file holding the JSON array [[]] makes
    [KnowledgeGraph.from_dict] call [.get] on a list; the [AttributeError]
    is outside [load_knowledge]'s [except] clause and escapes.  Likewise a
    primary that cannot be read ([OSError]) or decoded
    ([UnicodeDecodeError]) makes the load raise, although a valid backup is
    present; the store files are left as they were. *)
Lemma load_knowledge_raises_on_list :
  Knowledge.load_knowledge "2026-02-07T12:00:00" SpecKg.list_primary =
    (inl Knowledge.AttributeError, SpecKg.list_primary, []) /\
  (forall c, c = Knowledge.Unreadable \/ c = Knowledge.BadEncoding ->
   let fs := Knowledge.mkFiles (Some c)
               (Knowledge.backup SpecKg.corrupt_primary_valid_backup) [] true in
   SpecKg.backup_graph "2026-02-07T12:00:00" fs <> None /\
   exists e, Knowledge.load_knowledge "2026-02-07T12:00:00" fs = (inl e, fs, [])).
Proof.
  split; [reflexivity|].
  intros c [-> | ->]; cbv zeta; (split; [vm_compute; discriminate|]); eexists; reflexivity.
Qed.

(** The fallbacks of the two loaders.  [_load_tasks] returns in every
    file state.  When the primary cannot be read or is not valid JSON it
    returns the backup if the backup parses to a JSON list (printing a
    warning), and otherwise prints an error, renames the primary aside when
    the rename succeeds and returns an empty list; a primary that parses to
    a JSON value other than a list yields an empty list with no fallback
    and no rename.  When reading the primary knowledge file fails with a
    JSON decode, key or type error, [load_knowledge] returns the backup's
    graph with a warning if the backup loads, and otherwise an empty graph
    with a printed error, preceded by the warning when the backup parsed
    but [from_dict] failed on it; it never renames the primary. *)
Theorem load_stores_fallback (now : Z) (now_iso : string) (fs : Knowledge.store_files) :
  (exists v fs' log, Knowledge._load_tasks now fs = (inr v, fs', log)) /\
  (forall c e, Knowledge.primary fs = Some c -> Knowledge.read_json c = inl e ->
     (forall l, SpecKg.backup_list fs = Some l ->
        Knowledge._load_tasks now fs = (inr l, fs, [Knowledge.WarnRestoredFromBak])) /\
     (SpecKg.backup_list fs = None ->
        exists fs' log, Knowledge._load_tasks now fs = (inr [], fs', log) /\
          In Knowledge.ErrorNoValidBackup log /\
          Knowledge.backup fs' = Knowledge.backup fs /\
          (Knowledge.rename_ok fs = true ->
             Knowledge.primary fs' = None /\ In (now, c) (Knowledge.set_aside fs')))) /\
  (forall c data, Knowledge.primary fs = Some c -> Knowledge.read_json c = inr data ->
     (forall l, data <> Knowledge.JArr l) ->
     Knowledge._load_tasks now fs = (inr [], fs, [])) /\
  (forall c e, Knowledge.primary fs = Some c ->
     Knowledge.py_bind (Knowledge.read_json c) (fun data => Knowledge.from_dict now_iso data) = inl e ->
     Knowledge.caught_by_load_knowledge e = true ->
     (forall kg, SpecKg.backup_graph now_iso fs = Some kg ->
        Knowledge.load_knowledge now_iso fs = (inr kg, fs, [Knowledge.WarnRestoredFromBak])) /\
     (SpecKg.backup_graph now_iso fs = None ->
        Knowledge.load_knowledge now_iso fs =
          (inr Knowledge.empty_graph, fs,
           app (if SpecKg.backup_parses fs then [Knowledge.WarnRestoredFromBak] else [])
               [Knowledge.ErrorNoValidBackup]))).
Proof.
  unfold Knowledge._load_tasks, Knowledge.load_knowledge, SpecKg.backup_list, SpecKg.backup_graph.
  split; [|split; [|split]].
  - destruct (Knowledge.primary fs) as [c|]; [|eauto].
    destruct (Knowledge.read_json c); [|eauto].
    destruct (match Knowledge.backup fs with
              | Some b => match Knowledge.read_json b with
                          | inr (Knowledge.JArr l) => Some l | _ => None end
              | None => None end); [eauto|].
    destruct (Knowledge.rename_ok fs); eauto.
  - intros c e Hp He. rewrite Hp, He. split.
    + intros l Hl. rewrite Hl. reflexivity.
    + intros Hn. rewrite Hn. destruct (Knowledge.rename_ok fs) eqn:Hr.
      * eexists; eexists. split; [reflexivity|]. simpl.
        split; [tauto|]. split; [reflexivity|]. intros _. tauto.
      * eexists; eexists. split; [reflexivity|]. simpl.
        split; [tauto|]. split; [reflexivity|]. discriminate.
  - intros c data Hp Hd Hnl. rewrite Hp, Hd.
    destruct data; try reflexivity. exfalso. exact (Hnl l eq_refl).
  - intros c e Hp He Hc. rewrite Hp, He, Hc. unfold SpecKg.backup_parses.
    destruct (Knowledge.backup fs) as [b|];
      [|split; [discriminate|reflexivity]].
    cbn [Knowledge.py_bind].
    destruct (Knowledge.read_json b) as [x|data]; cbn [Knowledge.py_bind];
      [split; [discriminate|reflexivity]|].
    destruct (Knowledge.from_dict now_iso data) as [x|kg0]; split.
    + discriminate.
    + reflexivity.
    + intros kg H. injection H as <-. reflexivity.
    + discriminate.
Qed.

(** Witness for [load_stores_fallback]: with a primary that is not JSON
    and a valid backup, both loaders return the backup. *)
Lemma load_stores_fallback_witness :
  Knowledge.primary SpecKg.corrupt_primary_valid_backup = Some (Knowledge.Text None) /\
  Knowledge._load_tasks 1770480000 SpecKg.corrupt_primary_valid_backup =
    (inr [], Knowledge.mkFiles None (Knowledge.backup SpecKg.corrupt_primary_valid_backup)
               [(1770480000%Z, Knowledge.Text None)] true,
     [Knowledge.ErrorNoValidBackup; Knowledge.ErrorCorruptSavedAs 1770480000]) /\
  Knowledge.load_knowledge "2026-02-07T12:00:00" SpecKg.corrupt_primary_valid_backup =
    (inr (Knowledge.mkGraph ∅ [] "2026-02-07T09:00:00"), SpecKg.corrupt_primary_valid_backup,
     [Knowledge.WarnRestoredFromBak]).
Proof.
  destruct (load_stores_fallback 1770480000 "2026-02-07T12:00:00"
              SpecKg.corrupt_primary_valid_backup) as [_ [Ht [_ Hk]]].
  split; [reflexivity|]. split.
  - destruct (Ht (Knowledge.Text None) Knowledge.JSONDecodeError eq_refl eq_refl) as [_ Hn].
    destruct (Hn eq_refl) as [fs' [log [Heq _]]]. rewrite Heq.
    vm_compute in Heq. vm_compute. symmetry. exact Heq.
  - destruct (Hk (Knowledge.Text None) Knowledge.JSONDecodeError eq_refl eq_refl eq_refl)
      as [Hb _].
    apply Hb. vm_compute. reflexivity.
Defined.

(* ================================================================= *)
(** * Further properties of the code *)

(** ** Lookup by id *)

Module LookupFacts.
Import TaskQueue.

(** The loop body sees the task [get_task] returns. *)
Lemma update_first_result (tid : string) (f : task -> option task) (tasks : list task) :
  fst (update_first tid f tasks) =
    match get_task tid tasks with Some t => f t | None => None end /\
  (fst (update_first tid f tasks) = None -> snd (update_first tid f tasks) = tasks).
Proof.
  induction tasks as [|t rest IH]; simpl; [split; reflexivity|].
  destruct (String.eqb (task_id t) tid).
  - destruct (f t); simpl; split; [reflexivity|discriminate|reflexivity|reflexivity].
  - destruct (update_first tid f rest) as [r rest']. simpl in *.
    destruct IH as [IH1 IH2]. split; [exact IH1|].
    intros Hr. rewrite (IH2 Hr). reflexivity.
Qed.

(** After a successful update that keeps the id, [get_task] returns the
    updated task. *)
Lemma get_task_update_first (tid : string) (f : task -> option task) (tasks : list task)
    (t' : task) :
  (forall t t'', f t = Some t'' -> task_id t'' = task_id t) ->
  fst (update_first tid f tasks) = Some t' ->
  get_task tid (snd (update_first tid f tasks)) = Some t'.
Proof.
  intros Hf. induction tasks as [|t rest IH]; simpl; [discriminate|].
  destruct (String.eqb (task_id t) tid) eqn:E.
  - destruct (f t) as [t''|] eqn:Ef; simpl; [|discriminate].
    intros H. injection H as <-. rewrite (Hf t t'' Ef), E. reflexivity.
  - destruct (update_first tid f rest) as [r rest']. simpl in *.
    rewrite E. exact IH.
Qed.

(** [update_first] changes nothing when the body returns [None] on the
    task [get_task] finds. *)
Lemma update_first_none (tid : string) (f : task -> option task) (tasks : list task) :
  (forall t, get_task tid tasks = Some t -> f t = None) ->
  update_first tid f tasks = (None, tasks).
Proof.
  intros H. destruct (update_first_result tid f tasks) as [H1 H2].
  destruct (update_first tid f tasks) as [r tasks'] eqn:E. simpl in *.
  assert (r = None) as ->.
  { rewrite H1. destruct (get_task tid tasks) as [t|]; [exact (H t eq_refl)|reflexivity]. }
  rewrite (H2 eq_refl). reflexivity.
Qed.

End LookupFacts.

(** ** Scope isolation *)

Module IsolationFacts.
Import TaskQueue SpecQueue.

Lemma scopes_overlap_nil_comm (a b : task_scope) :
  _scopes_overlap a b = [] -> _scopes_overlap b a = [].
Proof.
  rewrite !ScopeFacts.scopes_overlap_nil_iff.
  intros [Hf [Hd Ht]]. split; [|split].
  - intros f [H1 H2]. exact (Hf f (conj H2 H1)).
  - intros da db Ha Hb. destruct (Hd db da Hb Ha) as [E1 E2]. split; assumption.
  - intros t [H1 H2]. exact (Ht t (conj H2 H1)).
Qed.

Lemma lookup_map_task (g : task -> task) (l : list task) (i : nat) :
  map g l !! i = option_map g (l !! i).
Proof. revert i. induction l as [|x l IH]; intros [|i]; simpl; auto. Qed.

Lemma iso_nil : scopes_isolated [].
Proof. split; intros i; [intros t H|intros j t u _ H]; discriminate H. Qed.

(** Replacing one task by a task with the same id that is active only if
    the old one was, with the same scope. *)
Lemma iso_insert (tasks : list task) (k : nat) (t t' : task) :
  tasks !! k = Some t -> task_id t' = task_id t ->
  (is_active t' = true -> is_active t = true /\ scope t' = scope t) ->
  scopes_isolated tasks -> scopes_isolated (<[k := t']> tasks).
Proof.
  intros Hk Hid Hact [Ha Hb]. split.
  - intros i x Hi Hx j u Hj Hu.
    apply list_lookup_insert_Some in Hi as [[Hki [Hx' _]]|[Hki Hi]].
    + subst i x. apply list_lookup_insert_Some in Hu as [[? _]|[_ Hu]]; [lia|].
      rewrite Hid. destruct (Hact Hx) as [Ht _]. exact (Ha k t Hk Ht j u Hj Hu).
    + apply list_lookup_insert_Some in Hu as [[Hkj [Hu' _]]|[_ Hu]].
      * subst j u. rewrite Hid. exact (Ha i x Hi Hx k t Hj Hk).
      * exact (Ha i x Hi Hx j u Hj Hu).
  - intros i j x u Hij Hi Hj Hx Hu.
    apply list_lookup_insert_Some in Hi as [[Hki [Hx' _]]|[Hki Hi]];
    apply list_lookup_insert_Some in Hj as [[Hkj [Hu' _]]|[Hkj Hj]].
    + exfalso. apply Hij. congruence.
    + subst i x. destruct (Hact Hx) as [Ht Hs]. rewrite Hs.
      exact (Hb k j t u Hij Hk Hj Ht Hu).
    + subst j u. destruct (Hact Hu) as [Ht Hs]. rewrite Hs.
      exact (Hb i k x t Hij Hi Hk Hx Ht).
    + exact (Hb i j x u Hij Hi Hj Hx Hu).
Qed.

Lemma iso_update_first (tid : string) (f : task -> option task) (tasks : list task) :
  (forall t t', f t = Some t' ->
     task_id t' = task_id t /\ (is_active t' = true -> is_active t = true /\ scope t' = scope t)) ->
  scopes_isolated tasks -> scopes_isolated (snd (update_first tid f tasks)).
Proof.
  intros Hf Hiso. pose proof (OpFacts.update_first_spec tid f tasks) as H.
  destruct (update_first tid f tasks) as [[t'|] tasks']; simpl; [|subst; exact Hiso].
  destruct H as [k [t [Hk [_ [_ [Ht ->]]]]]]. destruct (Hf t t' Ht) as [H1 H2].
  exact (iso_insert tasks k t t' Hk H1 H2 Hiso).
Qed.

Lemma iso_map (g : task -> task) (tasks : list task) :
  (forall t, task_id (g t) = task_id t) ->
  (forall t, is_active (g t) = true -> g t = t) ->
  scopes_isolated tasks -> scopes_isolated (map g tasks).
Proof.
  intros Hid Hg [Ha Hb]. split.
  - intros i x Hi Hx j u Hj Hu. rewrite lookup_map_task in Hi, Hu.
    destruct (tasks !! i) as [x0|] eqn:E0; [|discriminate].
    destruct (tasks !! j) as [u0|] eqn:E1; [|discriminate].
    simpl in Hi, Hu. injection Hi as <-. injection Hu as <-.
    rewrite !Hid. pose proof (Hg x0 Hx) as Ex. rewrite Ex in Hx.
    exact (Ha i x0 E0 Hx j u0 Hj E1).
  - intros i j x u Hij Hi Hj Hx Hu. rewrite lookup_map_task in Hi, Hj.
    destruct (tasks !! i) as [x0|] eqn:E0; [|discriminate].
    destruct (tasks !! j) as [u0|] eqn:E1; [|discriminate].
    simpl in Hi, Hj. injection Hi as <-. injection Hj as <-.
    pose proof (Hg x0 Hx) as Ex. pose proof (Hg u0 Hu) as Eu.
    rewrite Ex in Hx |- *. rewrite Eu in Hu |- *.
    exact (Hb i j x0 u0 Hij E0 E1 Hx Hu).
Qed.

Lemma iso_snoc (tasks : list task) (t : task) :
  is_active t = false -> scopes_isolated tasks -> scopes_isolated (app tasks [t]).
Proof.
  intros Ht [Ha Hb]. split.
  - intros i x Hi Hx j u Hj Hu.
    apply lookup_snoc_Some in Hi as [[Hil Hi]|[_ <-]]; [|congruence].
    apply lookup_snoc_Some in Hu as [[_ Hu]|[? _]]; [|lia].
    exact (Ha i x Hi Hx j u Hj Hu).
  - intros i j x u Hij Hi Hj Hx Hu.
    apply lookup_snoc_Some in Hi as [[_ Hi]|[_ <-]]; [|congruence].
    apply lookup_snoc_Some in Hj as [[_ Hj]|[_ <-]]; [|congruence].
    exact (Hb i j x u Hij Hi Hj Hx Hu).
Qed.

Lemma iso_claim (tid iid now : string) (tasks : list task) :
  scopes_isolated tasks -> scopes_isolated (snd (claim_task tid iid now tasks)).
Proof.
  intros Hiso. unfold claim_task.
  pose proof (OpFacts.update_first_spec tid
    (fun task =>
       if bool_decide (status task = Pending) then
         if existsb (fun ip => overlaps (scope task) (scope ip))
              (List.filter (fun t => is_active t && negb (String.eqb (task_id t) tid)) tasks)
         then None else Some (set_claimed iid now task)
       else None) tasks) as H.
  destruct (update_first _ _ tasks) as [[t'|] tasks']; simpl; [|subst; exact Hiso].
  destruct H as [k [t [Hk [Hid [Hfirst [Hf ->]]]]]].
  case_bool_decide as Hp; [|discriminate].
  destruct (existsb _ _) eqn:Ex; [discriminate|]. injection Hf as <-.
  destruct Hiso as [Ha Hb].
  assert (Hne : forall j u, j <> k -> tasks !! j = Some u -> is_active u = true ->
                  task_id u <> tid).
  { intros j u Hjk Hu Hau Heq. destruct (Nat.lt_total j k) as [Hlt|[?|Hgt]].
    - exact (Hfirst j u Hlt Hu Heq).
    - lia.
    - apply (Ha j u Hu Hau k t Hgt Hk). congruence. }
  assert (Hno : forall j u, j <> k -> tasks !! j = Some u -> is_active u = true ->
                  _scopes_overlap (scope t) (scope u) = []).
  { intros j u Hjk Hu Hau. apply AvailabilityFacts.overlaps_false.
    destruct (overlaps (scope t) (scope u)) eqn:E; [|reflexivity].
    rewrite <- Ex. symmetry. apply existsb_exists. exists u. split; [|exact E].
    apply filter_In. split.
    - apply list_elem_of_In. exact (list_elem_of_lookup_2 _ j u Hu).
    - rewrite Hau. simpl. apply negb_true_iff, String.eqb_neq. exact (Hne j u Hjk Hu Hau). }
  split.
  - intros i x Hi Hx j u Hj Hu.
    apply list_lookup_insert_Some in Hi as [[Hki [Hx' _]]|[Hki Hi]].
    + subst i x. apply list_lookup_insert_Some in Hu as [[? _]|[_ Hu]]; [lia|].
      simpl. rewrite Hid. exact (Hfirst j u Hj Hu).
    + apply list_lookup_insert_Some in Hu as [[Hkj [Hu' _]]|[_ Hu]].
      * subst j u. simpl. rewrite Hid. intros Heq.
        exact (Hne i x (not_eq_sym Hki) Hi Hx (eq_sym Heq)).
      * exact (Ha i x Hi Hx j u Hj Hu).
  - intros i j x u Hij Hi Hj Hx Hu.
    apply list_lookup_insert_Some in Hi as [[Hki [Hx' _]]|[Hki Hi]];
    apply list_lookup_insert_Some in Hj as [[Hkj [Hu' _]]|[Hkj Hj]].
    + exfalso. apply Hij. congruence.
    + subst i x. simpl. exact (Hno j u (not_eq_sym Hkj) Hj Hu).
    + subst j u. simpl. apply scopes_overlap_nil_comm. exact (Hno i x (not_eq_sym Hki) Hi Hx).
    + exact (Hb i j x u Hij Hi Hj Hx Hu).
Qed.

Lemma iso_exec_op (op : task_op) (tasks : list task) :
  scopes_isolated tasks -> scopes_isolated (exec_op op tasks).
Proof.
  intros H. destruct op; simpl.
  - apply iso_snoc; [reflexivity|exact H].
  - apply iso_claim. exact H.
  - unfold start_task. apply iso_update_first; [|exact H].
    intros t t' Hf.
    destruct (negb (bool_decide (status t = Claimed)) || negb (claimed_by_is t instance_id))
      eqn:E; [discriminate|]. injection Hf as <-.
    apply orb_false_iff in E as [E _]. apply negb_false_iff in E. case_bool_decide as Hs; [|discriminate].
    split; [reflexivity|]. intros _. unfold is_active. rewrite Hs. split; reflexivity.
  - unfold complete_task. apply iso_update_first; [|exact H].
    intros t t' Hf. destruct (negb _); [discriminate|]. injection Hf as <-.
    split; [reflexivity|]. discriminate.
  - unfold fail_task. apply iso_update_first; [|exact H].
    intros t t' Hf. destruct (negb _); [discriminate|]. injection Hf as <-.
    split; [reflexivity|]. discriminate.
  - unfold release_task. apply iso_update_first; [|exact H].
    intros t t' Hf. destruct (negb _); [discriminate|]. destruct (negb _); [discriminate|].
    injection Hf as <-. split; [reflexivity|]. discriminate.
  - rewrite (proj2 (OpFacts.release_all_shape instance_id now tasks)).
    apply iso_map; [| |exact H].
    + intros t. destruct (should_release instance_id t); reflexivity.
    + intros t. destruct (should_release instance_id t); [discriminate|reflexivity].
Qed.

Lemma iso_run_ops (ops : list task_op) (tasks : list task) :
  scopes_isolated tasks -> scopes_isolated (run_ops ops tasks).
Proof.
  revert tasks. induction ops as [|op ops IH]; simpl; intros tasks H; [exact H|].
  apply IH. apply iso_exec_op. exact H.
Qed.

End IsolationFacts.

(** ** Filters, boards and templates *)

Module QueryFacts.
Import TaskQueue.

Lemma filter_all {A} (p : A -> bool) (l : list A) :
  (forall x, In x l -> p x = true) -> List.filter p l = l.
Proof.
  induction l as [|x l IH]; simpl; intros H; [reflexivity|].
  rewrite (H x (or_introl eq_refl)), IH; [reflexivity|]. intros y Hy. apply H. right. exact Hy.
Qed.

Lemma filter_length_le {A} (p : A -> bool) (l : list A) : length (List.filter p l) <= length l.
Proof. induction l as [|x l IH]; simpl; [lia|]. destruct (p x); simpl; lia. Qed.

Lemma filter_length_lt {A} (p : A -> bool) (l : list A) :
  length (List.filter p l) < length l <-> exists x, In x l /\ p x = false.
Proof.
  induction l as [|x l IH]; simpl; [split; [lia|intros [x [[] _]]]|].
  pose proof (filter_length_le p l) as Hle.
  destruct (p x) eqn:E; simpl.
  - rewrite <- Nat.succ_lt_mono, IH. split.
    + intros [y [Hy Hp]]. exists y. tauto.
    + intros [y [[<-|Hy] Hp]]; [congruence|]. exists y. tauto.
  - split; [intros _; exists x; tauto|intros _; lia].
Qed.

Lemma filter_nil_iff {A} (p : A -> bool) (l : list A) :
  List.filter p l = [] <-> forall x, In x l -> p x = false.
Proof.
  induction l as [|x l IH]; simpl; [split; [intros _ y []|reflexivity]|].
  destruct (p x) eqn:E.
  - split; [discriminate|]. intros H. rewrite (H x (or_introl eq_refl)) in E. discriminate.
  - rewrite IH. split.
    + intros H y [<-|Hy]; [exact E|exact (H y Hy)].
    + intros H y Hy. exact (H y (or_intror Hy)).
Qed.

Lemma list_tasks_all (tasks : list task) : list_tasks None None None None tasks = tasks.
Proof. unfold list_tasks. simpl. apply filter_all. reflexivity. Qed.

(** Each step of the board loop appends what the step does to an empty
    board. *)
Lemma board_step_app (T : list task) (b : board) (t : task) :
  board_step T b t =
    mkBoard (app (b_pending b) (b_pending (board_step T (mkBoard [] [] [] []) t)))
            (app (b_claimed b) (b_claimed (board_step T (mkBoard [] [] [] []) t)))
            (app (b_in_progress b) (b_in_progress (board_step T (mkBoard [] [] [] []) t)))
            (app (b_completed b) (b_completed (board_step T (mkBoard [] [] [] []) t))).
Proof. unfold board_step. destruct (status t); simpl; rewrite ?app_nil_r; reflexivity. Qed.

Lemma board_fold (T l : list task) (b : board) :
  fold_left (board_step T) l b =
    mkBoard (app (b_pending b) (flat_map (fun t => b_pending (board_step T (mkBoard [] [] [] []) t)) l))
            (app (b_claimed b) (flat_map (fun t => b_claimed (board_step T (mkBoard [] [] [] []) t)) l))
            (app (b_in_progress b)
                 (flat_map (fun t => b_in_progress (board_step T (mkBoard [] [] [] []) t)) l))
            (app (b_completed b)
                 (flat_map (fun t => b_completed (board_step T (mkBoard [] [] [] []) t)) l)).
Proof.
  revert b. induction l as [|t l IH]; intros b; simpl.
  - rewrite !app_nil_r. destruct b; reflexivity.
  - rewrite IH, board_step_app. simpl. rewrite <- !app_assoc. reflexivity.
Qed.

Lemma board_ids (T l : list task) :
  map e_id (flat_map (fun t => b_pending (board_step T (mkBoard [] [] [] []) t)) l) =
    map task_id (List.filter (fun t => bool_decide (status t = Pending)) l) /\
  map e_id (flat_map (fun t => b_claimed (board_step T (mkBoard [] [] [] []) t)) l) =
    map task_id (List.filter (fun t => bool_decide (status t = Claimed)) l) /\
  map e_id (flat_map (fun t => b_in_progress (board_step T (mkBoard [] [] [] []) t)) l) =
    map task_id (List.filter (fun t => bool_decide (status t = InProgress)) l) /\
  map e_id (flat_map (fun t => b_completed (board_step T (mkBoard [] [] [] []) t)) l) =
    map task_id (List.filter (fun t => bool_decide (status t = Completed \/ status t = Failed)) l).
Proof.
  induction l as [|t l IH]; simpl; [repeat split; reflexivity|].
  destruct IH as [H1 [H2 [H3 H4]]]. rewrite !map_app, H1, H2, H3, H4.
  unfold board_step. destruct (status t) eqn:E; simpl;
    repeat (case_bool_decide as Hc; [try (destruct Hc as [Hc|Hc]); try discriminate|]);
    simpl; rewrite ?E in *; repeat split; try reflexivity;
    exfalso; intuition discriminate.
Qed.

(** [List.filter] keeps a sub-list: the order and multiplicity of the
    elements it keeps are those of the input. *)
Lemma filter_sublist {A} (p : A -> bool) (l : list A) : sublist (List.filter p l) l.
Proof.
  induction l as [|x l IH]; simpl; [constructor|].
  destruct (p x); [apply sublist_skip|apply sublist_cons]; exact IH.
Qed.

End QueryFacts.

Module QueueMoreFacts.
Import TaskQueue.

(** The bodies of the id loops never change the id. *)
Ltac ids_kept :=
  let u := fresh "u" in let u' := fresh "u'" in let Hf := fresh "Hf" in
  intros u u' Hf;
  repeat match type of Hf with context [if ?b then _ else _] => destruct b end;
  first [ discriminate
        | injection Hf as <-;
          first [ reflexivity | exact (proj1 (proj1 (OpFacts.apply_kwargs_frame _ _))) ] ].

(** Rewrite [fst (update_first ...)] with the task [get_task] finds. *)
Ltac first_task Hg :=
  rewrite (proj1 (LookupFacts.update_first_result _ _ _)), Hg; cbv beta iota.

Lemma success_found (tid : string) (f : task -> option task) (tasks : list task) (t' : task) :
  fst (update_first tid f tasks) = Some t' ->
  exists t, get_task tid tasks = Some t /\ f t = Some t'.
Proof.
  rewrite (proj1 (LookupFacts.update_first_result _ _ _)).
  destruct (get_task tid tasks) as [t|]; [|discriminate]. intros H. exists t. tauto.
Qed.

Lemma release_all_none (iid now : string) (tasks : list task) :
  (forall t, In t tasks -> should_release iid t = false) ->
  release_all_for_instance iid now tasks = (0, tasks).
Proof.
  induction tasks as [|t rest IH]; intros H; simpl; [reflexivity|].
  rewrite IH by (intros u Hu; apply H; right; exact Hu).
  rewrite (H t (or_introl eq_refl)). reflexivity.
Qed.

Lemma delete_hit_iff (tid : string) (t : task) :
  negb (String.eqb (task_id t) tid && deletable (status t)) = false <->
  task_id t = tid /\ (status t = Pending \/ status t = Completed \/ status t = Failed).
Proof.
  destruct (String.eqb_spec (task_id t) tid); destruct (status t); simpl;
    split; intros; intuition (try discriminate; try congruence).
Qed.

Lemma filter_not_shorter {A} (p : A -> bool) (l : list A) :
  Nat.ltb (length (List.filter p l)) (length l) = false -> List.filter p l = l.
Proof.
  intros E. apply QueryFacts.filter_all. intros x Hx.
  destruct (p x) eqn:Ep; [reflexivity|].
  assert (length (List.filter p l) < length l) as Hlt
    by (apply QueryFacts.filter_length_lt; exists x; tauto).
  apply Nat.ltb_lt in Hlt. congruence.
Qed.


Lemma filter_length_split {A} (p : A -> bool) (l : list A) :
  length (List.filter p l) + length (List.filter (fun x => negb (p x)) l) = length l.
Proof. induction l as [|x l IH]; simpl; [reflexivity|]. destruct (p x); simpl; lia. Qed.


Lemma status_counts_lookup (tasks : list task) (c : gmap string nat) (k : string) :
  default 0 (fold_left (fun counts t =>
    let s := status_str (status t) in
    <[s := default 0 (counts !! s) + 1]> counts) tasks c !! k) =
  default 0 (c !! k) + length (List.filter (fun t => String.eqb (status_str (status t)) k) tasks).
Proof.
  revert c. induction tasks as [|t rest IH]; intros c; simpl; [lia|].
  rewrite IH. destruct (String.eqb_spec (status_str (status t)) k) as [<-|Hne]; simpl.
  - rewrite lookup_insert_eq. simpl. lia.
  - rewrite lookup_insert_ne by exact Hne. reflexivity.
Qed.

Lemma status_str_eqb (s s' : task_status) :
  String.eqb (status_str s) (status_str s') = bool_decide (s = s').
Proof. destruct s, s'; reflexivity. Qed.

Lemma count_split (tasks : list task) :
  length (List.filter (fun t => bool_decide (status t = Pending)) tasks) +
  length (List.filter (fun t => bool_decide (status t = Claimed)) tasks) +
  length (List.filter (fun t => bool_decide (status t = InProgress)) tasks) +
  length (List.filter (fun t => bool_decide (status t = Completed)) tasks) +
  length (List.filter (fun t => bool_decide (status t = Failed)) tasks) = length tasks.
Proof.
  induction tasks as [|t rest IH]; simpl; [reflexivity|].
  destruct (status t); simpl; lia.
Qed.

Lemma board_pending_entries (T l : list task) (e : board_entry) :
  In e (flat_map (fun t => b_pending (board_step T (mkBoard [] [] [] []) t)) l) ->
  exists t, In t l /\ status t = Pending /\ e_id e = task_id t /\
    exists bl, e_extra e =
      EPending bl (List.filter (fun d => negb (Str.mem d (completed_ids T))) (dependencies t)) /\
      (blocked_truthy bl = true <->
         exists d, In d (dependencies t) /\ ~ In d (completed_ids T)).
Proof.
  intros H. apply in_flat_map in H as [t [Ht He]].
  unfold board_step in He. destruct (status t) eqn:Es; simpl in He; try contradiction.
  destruct He as [<-|[]]. exists t. simpl. split; [exact Ht|]. split; [exact Es|]. split; [reflexivity|].
  destruct (dependencies t) as [|d ds] eqn:Ed; cbv beta iota.
  - exists BlockedNoDeps. split; [reflexivity|]. split; [discriminate|intros [x [[] _]]].
  - destruct (forallb (fun d => Str.mem d (completed_ids T)) (d :: ds)) eqn:Ea;
      cbn [blocked_truthy negb].
    + exists (Blocked false). split.
      * f_equal. symmetry. apply QueryFacts.filter_nil_iff. intros x Hx.
        rewrite forallb_forall in Ea. rewrite (Ea x Hx). reflexivity.
      * split; [discriminate|]. intros [x [Hx Hn]]. exfalso. apply Hn, mem_In.
        rewrite forallb_forall in Ea. exact (Ea x Hx).
    + exists (Blocked true). split; [reflexivity|]. split; [|reflexivity]. intros _.
      apply Bool.not_true_iff_false in Ea. rewrite forallb_forall in Ea.
      apply not_all_ex_not in Ea as [x Hx]. exists x.
      destruct (classic (In x (d :: ds))) as [Hin|Hin];
        [|exfalso; apply Hx; intros Hc; contradiction].
      split; [exact Hin|]. rewrite <- mem_In. intros Hm. apply Hx. intros _. exact Hm.
Qed.

(** A successful operation's returned task is what [get_task] finds. *)
Lemma success_get_task (tid iid now : string) (tasks : list TaskQueue.task) :
  (forall t, fst (TaskQueue.claim_task tid iid now tasks) = Some t ->
     TaskQueue.get_task tid (snd (TaskQueue.claim_task tid iid now tasks)) = Some t) /\
  (forall t, fst (TaskQueue.start_task tid iid now tasks) = Some t ->
     TaskQueue.get_task tid (snd (TaskQueue.start_task tid iid now tasks)) = Some t) /\
  (forall res arts t, fst (TaskQueue.complete_task tid iid now res arts tasks) = Some t ->
     TaskQueue.get_task tid (snd (TaskQueue.complete_task tid iid now res arts tasks)) = Some t) /\
  (forall reason t, fst (TaskQueue.fail_task tid iid now reason tasks) = Some t ->
     TaskQueue.get_task tid (snd (TaskQueue.fail_task tid iid now reason tasks)) = Some t) /\
  (forall t, fst (TaskQueue.release_task tid iid now tasks) = Some t ->
     TaskQueue.get_task tid (snd (TaskQueue.release_task tid iid now tasks)) = Some t) /\
  (forall note t, fst (TaskQueue.add_task_note tid iid now note tasks) = Some t ->
     TaskQueue.get_task tid (snd (TaskQueue.add_task_note tid iid now note tasks)) = Some t) /\
  (forall kwargs t, fst (TaskQueue.update_task tid kwargs tasks) = Some t ->
     TaskQueue.get_task tid (snd (TaskQueue.update_task tid kwargs tasks)) = Some t).
Proof.
  unfold TaskQueue.claim_task, TaskQueue.start_task, TaskQueue.complete_task,
    TaskQueue.fail_task, TaskQueue.release_task, TaskQueue.add_task_note,
    TaskQueue.update_task.
  repeat split; intros;
    (apply LookupFacts.get_task_update_first; [ids_kept|assumption]).
Qed.

End QueueMoreFacts.

(** ** The task queue: further properties *)

(** X1: in every store reached from the empty store by create, claim,
    start, complete, fail, release and release-all operations, a claimed or
    in-progress task is the first task with its id, and no two claimed or
    in-progress tasks have overlapping scopes. *)
Theorem run_ops_scopes_isolated (ops : list TaskQueue.task_op) :
  SpecQueue.scopes_isolated (TaskQueue.run_ops ops []).
Proof. apply IsolationFacts.iso_run_ops. exact IsolationFacts.iso_nil. Qed.

(** X2: when the task an operation finds is not claimed by the caller (or
    there is none), start, complete, fail, release and note all return
    [None] and leave the store unchanged. *)
Theorem only_claimer_acts (tid iid now : string) (tasks : list TaskQueue.task) :
  (forall t, TaskQueue.get_task tid tasks = Some t -> TaskQueue.claimed_by t <> Some iid) ->
  TaskQueue.start_task tid iid now tasks = (None, tasks) /\
  (forall res arts, TaskQueue.complete_task tid iid now res arts tasks = (None, tasks)) /\
  (forall reason, TaskQueue.fail_task tid iid now reason tasks = (None, tasks)) /\
  TaskQueue.release_task tid iid now tasks = (None, tasks) /\
  (forall note, TaskQueue.add_task_note tid iid now note tasks = (None, tasks)).
Proof.
  intros H.
  assert (Hc : forall t, TaskQueue.get_task tid tasks = Some t ->
                 TaskQueue.claimed_by_is t iid = false).
  { intros t Ht. apply bool_decide_eq_false. exact (H t Ht). }
  refine (conj _ (conj _ (conj _ (conj _ _)))); intros;
    apply LookupFacts.update_first_none; intros t Ht; rewrite (Hc t Ht); simpl;
    rewrite ?orb_true_r; reflexivity.
Qed.

Lemma only_claimer_acts_witness :
  (forall t, TaskQueue.get_task "260207-aaaaaa" Spec.dep_store = Some t ->
     TaskQueue.claimed_by t <> Some "X") /\
  TaskQueue.start_task "260207-aaaaaa" "X" "t2" Spec.dep_store = (None, Spec.dep_store).
Proof.
  assert (H : forall t, TaskQueue.get_task "260207-aaaaaa" Spec.dep_store = Some t ->
                TaskQueue.claimed_by t <> Some "X").
  { intros t Ht. vm_compute in Ht. injection Ht as <-. discriminate. }
  split; [exact H|exact (proj1 (only_claimer_acts "260207-aaaaaa" "X" "t2" Spec.dep_store H))].
Defined.

(** X3: after a successful operation, [get_task] on the new store returns
    exactly the task the operation returned, for claim, start, complete,
    fail, release, note and update. *)
Theorem get_task_after_success (tid iid now : string) (tasks : list TaskQueue.task) :
  (forall t, fst (TaskQueue.claim_task tid iid now tasks) = Some t ->
     TaskQueue.get_task tid (snd (TaskQueue.claim_task tid iid now tasks)) = Some t) /\
  (forall t, fst (TaskQueue.start_task tid iid now tasks) = Some t ->
     TaskQueue.get_task tid (snd (TaskQueue.start_task tid iid now tasks)) = Some t) /\
  (forall res arts t, fst (TaskQueue.complete_task tid iid now res arts tasks) = Some t ->
     TaskQueue.get_task tid (snd (TaskQueue.complete_task tid iid now res arts tasks)) = Some t) /\
  (forall reason t, fst (TaskQueue.fail_task tid iid now reason tasks) = Some t ->
     TaskQueue.get_task tid (snd (TaskQueue.fail_task tid iid now reason tasks)) = Some t) /\
  (forall t, fst (TaskQueue.release_task tid iid now tasks) = Some t ->
     TaskQueue.get_task tid (snd (TaskQueue.release_task tid iid now tasks)) = Some t) /\
  (forall note t, fst (TaskQueue.add_task_note tid iid now note tasks) = Some t ->
     TaskQueue.get_task tid (snd (TaskQueue.add_task_note tid iid now note tasks)) = Some t) /\
  (forall kwargs t, fst (TaskQueue.update_task tid kwargs tasks) = Some t ->
     TaskQueue.get_task tid (snd (TaskQueue.update_task tid kwargs tasks)) = Some t).
Proof. exact (QueueMoreFacts.success_get_task tid iid now tasks). Qed.

(** X4: claim, start and complete by the same instance succeed in a row
    once the claim succeeded; the completed task keeps the claim and the
    three timestamps, holds the result, has the given artifacts appended to
    those of the claimed task, and is what [get_task] returns. *)
Theorem claim_start_complete (tid iid now1 now2 now3 res : string) (arts : list string)
    (tasks : list TaskQueue.task) (t1 : TaskQueue.task) :
  fst (TaskQueue.claim_task tid iid now1 tasks) = Some t1 ->
  let tasks1 := snd (TaskQueue.claim_task tid iid now1 tasks) in
  exists t2, fst (TaskQueue.start_task tid iid now2 tasks1) = Some t2 /\
  let tasks2 := snd (TaskQueue.start_task tid iid now2 tasks1) in
  exists t3, fst (TaskQueue.complete_task tid iid now3 res arts tasks2) = Some t3 /\
    TaskQueue.status t3 = TaskQueue.Completed /\ TaskQueue.claimed_by t3 = Some iid /\
    TaskQueue.claimed_at t3 = Some now1 /\ TaskQueue.started_at t3 = Some now2 /\
    TaskQueue.completed_at t3 = Some now3 /\ TaskQueue.result t3 = Some res /\
    TaskQueue.artifacts t3 = app (TaskQueue.artifacts t1) arts /\
    TaskQueue.get_task tid (snd (TaskQueue.complete_task tid iid now3 res arts tasks2)) =
      Some t3.
Proof.
  intros H1. cbv zeta.
  destruct (QueueMoreFacts.success_get_task tid iid now1 tasks) as [G1 _].
  pose proof (G1 t1 H1) as Hg1.
  assert (Hc1 : TaskQueue.status t1 = TaskQueue.Claimed /\
                TaskQueue.claimed_by t1 = Some iid /\ TaskQueue.claimed_at t1 = Some now1).
  { unfold TaskQueue.claim_task in H1.
    apply QueueMoreFacts.success_found in H1 as [u [_ Hf]].
    repeat match type of Hf with context [if ?b then _ else _] => destruct b end;
      try discriminate. injection Hf as <-. repeat split; reflexivity. }
  destruct Hc1 as [S1 [C1 A1]].
  set (tasks1 := snd (TaskQueue.claim_task tid iid now1 tasks)) in *.
  assert (Hs : fst (TaskQueue.start_task tid iid now2 tasks1) =
               Some (TaskQueue.set_started now2 t1)).
  { unfold TaskQueue.start_task. QueueMoreFacts.first_task Hg1.
    unfold TaskQueue.claimed_by_is. rewrite S1, C1, !bool_decide_eq_true_2 by reflexivity.
    reflexivity. }
  exists (TaskQueue.set_started now2 t1). split; [exact Hs|].
  destruct (QueueMoreFacts.success_get_task tid iid now2 tasks1) as [_ [G2 _]].
  pose proof (G2 _ Hs) as Hg2.
  set (tasks2 := snd (TaskQueue.start_task tid iid now2 tasks1)) in *.
  set (t3 := TaskQueue.set_completed now3 res arts (TaskQueue.set_started now2 t1)).
  assert (H3 : fst (TaskQueue.complete_task tid iid now3 res arts tasks2) = Some t3).
  { unfold TaskQueue.complete_task. QueueMoreFacts.first_task Hg2.
    unfold TaskQueue.claimed_by_is. cbn [TaskQueue.claimed_by TaskQueue.set_started].
    rewrite C1, bool_decide_eq_true_2 by reflexivity. reflexivity. }
  exists t3. split; [exact H3|].
  destruct (QueueMoreFacts.success_get_task tid iid now3 tasks2) as [_ [_ [G3 _]]].
  split; [reflexivity|]. split; [exact C1|]. split; [exact A1|].
  split; [reflexivity|]. split; [reflexivity|]. split; [reflexivity|]. split; [reflexivity|].
  exact (G3 res arts t3 H3).
Qed.

Lemma claim_start_complete_witness :
  exists t1, fst (TaskQueue.claim_task "260207-aaaaaa" "X" "t2" Spec.dep_store) = Some t1 /\
  exists t2, fst (TaskQueue.start_task "260207-aaaaaa" "X" "t3"
                    (snd (TaskQueue.claim_task "260207-aaaaaa" "X" "t2" Spec.dep_store))) = Some t2.
Proof.
  assert (H : exists t1, fst (TaskQueue.claim_task "260207-aaaaaa" "X" "t2" Spec.dep_store) =
                         Some t1) by (eexists; vm_compute; reflexivity).
  destruct H as [t1 H]. exists t1. split; [exact H|].
  destruct (claim_start_complete "260207-aaaaaa" "X" "t2" "t3" "t4" "done" []
              Spec.dep_store t1 H) as [t2 [Ht2 _]].
  exists t2. exact Ht2.
Defined.

(** X5: a completed task stays claimed, so its claimer can complete it
    again (overwriting the result, appending artifacts) or fail it, which
    sends the completed task back to pending while keeping its result and
    completion time. *)
Theorem complete_then_fail_reopens (tid iid now1 now2 res res2 reason : string)
    (arts arts2 : list string) (tasks : list TaskQueue.task) (t : TaskQueue.task) :
  fst (TaskQueue.complete_task tid iid now1 res arts tasks) = Some t ->
  let tasks1 := snd (TaskQueue.complete_task tid iid now1 res arts tasks) in
  TaskQueue.status t = TaskQueue.Completed /\ TaskQueue.claimed_by t = Some iid /\
  (exists t2, fst (TaskQueue.complete_task tid iid now2 res2 arts2 tasks1) = Some t2 /\
     TaskQueue.status t2 = TaskQueue.Completed /\ TaskQueue.result t2 = Some res2 /\
     TaskQueue.completed_at t2 = Some now2 /\
     TaskQueue.artifacts t2 = app (TaskQueue.artifacts t) arts2) /\
  (exists t2, fst (TaskQueue.fail_task tid iid now2 reason tasks1) = Some t2 /\
     TaskQueue.status t2 = TaskQueue.Pending /\ TaskQueue.claimed_by t2 = None /\
     TaskQueue.result t2 = Some res /\ TaskQueue.completed_at t2 = Some now1).
Proof.
  intros H. cbv zeta.
  destruct (QueueMoreFacts.success_get_task tid iid now1 tasks) as [_ [_ [G _]]].
  pose proof (G res arts t H) as Hg.
  assert (Hc : TaskQueue.status t = TaskQueue.Completed /\ TaskQueue.claimed_by t = Some iid /\
               TaskQueue.result t = Some res /\ TaskQueue.completed_at t = Some now1).
  { unfold TaskQueue.complete_task in H.
    apply QueueMoreFacts.success_found in H as [u [_ Hf]].
    destruct (TaskQueue.claimed_by_is u iid) eqn:Ec; simpl in Hf; [|discriminate].
    injection Hf as <-. apply TaskFacts.claimed_by_is_true in Ec.
    repeat split; first [reflexivity | exact Ec]. }
  destruct Hc as [S [C [R A]]].
  set (tasks1 := snd (TaskQueue.complete_task tid iid now1 res arts tasks)) in *.
  split; [exact S|]. split; [exact C|]. split.
  - exists (TaskQueue.set_completed now2 res2 arts2 t). split.
    + unfold TaskQueue.complete_task. QueueMoreFacts.first_task Hg.
      unfold TaskQueue.claimed_by_is. rewrite C, bool_decide_eq_true_2 by reflexivity.
      reflexivity.
    + repeat split; reflexivity.
  - eexists. split.
    + unfold TaskQueue.fail_task. QueueMoreFacts.first_task Hg.
      unfold TaskQueue.claimed_by_is. rewrite C, bool_decide_eq_true_2 by reflexivity.
      reflexivity.
    + split; [reflexivity|]. split; [reflexivity|]. split; [exact R|exact A].
Qed.

Lemma complete_then_fail_reopens_witness :
  exists t, fst (TaskQueue.complete_task "260207-aaaaaa" "X" "t3" "done" [] SpecQueue.two_store)
              = Some t /\
  exists t2, fst (TaskQueue.fail_task "260207-aaaaaa" "X" "t4" "flaky"
                    (snd (TaskQueue.complete_task "260207-aaaaaa" "X" "t3" "done" []
                            SpecQueue.two_store))) = Some t2 /\
    TaskQueue.status t2 = TaskQueue.Pending.
Proof.
  assert (H : exists t, fst (TaskQueue.complete_task "260207-aaaaaa" "X" "t3" "done" []
                               SpecQueue.two_store) = Some t) by (eexists; vm_compute; reflexivity).
  destruct H as [t H]. exists t. split; [exact H|].
  destruct (complete_then_fail_reopens "260207-aaaaaa" "X" "t3" "t4" "done" "again" "flaky"
              [] [] SpecQueue.two_store t H) as [_ [_ [_ [t2 [H2 [S2 _]]]]]].
  exists t2. split; [exact H2|exact S2].
Defined.

(** X6: [delete_task] reports success exactly when some task with the id
    is pending, completed or failed; the store afterwards drops all such
    tasks with the id and nothing else, and a claimed or in-progress task
    is never deleted. *)
Theorem delete_task_spec (tid : string) (tasks : list TaskQueue.task) :
  (fst (TaskQueue.delete_task tid tasks) = true <->
     exists t, In t tasks /\ TaskQueue.task_id t = tid /\
       (TaskQueue.status t = TaskQueue.Pending \/ TaskQueue.status t = TaskQueue.Completed \/
        TaskQueue.status t = TaskQueue.Failed)) /\
  snd (TaskQueue.delete_task tid tasks) =
    List.filter (fun t => negb (String.eqb (TaskQueue.task_id t) tid &&
                                TaskQueue.deletable (TaskQueue.status t))) tasks /\
  (forall t, In t tasks -> TaskQueue.is_active t = true ->
     In t (snd (TaskQueue.delete_task tid tasks))).
Proof.
  unfold TaskQueue.delete_task. cbv zeta.
  set (p := fun t => negb (String.eqb (TaskQueue.task_id t) tid &&
                           TaskQueue.deletable (TaskQueue.status t))).
  assert (Hex : (exists t, In t tasks /\ p t = false) <->
                exists t, In t tasks /\ TaskQueue.task_id t = tid /\
                  (TaskQueue.status t = TaskQueue.Pending \/
                   TaskQueue.status t = TaskQueue.Completed \/
                   TaskQueue.status t = TaskQueue.Failed)).
  { split; intros [t [Ht Hp]]; exists t; split; try exact Ht;
      apply QueueMoreFacts.delete_hit_iff; exact Hp. }
  assert (Hact : forall t, In t tasks -> TaskQueue.is_active t = true ->
                   In t (List.filter p tasks)).
  { intros t Ht Ha. apply filter_In. split; [exact Ht|]. unfold p.
    unfold TaskQueue.is_active in Ha.
    destruct (TaskQueue.status t); try discriminate; rewrite andb_false_r; reflexivity. }
  destruct (Nat.ltb (length (List.filter p tasks)) (length tasks)) eqn:E; simpl.
  - apply Nat.ltb_lt, QueryFacts.filter_length_lt in E.
    split; [rewrite <- Hex; tauto|]. split; [reflexivity|exact Hact].
  - pose proof (QueueMoreFacts.filter_not_shorter p tasks E) as Hf.
    split; [|split; [symmetry; exact Hf|intros t Ht _; exact Ht]].
    split; [discriminate|]. rewrite <- Hex, <- QueryFacts.filter_length_lt.
    intros Hlt. apply Nat.ltb_lt in Hlt. congruence.
Qed.


(** X8: [list_tasks] applies a filter only when its argument is truthy:
    with no filters, or with every filter the empty string, it returns the
    whole store; it returns a sub-list of the store (its tasks in store
    order, none repeated more often than in the store); and a non-empty
    status that is not one of the five status strings (for instance
    ["in_progress"]) matches no task. *)
Theorem list_tasks_filters (status project claimed_by tag : option string)
    (tasks : list TaskQueue.task) :
  TaskQueue.list_tasks None None None None tasks = tasks /\
  TaskQueue.list_tasks (Some "") (Some "") (Some "") (Some "") tasks = tasks /\
  (forall t, In t (TaskQueue.list_tasks status project claimed_by tag tasks) -> In t tasks) /\
  sublist (TaskQueue.list_tasks status project claimed_by tag tasks) tasks /\
  (forall s, s <> "" ->
     ~ In s ["pending"; "claimed"; "in-progress"; "completed"; "failed"] ->
     TaskQueue.list_tasks (Some s) project claimed_by tag tasks = []).
Proof.
  split; [apply QueryFacts.list_tasks_all|].
  split; [unfold TaskQueue.list_tasks; apply QueryFacts.filter_all; reflexivity|].
  split; [intros t Ht; apply filter_In in Ht; tauto|].
  split; [apply QueryFacts.filter_sublist|].
  intros s Hs Hn. apply QueryFacts.filter_nil_iff. intros t _.
  unfold TaskQueue.truthy_str. destruct (String.eqb_spec s "") as [E|_]; [contradiction|].
  destruct (String.eqb_spec (TaskQueue.status_str (TaskQueue.status t)) s) as [E|_];
    [|reflexivity].
  exfalso. apply Hn. rewrite <- E. destruct (TaskQueue.status t); simpl; tauto.
Qed.

(** X9: [worker_board] puts every task in exactly one bucket, in store
    order: pending, claimed and in-progress tasks in their own buckets,
    completed and failed ones together in [completed], so the bucket sizes
    add up to the number of tasks; a pending entry lists as blocking
    exactly the dependencies that are not ids of completed tasks, and is
    marked blocked exactly when there is one. *)
Theorem worker_board_spec (tasks : list TaskQueue.task) :
  let b := TaskQueue.worker_board tasks in
  map TaskQueue.e_id (TaskQueue.b_pending b) =
    map TaskQueue.task_id
      (List.filter (fun t => bool_decide (TaskQueue.status t = TaskQueue.Pending)) tasks) /\
  map TaskQueue.e_id (TaskQueue.b_claimed b) =
    map TaskQueue.task_id
      (List.filter (fun t => bool_decide (TaskQueue.status t = TaskQueue.Claimed)) tasks) /\
  map TaskQueue.e_id (TaskQueue.b_in_progress b) =
    map TaskQueue.task_id
      (List.filter (fun t => bool_decide (TaskQueue.status t = TaskQueue.InProgress)) tasks) /\
  map TaskQueue.e_id (TaskQueue.b_completed b) =
    map TaskQueue.task_id
      (List.filter (fun t => bool_decide (TaskQueue.status t = TaskQueue.Completed \/
                                          TaskQueue.status t = TaskQueue.Failed)) tasks) /\
  length (TaskQueue.b_pending b) + length (TaskQueue.b_claimed b) +
    length (TaskQueue.b_in_progress b) + length (TaskQueue.b_completed b) = length tasks /\
  (forall e, In e (TaskQueue.b_pending b) ->
     exists t, In t tasks /\ TaskQueue.status t = TaskQueue.Pending /\
       TaskQueue.e_id e = TaskQueue.task_id t /\
       exists blocked, TaskQueue.e_extra e =
         TaskQueue.EPending blocked
           (List.filter (fun d => negb (Str.mem d (TaskQueue.completed_ids tasks)))
              (TaskQueue.dependencies t)) /\
         (TaskQueue.blocked_truthy blocked = true <->
            exists d, In d (TaskQueue.dependencies t) /\ ~ In d (TaskQueue.completed_ids tasks))).
Proof.
  cbv zeta. unfold TaskQueue.worker_board. cbv zeta.
  rewrite QueryFacts.list_tasks_all, QueryFacts.board_fold. cbn [TaskQueue.b_pending
    TaskQueue.b_claimed TaskQueue.b_in_progress TaskQueue.b_completed app].
  destruct (QueryFacts.board_ids tasks tasks) as [H1 [H2 [H3 H4]]].
  split; [exact H1|]. split; [exact H2|]. split; [exact H3|]. split; [exact H4|].
  split; [|apply QueueMoreFacts.board_pending_entries].
  rewrite <- (length_map TaskQueue.e_id (flat_map _ tasks)), H1.
  rewrite <- (length_map TaskQueue.e_id (flat_map (fun t => TaskQueue.b_claimed _) tasks)), H2.
  rewrite <- (length_map TaskQueue.e_id (flat_map (fun t => TaskQueue.b_in_progress _) tasks)), H3.
  rewrite <- (length_map TaskQueue.e_id (flat_map (fun t => TaskQueue.b_completed _) tasks)), H4.
  rewrite !length_map. clear.
  induction tasks as [|t l IH]; simpl; [reflexivity|].
  destruct (TaskQueue.status t); simpl; lia.
Qed.

(** X10: [task_stats] counts each status correctly from its [counts]
    dictionary, and the five counts add up to the total. *)
Theorem task_stats_counts (tasks : list TaskQueue.task) :
  let s := TaskQueue.task_stats tasks in
  TaskQueue.st_total s = length tasks /\
  TaskQueue.st_pending s =
    length (List.filter (fun t => bool_decide (TaskQueue.status t = TaskQueue.Pending)) tasks) /\
  TaskQueue.st_claimed s =
    length (List.filter (fun t => bool_decide (TaskQueue.status t = TaskQueue.Claimed)) tasks) /\
  TaskQueue.st_in_progress s =
    length (List.filter (fun t => bool_decide (TaskQueue.status t = TaskQueue.InProgress)) tasks) /\
  TaskQueue.st_completed s =
    length (List.filter (fun t => bool_decide (TaskQueue.status t = TaskQueue.Completed)) tasks) /\
  TaskQueue.st_failed s =
    length (List.filter (fun t => bool_decide (TaskQueue.status t = TaskQueue.Failed)) tasks) /\
  TaskQueue.st_pending s + TaskQueue.st_claimed s + TaskQueue.st_in_progress s +
    TaskQueue.st_completed s + TaskQueue.st_failed s = TaskQueue.st_total s.
Proof.
  cbv zeta. unfold TaskQueue.task_stats. cbv zeta.
  rewrite QueryFacts.list_tasks_all. unfold TaskQueue.status_counts.
  rewrite !QueueMoreFacts.status_counts_lookup, !lookup_empty. cbn [default TaskQueue.st_total
    TaskQueue.st_pending TaskQueue.st_claimed TaskQueue.st_in_progress TaskQueue.st_completed
    TaskQueue.st_failed Nat.add].
  assert (Hf : forall (k : string) (s : TaskQueue.task_status), k = TaskQueue.status_str s ->
     List.filter (fun t => String.eqb (TaskQueue.status_str (TaskQueue.status t)) k) tasks =
     List.filter (fun t => bool_decide (TaskQueue.status t = s)) tasks).
  { intros k s ->. apply filter_ext. intros t. apply QueueMoreFacts.status_str_eqb. }
  rewrite (Hf "pending" TaskQueue.Pending eq_refl), (Hf "claimed" TaskQueue.Claimed eq_refl),
    (Hf "in-progress" TaskQueue.InProgress eq_refl), (Hf "completed" TaskQueue.Completed eq_refl),
    (Hf "failed" TaskQueue.Failed eq_refl).
  repeat split; try reflexivity. apply QueueMoreFacts.count_split.
Qed.

(** X11: [create_from_template] with an unknown template name changes
    nothing and returns [None]; the known names are exactly bug, feature,
    refactor, test, deploy and research.  With a known template it appends
    one pending, unclaimed task whose title is the template prefix followed
    by the given title and whose tags are the template tags followed by
    the extra tags; an absent or empty priority or description falls back
    to the template's. *)
Theorem create_from_template_spec (tid now template_name title project : string)
    (scope_files scope_dirs extra_tags : option (list string))
    (priority description : option string) (dependencies : option (list string))
    (created_by : string) (tasks : list TaskQueue.task) :
  (TaskQueue.TEMPLATES template_name <> None <->
     In template_name ["bug"; "feature"; "refactor"; "test"; "deploy"; "research"]) /\
  match TaskQueue.TEMPLATES template_name with
  | None =>
      TaskQueue.create_from_template tid now template_name title project scope_files
        scope_dirs extra_tags priority description dependencies created_by tasks = (None, tasks)
  | Some tmpl =>
      exists t,
        TaskQueue.create_from_template tid now template_name title project scope_files
          scope_dirs extra_tags priority description dependencies created_by tasks =
          (Some t, app tasks [t]) /\
        TaskQueue.task_id t = tid /\ TaskQueue.status t = TaskQueue.Pending /\
        TaskQueue.claimed_by t = None /\
        TaskQueue.title t = String.append (TaskQueue.title_prefix tmpl) title /\
        TaskQueue.scope_tags (TaskQueue.scope t) =
          app (TaskQueue.template_scope_tags tmpl) (TaskQueue.or_nil extra_tags) /\
        ((priority = None \/ priority = Some "") ->
           TaskQueue.priority t = TaskQueue.template_priority tmpl) /\
        (forall p, priority = Some p -> p <> "" -> TaskQueue.priority t = p) /\
        ((description = None \/ description = Some "") ->
           TaskQueue.description t = TaskQueue.description_template tmpl)
  end.
Proof.
  split.
  { unfold TaskQueue.TEMPLATES. simpl.
    repeat match goal with |- context [String.eqb ?a ?b] => destruct (String.eqb_spec a b) end;
      subst; split; intros H; try tauto; try (exfalso; apply H; reflexivity);
      intuition congruence. }
  unfold TaskQueue.create_from_template.
  destruct (TaskQueue.TEMPLATES template_name) as [tmpl|]; [|reflexivity].
  eexists. split; [reflexivity|]. cbn.
  split; [reflexivity|]. split; [reflexivity|]. split; [reflexivity|].
  split; [reflexivity|]. split; [reflexivity|].
  split; [intros [->| ->]; reflexivity|].
  split; [intros p -> Hp; simpl; destruct (String.eqb_spec p ""); [contradiction|reflexivity]|].
  intros [->| ->]; reflexivity.
Qed.

(** X12: [release_all_for_instance] leaves nothing to release: a second
    call for the same instance releases no task and changes nothing. *)
Theorem release_all_idempotent (instance_id now now' : string) (tasks : list TaskQueue.task) :
  TaskQueue.release_all_for_instance instance_id now'
    (snd (TaskQueue.release_all_for_instance instance_id now tasks)) =
  (0, snd (TaskQueue.release_all_for_instance instance_id now tasks)).
Proof.
  apply QueueMoreFacts.release_all_none. intros t Ht.
  rewrite (proj2 (OpFacts.release_all_shape _ _ _)) in Ht.
  apply in_map_iff in Ht as [u [<- _]].
  destruct (TaskQueue.should_release instance_id u) eqn:E; [|exact E].
  unfold TaskQueue.should_release, TaskQueue.is_active. simpl. rewrite ?andb_false_r. reflexivity.
Qed.

(** ** The instance registry: further properties *)

Module RegistryMoreFacts.
Import InstanceRegistry.

Lemma purge_lookup (now : Z) (instances : registry) (k : string) :
  _purge_expired now instances !! k =
    (instances !! k) ≫= (fun r => if decide (expired now r) then None else Some r).
Proof.
  apply option_eq. intros r. rewrite RegistryFacts.purge_expired_lookup.
  destruct (instances !! k) as [r'|]; simpl.
  - destruct (decide (expired now r')) as [X|X]; split.
    + intros [H1 H2]. injection H1 as ->. contradiction.
    + discriminate.
    + intros [H1 H2]. exact H1.
    + intros H. injection H as ->. tauto.
  - split; [intros [H _]; discriminate|discriminate].
Qed.

(** Purging at a later time after purging is purging at the later time. *)
Lemma purge_purge (now now' : Z) (instances : registry) :
  (now <= now')%Z ->
  _purge_expired now' (_purge_expired now instances) = _purge_expired now' instances.
Proof.
  intros Hle. apply map_eq. intros k. rewrite !purge_lookup.
  destruct (instances !! k) as [r|]; simpl; [|reflexivity].
  destruct (decide (expired now r)) as [X|X]; simpl; [|reflexivity].
  destruct (decide (expired now' r)) as [Y|Y]; [reflexivity|].
  exfalso. apply Y. unfold expired in *. lia.
Qed.

End RegistryMoreFacts.

(** X13: right after [register], [get_instance] for the new id returns
    the new record, with age [now' - now], at any time [now'] up to
    [EXPIRY_SECONDS] later; for every other id [get_instance] answers at
    [now'] as it would have without the registration. *)
Theorem register_then_get (instance_id workspace platform status now_iso : string)
    (now now' : Z) (instances : InstanceRegistry.registry) :
  (now <= now' <= now + InstanceRegistry.EXPIRY_SECONDS)%Z ->
  let '(record, instances') :=
    InstanceRegistry.register instance_id workspace platform status now_iso now instances in
  fst (InstanceRegistry.get_instance instance_id now' instances') =
    Some (record, (now' - now)%Z) /\
  (forall other, other <> instance_id ->
     fst (InstanceRegistry.get_instance other now' instances') =
     fst (InstanceRegistry.get_instance other now' instances)).
Proof.
  intros Hle. unfold InstanceRegistry.register, InstanceRegistry.get_instance. simpl.
  split.
  - rewrite RegistryMoreFacts.purge_lookup, lookup_insert_eq. simpl.
    destruct (decide _) as [X|X]; [|reflexivity].
    exfalso. unfold InstanceRegistry.expired, InstanceRegistry.EXPIRY_SECONDS in *.
    simpl in X. lia.
  - intros other Hne. rewrite RegistryMoreFacts.purge_lookup.
    rewrite lookup_insert_ne by congruence.
    rewrite <- RegistryMoreFacts.purge_lookup, RegistryMoreFacts.purge_purge by lia.
    reflexivity.
Qed.

Lemma register_then_get_witness :
  (0 <= 300 <= 0 + InstanceRegistry.EXPIRY_SECONDS)%Z /\
  fst (InstanceRegistry.get_instance "a1b2c3d4" 300
         (snd (InstanceRegistry.register "a1b2c3d4" "ws" "vscode" "bootstrapping" "t0" 0 ∅))) =
    Some (fst (InstanceRegistry.register "a1b2c3d4" "ws" "vscode" "bootstrapping" "t0" 0 ∅),
          300%Z).
Proof.
  assert (H : (0 <= 300 <= 0 + InstanceRegistry.EXPIRY_SECONDS)%Z)
    by (unfold InstanceRegistry.EXPIRY_SECONDS; lia).
  split; [exact H|].
  exact (proj1 (register_then_get "a1b2c3d4" "ws" "vscode" "bootstrapping" "t0" 0 300 ∅ H)).
Defined.

(** X14: [heartbeat] fails exactly for an id [get_instance] does not see
    (absent or expired), and then only purges; otherwise it bumps the
    heartbeat count by one, stamps the time, applies the optional status,
    and keeps the instance visible to [get_instance] for
    [EXPIRY_SECONDS] more seconds. *)
Theorem heartbeat_spec (instance_id : string) (status : option string) (now_iso : string)
    (now now' : Z) (instances : InstanceRegistry.registry) :
  (now <= now' <= now + InstanceRegistry.EXPIRY_SECONDS)%Z ->
  match fst (InstanceRegistry.get_instance instance_id now instances) with
  | None =>
      InstanceRegistry.heartbeat instance_id status now_iso now instances =
        (None, InstanceRegistry._purge_expired now instances)
  | Some (rec, _) =>
      exists rec',
        fst (InstanceRegistry.heartbeat instance_id status now_iso now instances) = Some rec' /\
        InstanceRegistry.heartbeat_count rec' = S (InstanceRegistry.heartbeat_count rec) /\
        InstanceRegistry.last_heartbeat_ts rec' = now /\
        InstanceRegistry.i_status rec' = default (InstanceRegistry.i_status rec) status /\
        InstanceRegistry.i_id rec' = InstanceRegistry.i_id rec /\
        fst (InstanceRegistry.get_instance instance_id now'
               (snd (InstanceRegistry.heartbeat instance_id status now_iso now instances))) =
          Some (rec', (now' - now)%Z)
  end.
Proof.
  intros Hle. unfold InstanceRegistry.get_instance at 1, InstanceRegistry.heartbeat. simpl.
  destruct (InstanceRegistry._purge_expired now instances !! instance_id) as [rec|];
    [|reflexivity].
  eexists. split; [reflexivity|].
  split; [reflexivity|]. split; [reflexivity|]. split; [reflexivity|]. split; [reflexivity|].
  unfold InstanceRegistry.get_instance. simpl.
  rewrite RegistryMoreFacts.purge_lookup, lookup_insert_eq. simpl.
  destruct (decide _) as [X|X]; [|reflexivity].
  exfalso. unfold InstanceRegistry.expired, InstanceRegistry.EXPIRY_SECONDS in *.
  simpl in X. lia.
Qed.

Lemma heartbeat_spec_witness :
  (0 <= 600 <= 0 + InstanceRegistry.EXPIRY_SECONDS)%Z /\
  exists rec',
    fst (InstanceRegistry.heartbeat "a1b2c3d4" None "t1" 0 SpecRegistry.stale_registry) = Some rec'.
Proof.
  assert (H : (0 <= 600 <= 0 + InstanceRegistry.EXPIRY_SECONDS)%Z)
    by (unfold InstanceRegistry.EXPIRY_SECONDS; lia).
  split; [exact H|].
  assert (E : fst (InstanceRegistry.get_instance "a1b2c3d4" 0 SpecRegistry.stale_registry) =
              Some (SpecRegistry.stale, 0%Z)) by (vm_compute; reflexivity).
  pose proof (heartbeat_spec "a1b2c3d4" None "t1" 0 600 SpecRegistry.stale_registry H) as Hs.
  rewrite E in Hs. cbv beta iota in Hs.
  destruct Hs as [rec' [Hr _]]. exists rec'. exact Hr.
Defined.

(** X15: [update_status] never changes whether [get_instance] sees an
    instance nor the age it reports, for any id at any time: it does not
    touch the heartbeat. *)
Theorem update_status_keeps_liveness (instance_id : string) (status activity : option string)
    (active_files : option (list string)) (instances : InstanceRegistry.registry)
    (other : string) (now : Z) :
  option_map snd (fst (InstanceRegistry.get_instance other now
    (snd (InstanceRegistry.update_status instance_id status activity active_files instances)))) =
  option_map snd (fst (InstanceRegistry.get_instance other now instances)).
Proof.
  unfold InstanceRegistry.update_status.
  destruct (instances !! instance_id) as [rec|] eqn:E; [|reflexivity]. simpl.
  unfold InstanceRegistry.get_instance. simpl. rewrite !RegistryMoreFacts.purge_lookup.
  destruct (decide (other = instance_id)) as [->|Hne].
  - rewrite lookup_insert_eq, E. simpl.
    destruct (decide (InstanceRegistry.expired now rec)) as [X|X];
    destruct (decide (InstanceRegistry.expired now _)) as [Y|Y]; try reflexivity;
    exfalso; unfold InstanceRegistry.expired in *; simpl in *; lia.
  - rewrite lookup_insert_ne by congruence. reflexivity.
Qed.

(** X16: [deregister] reports [True] exactly when the id is in the
    dictionary, expired or not; afterwards [get_instance] never sees the
    id, and it answers for every other id as before. *)
Theorem deregister_spec (instance_id : string) (instances : InstanceRegistry.registry) :
  (fst (InstanceRegistry.deregister instance_id instances) = true <->
     exists rec, instances !! instance_id = Some rec) /\
  (forall now, fst (InstanceRegistry.get_instance instance_id now
                      (snd (InstanceRegistry.deregister instance_id instances))) = None) /\
  (forall other now, other <> instance_id ->
     fst (InstanceRegistry.get_instance other now
            (snd (InstanceRegistry.deregister instance_id instances))) =
     fst (InstanceRegistry.get_instance other now instances)).
Proof.
  unfold InstanceRegistry.deregister.
  destruct (instances !! instance_id) as [rec|] eqn:E; simpl.
  - split; [split; [intros _; exists rec; reflexivity|reflexivity]|].
    unfold InstanceRegistry.get_instance. simpl.
    split; [intros now; rewrite RegistryMoreFacts.purge_lookup, lookup_delete_eq; reflexivity|].
    intros other now Hne. rewrite !RegistryMoreFacts.purge_lookup, lookup_delete_ne by congruence.
    reflexivity.
  - split; [split; [discriminate|intros [r H]; discriminate]|].
    split; [|reflexivity].
    intros now. unfold InstanceRegistry.get_instance. simpl.
    rewrite RegistryMoreFacts.purge_lookup, E. reflexivity.
Qed.

(** X17: [check_conflicts] reports a file for another instance exactly
    when that instance is live, the file is among the caller's files and
    among that instance's active files; the record carries that
    instance's workspace, platform and activity.  The caller's own id is
    never reported. *)
Theorem check_conflicts_spec (instance_id : string) (files : list string) (now : Z)
    (instances : InstanceRegistry.registry) (c : InstanceRegistry.file_conflict) :
  In c (fst (InstanceRegistry.check_conflicts instance_id files now instances)) <->
  exists rec,
    InstanceRegistry.fc_instance_id c <> instance_id /\
    instances !! InstanceRegistry.fc_instance_id c = Some rec /\
    ~ InstanceRegistry.expired now rec /\
    In (InstanceRegistry.fc_file c) files /\
    In (InstanceRegistry.fc_file c) (InstanceRegistry.active_files rec) /\
    c = InstanceRegistry.mkFileConflict (InstanceRegistry.fc_file c)
          (InstanceRegistry.fc_instance_id c) (InstanceRegistry.workspace rec)
          (InstanceRegistry.platform rec) (InstanceRegistry.activity rec).
Proof.
  unfold InstanceRegistry.check_conflicts. simpl. rewrite in_flat_map. split.
  - intros [[iid rec] [Hin Hc]].
    apply list_elem_of_In, elem_of_map_to_list in Hin.
    apply RegistryFacts.purge_expired_lookup in Hin as [Hl Hx].
    destruct (String.eqb_spec iid instance_id) as [_|Hne]; [contradiction|].
    apply in_map_iff in Hc as [f [<- Hf]]. apply set_inter_In in Hf.
    exists rec. simpl. tauto.
  - intros [rec [Hne [Hl [Hx [H1 [H2 Hc]]]]]].
    exists (InstanceRegistry.fc_instance_id c, rec). split.
    + apply list_elem_of_In, elem_of_map_to_list, RegistryFacts.purge_expired_lookup. tauto.
    + destruct (String.eqb_spec (InstanceRegistry.fc_instance_id c) instance_id);
        [contradiction|].
      apply in_map_iff. exists (InstanceRegistry.fc_file c). split; [symmetry; exact Hc|].
      apply set_inter_In. tauto.
Qed.


(** ** The handoff table: further properties *)

Module AgentDbFacts.
Import AgentDb.

Lemma fold_max_ge (l : list Z) (k : Z) : In k l -> (k <= fold_right Z.max 0 l)%Z.
Proof.
  induction l as [|x l IH]; simpl; [tauto|].
  intros [->|H]; [lia|]. specialize (IH H). lia.
Qed.

Lemma max_key_ge (m : gmap Z handoff) (k : Z) (h : handoff) :
  m !! k = Some h -> (k <= max_key m)%Z.
Proof.
  intros H. unfold max_key. apply fold_max_ge, in_map_iff. exists (k, h).
  split; [reflexivity|]. apply list_elem_of_In, elem_of_map_to_list. exact H.
Qed.

Lemma size_filter_insert_none {A} (P : Z * A -> Prop) `{!forall kv, Decision (P kv)}
    (m : gmap Z A) (i : Z) (x : A) :
  m !! i = None ->
  size (filter P (<[i := x]> m)) = (if decide (P (i, x)) then 1 else 0) + size (filter P m).
Proof.
  intros Hi. rewrite map_filter_insert. case_decide.
  - rewrite map_size_insert_None; [lia|]. apply map_lookup_filter_None. left. exact Hi.
  - rewrite delete_id by exact Hi. lia.
Qed.

(** Releasing unclaims exactly the selected rows, each of which was
    claimed: the number of claimed rows drops by the number released. *)
Lemma release_count (s : handoff -> bool) (m : gmap Z handoff) :
  (forall h, s h = true -> h_claimed_by h <> None) ->
  size (filter (fun kv : Z * handoff => h_claimed_by kv.2 <> None)
          (fmap (fun h => if s h then unclaim h else h) m)) +
  size (filter (fun kv : Z * handoff => s kv.2 = true) m) =
  size (filter (fun kv : Z * handoff => h_claimed_by kv.2 <> None) m).
Proof.
  intros Hs. induction m as [|i x m Hi IH] using map_ind.
  - rewrite fmap_empty, !map_filter_empty, !map_size_empty. reflexivity.
  - rewrite fmap_insert.
    rewrite !size_filter_insert_none by (rewrite ?lookup_fmap, Hi; reflexivity).
    simpl. destruct (s x) eqn:E; simpl.
    + pose proof (Hs x E) as Hc.
      repeat case_decide; simpl in *; try contradiction; try congruence; lia.
    + repeat case_decide; simpl in *; try contradiction; try congruence; lia.
Qed.

End AgentDbFacts.

(** X19: [create_handoff] stores an unknown priority as ["normal"].  When
    [from_agent] names no agent the insert violates the foreign key and
    nothing changes; otherwise the new row gets a key above every key in
    the table and above the sequence value, is unclaimed, leaves the other
    rows as they were, and can then be claimed by any agent. *)
Theorem create_handoff_spec (from_agent to_scope content priority now : string) (seq : Z)
    (d : AgentDb.db) :
  match AgentDb.create_handoff from_agent to_scope content priority now seq d with
  | (inl _, d', seq') => (from_agent ∉ AgentDb.agents d) /\ d' = d /\ seq' = seq
  | (inr h, d', seq') =>
      from_agent ∈ AgentDb.agents d /\
      AgentDb.handoffs d !! AgentDb.h_id h = None /\ (seq < AgentDb.h_id h)%Z /\
      (forall k, is_Some (AgentDb.handoffs d !! k) -> (k < AgentDb.h_id h)%Z) /\
      seq' = AgentDb.h_id h /\ AgentDb.agents d' = AgentDb.agents d /\
      AgentDb.handoffs d' = <[AgentDb.h_id h := h]> (AgentDb.handoffs d) /\
      AgentDb.h_claimed_by h = None /\
      AgentDb.h_priority h =
        (if Str.mem priority AgentDb.valid_priorities then priority else "normal") /\
      In (AgentDb.h_priority h) AgentDb.valid_priorities /\
      (forall agent now', agent ∈ AgentDb.agents d ->
         exists h', fst (AgentDb.claim_handoff (AgentDb.h_id h) agent now' d') = inr (Some h') /\
                    AgentDb.h_claimed_by h' = Some agent)
  end.
Proof.
  unfold AgentDb.create_handoff. cbv zeta.
  destruct (decide (from_agent ∈ AgentDb.agents d)) as [Hin|Hin]; cbv beta iota;
    [|split; [exact Hin|split; reflexivity]].
  cbn [AgentDb.h_id AgentDb.h_claimed_by AgentDb.h_priority AgentDb.handoffs AgentDb.agents].
  set (new_id := (Z.max seq (AgentDb.max_key (AgentDb.handoffs d)) + 1)%Z).
  split; [exact Hin|].
  split.
  { destruct (AgentDb.handoffs d !! new_id) as [h|] eqn:E; [|reflexivity].
    apply AgentDbFacts.max_key_ge in E. unfold new_id in E. lia. }
  split; [unfold new_id; lia|].
  split; [intros k [h Hk]; apply AgentDbFacts.max_key_ge in Hk; unfold new_id; lia|].
  split; [reflexivity|]. split; [reflexivity|]. split; [reflexivity|].
  split; [reflexivity|]. split; [reflexivity|].
  split.
  { destruct (Str.mem priority AgentDb.valid_priorities) eqn:E.
    - apply mem_In. exact E.
    - simpl. tauto. }
  intros agent now' Ha. unfold AgentDb.claim_handoff. cbn [AgentDb.handoffs AgentDb.agents].
  rewrite lookup_insert_eq. cbn [AgentDb.h_claimed_by].
  destruct (decide (agent ∈ AgentDb.agents d)) as [_|Hn]; [|contradiction].
  eexists. split; reflexivity.
Qed.

(** X20: [release_stale_claims] keeps the agents and the set of rows; it
    returns the number of claims it released, which is the drop in the
    number of claimed rows.  A row is either unchanged or, when it was
    claimed by an agent outside [active_agent_ids], unclaimed.  Rows
    claimed by an active agent, and rows claimed less than
    [max_age_seconds] ago, are never touched; a row claimed by an inactive
    agent at a parsable time at least [max_age_seconds] ago is unclaimed
    and any agent can claim it again. *)
Theorem release_stale_claims_spec (fromisoformat_ts : string -> option Z)
    (active_agent_ids : list string) (max_age_seconds now : Z) (d : AgentDb.db) :
  let '(released, d') :=
    AgentDb.release_stale_claims fromisoformat_ts active_agent_ids max_age_seconds now d in
  AgentDb.agents d' = AgentDb.agents d /\
  released + size (filter (fun kv : Z * AgentDb.handoff => AgentDb.h_claimed_by kv.2 <> None)
                          (AgentDb.handoffs d')) =
    size (filter (fun kv : Z * AgentDb.handoff => AgentDb.h_claimed_by kv.2 <> None)
                 (AgentDb.handoffs d)) /\
  (forall hid, AgentDb.handoffs d !! hid = None -> AgentDb.handoffs d' !! hid = None) /\
  (forall hid h, AgentDb.handoffs d !! hid = Some h ->
    (AgentDb.handoffs d' !! hid = Some h \/
     (AgentDb.handoffs d' !! hid = Some (AgentDb.unclaim h) /\
      exists agent, AgentDb.h_claimed_by h = Some agent /\ ~ In agent active_agent_ids)) /\
    (forall agent, AgentDb.h_claimed_by h = Some agent -> In agent active_agent_ids ->
       AgentDb.handoffs d' !! hid = Some h) /\
    (forall s c, AgentDb.h_claimed_at h = Some s -> fromisoformat_ts s = Some c ->
       (now - c < max_age_seconds)%Z -> AgentDb.handoffs d' !! hid = Some h) /\
    (forall agent s c, AgentDb.h_claimed_by h = Some agent -> ~ In agent active_agent_ids ->
       AgentDb.h_claimed_at h = Some s -> fromisoformat_ts s = Some c ->
       (max_age_seconds <= now - c)%Z ->
       AgentDb.handoffs d' !! hid = Some (AgentDb.unclaim h) /\
       forall agent' now', agent' ∈ AgentDb.agents d ->
         exists h', fst (AgentDb.claim_handoff hid agent' now' d') = inr (Some h') /\
                    AgentDb.h_claimed_by h' = Some agent')).
Proof.
  unfold AgentDb.release_stale_claims. cbn [AgentDb.agents AgentDb.handoffs].
  set (st := AgentDb.stale_claim fromisoformat_ts active_agent_ids max_age_seconds now).
  split; [reflexivity|].
  split.
  { rewrite Nat.add_comm. apply AgentDbFacts.release_count.
    intros h. unfold st, AgentDb.stale_claim. destruct (AgentDb.h_claimed_by h); congruence. }
  split; [intros hid H; rewrite lookup_fmap, H; reflexivity|].
  intros hid h Hh. rewrite lookup_fmap, Hh. cbn [fmap option_fmap option_map].
  unfold st, AgentDb.stale_claim.
  destruct (AgentDb.h_claimed_by h) as [a|] eqn:Ec.
  2:{ split; [left; reflexivity|]. split; [intros; discriminate|].
      split; [intros; reflexivity|]. intros; discriminate. }
  destruct (Str.mem a active_agent_ids) eqn:Em.
  { apply mem_In in Em. split; [left; reflexivity|]. split; [intros; reflexivity|].
    split; [intros; reflexivity|]. intros agent s c Ha. injection Ha as <-. contradiction. }
  assert (Hna : ~ In a active_agent_ids) by (rewrite <- mem_In; congruence).
  assert (Hrel : forall b : bool,
    (Some (if b then AgentDb.unclaim h else h) = Some h \/
     (Some (if b then AgentDb.unclaim h else h) = Some (AgentDb.unclaim h) /\
      exists agent, Some a = Some agent /\ ~ In agent active_agent_ids))).
  { intros [|]; [right; split; [reflexivity|exists a; tauto]|left; reflexivity]. }
  split; [apply Hrel|].
  split; [intros agent Ha Hin; injection Ha as <-; contradiction|].
  split.
  { intros s c Hs Hc Hlt. rewrite Hs, Hc.
    replace (negb (now - c <? max_age_seconds)%Z) with false
      by (symmetry; apply negb_false_iff, Z.ltb_lt; exact Hlt).
    reflexivity. }
  intros agent s c Ha _ Hs Hc Hge. rewrite Hs, Hc.
  replace (negb (now - c <? max_age_seconds)%Z) with true
    by (symmetry; apply negb_true_iff, Z.ltb_ge; exact Hge).
  split; [reflexivity|].
  intros agent' now' Hin. unfold AgentDb.claim_handoff. cbn [AgentDb.handoffs AgentDb.agents].
  rewrite lookup_fmap, Hh. cbn [fmap option_fmap option_map].
  rewrite Ec, Em, Hs, Hc.
  replace (negb (now - c <? max_age_seconds)%Z) with true
    by (symmetry; apply negb_true_iff, Z.ltb_ge; exact Hge).
  cbn [AgentDb.h_claimed_by AgentDb.unclaim].
  destruct (decide (agent' ∈ AgentDb.agents d)) as [_|Hn]; [|contradiction].
  eexists. split; reflexivity.
Qed.

(** ** The knowledge graph: further properties *)


Module KnowledgeFacts.
Import Knowledge.

Lemma as_strs_json (l : list string) : map as_str (map JStr l) = l.
Proof. induction l as [|s l IH]; simpl; [reflexivity|]. rewrite IH. reflexivity. Qed.

Lemma entity_of_json (now : string) (e : entity) : entity_of now (entity_json e) = inr e.
Proof. destruct e as [n t obs c]. unfold entity_of, entity_json. simpl. rewrite as_strs_json. reflexivity. Qed.

Lemma relation_of_json (now : string) (r : relation) : relation_of now (relation_json r) = inr r.
Proof. destruct r. reflexivity. Qed.

Lemma fmap_is_map {A B} (f : A -> B) (l : list A) : f <$> l = map f l.
Proof. induction l as [|x l IH]; simpl; [reflexivity|]. rewrite <- IH. reflexivity. Qed.

Lemma py_fold_entities (now : string) (l : list (string * entity)) (acc : gmap string entity) :
  py_fold (fun m kv => py_bind (entity_of now kv.2) (fun e => inr (<[kv.1 := e]> m)))
    (map (fun kv => (kv.1, entity_json kv.2)) l) acc =
  inr (fold_left (fun m kv => <[kv.1 := kv.2]> m) l acc).
Proof.
  revert acc. induction l as [|[k e] l IH]; intros acc; cbn [py_fold map fst snd]; [reflexivity|].
  rewrite entity_of_json. cbn [py_bind fst snd]. apply IH.
Qed.

Lemma py_fold_relations (now : string) (rels acc : list relation) :
  py_fold (fun acc v => py_bind (relation_of now v) (fun r => inr (app acc [r])))
    (map relation_json rels) acc = inr (app acc rels).
Proof.
  revert acc. induction rels as [|r rels IH]; intros acc; cbn [py_fold map];
    [rewrite app_nil_r; reflexivity|].
  rewrite relation_of_json. cbn [py_bind]. rewrite IH, <- app_assoc. reflexivity.
Qed.

Lemma fold_insert_lookup {V} (l : list (string * V)) (acc : gmap string V) :
  List.NoDup (map fst l) ->
  (forall k v, In (k, v) l -> fold_left (fun m kv => <[kv.1 := kv.2]> m) l acc !! k = Some v) /\
  (forall k, ~ In k (map fst l) -> fold_left (fun m kv => <[kv.1 := kv.2]> m) l acc !! k = acc !! k).
Proof.
  revert acc. induction l as [|[k0 v0] l IH]; intros acc Hnd; simpl.
  - split; [intros k v []|reflexivity].
  - apply NoDup_cons_iff in Hnd as [Hn Hnd]. simpl in Hn.
    destruct (IH (<[k0 := v0]> acc) Hnd) as [IH1 IH2]. split.
    + intros k v [Hkv|Hin].
      * injection Hkv as <- <-. rewrite IH2 by exact Hn. apply lookup_insert_eq.
      * apply IH1. exact Hin.
    + intros k Hk. rewrite IH2 by tauto. apply lookup_insert_ne. intros ->. tauto.
Qed.

Lemma fold_insert_map_to_list {V} (m : gmap string V) :
  fold_left (fun m kv => <[kv.1 := kv.2]> m) (map_to_list m) ∅ = m.
Proof.
  pose proof (NoDup_fst_map_to_list m) as Hnd. rewrite fmap_is_map, NoDup_ListNoDup in Hnd.
  destruct (fold_insert_lookup (map_to_list m) ∅ Hnd) as [H1 H2].
  apply map_eq. intros k. destruct (m !! k) as [v|] eqn:E.
  - apply H1. apply list_elem_of_In, elem_of_map_to_list. exact E.
  - rewrite H2, lookup_empty; [reflexivity|].
    intros Hin. apply in_map_iff in Hin as [[k' v] [Hk Hin]]. simpl in Hk. subst k'.
    apply list_elem_of_In, elem_of_map_to_list in Hin. congruence.
Qed.

(** [from_dict] reads back what [to_dict] writes. *)
Lemma from_dict_to_dict (now : string) (kg : kgraph) : from_dict now (to_dict kg) = inr kg.
Proof.
  destruct kg as [ents rels sync]. unfold from_dict, to_dict. simpl.
  rewrite py_fold_entities, fold_insert_map_to_list. simpl.
  rewrite py_fold_relations. reflexivity.
Qed.


Lemma append_new_spec (existing new : list string) :
  (exists extra, append_new existing new = app existing extra) /\
  (forall o, In o (append_new existing new) <-> In o existing \/ In o new) /\
  (List.NoDup existing -> List.NoDup (append_new existing new)).
Proof.
  unfold append_new. revert existing.
  induction new as [|x new IH]; intros existing; simpl.
  - split; [exists []; rewrite app_nil_r; reflexivity|]. split; [tauto|tauto].
  - destruct (Str.mem x existing) eqn:E.
    + destruct (IH existing) as [H1 [H2 H3]]. split; [exact H1|]. split; [|exact H3].
      intros o. rewrite H2. apply mem_In in E. split; [tauto|].
      intros [H|[<-|H]]; tauto.
    + destruct (IH (app existing [x])) as [[extra H1] [H2 H3]]. split.
      { exists (x :: extra). rewrite H1, <- app_assoc. reflexivity. }
      split.
      { intros o. rewrite H2, in_app_iff. simpl. tauto. }
      intros Hnd. apply H3. apply NoDup_ListNoDup, NoDup_app.
      split; [apply NoDup_ListNoDup; exact Hnd|]. split; [|apply NoDup_singleton].
      intros y Hy Hx. apply list_elem_of_singleton in Hx. subst y.
      apply list_elem_of_In, mem_In in Hy. congruence.
Qed.

Lemma same_triple_true (f rt t : string) (r : relation) :
  same_triple f rt t r = true <-> from_entity r = f /\ relation_type r = rt /\ to_entity r = t.
Proof.
  unfold same_triple. rewrite !andb_true_iff, !String.eqb_eq. tauto.
Qed.

Lemma filter_negb_length {A} (p : A -> bool) (l : list A) :
  length l - length (List.filter (fun x => negb (p x)) l) = length (List.filter p l).
Proof. induction l as [|x l IH]; simpl; [reflexivity|].
  pose proof (QueryFacts.filter_length_le (fun x => negb (p x)) l).
  destruct (p x); simpl; lia. Qed.

End KnowledgeFacts.

(** X21: saving the graph and loading it back gives the saved graph (its
    [last_sync] stamped with the save time) with nothing printed: the JSON
    written by [to_dict] is read back by [from_dict]. *)
Theorem save_then_load (now now_iso : string) (kg : Knowledge.kgraph) (bak_write_ok : bool)
    (fs : Knowledge.store_files) :
  let '(kg', fs') := Knowledge.save_knowledge now kg bak_write_ok fs in
  Knowledge.load_knowledge now_iso fs' = (inr kg', fs', []) /\
  Knowledge.entities kg' = Knowledge.entities kg /\
  Knowledge.relations kg' = Knowledge.relations kg /\ Knowledge.last_sync kg' = now.
Proof.
  unfold Knowledge.save_knowledge. cbv zeta.
  split; [|split; [reflexivity|split; reflexivity]].
  unfold Knowledge.load_knowledge.
  cbn [Knowledge.primary Knowledge.read_json Knowledge.read_text Knowledge.json_loads
       Knowledge.py_bind].
  rewrite KnowledgeFacts.from_dict_to_dict. reflexivity.
Qed.


(** X23: [_tool_add_entity] on an existing name keeps the entity's name,
    type and creation time and appends, in order, each given observation
    it does not have yet: the result contains exactly the old and the new
    observations and has no repetition if the old list had none; the reply
    counts all given observations.  On a new name it creates the entity
    with the observations as given.  Either way other entities and the
    relations are unchanged and the graph is saved. *)
Theorem tool_add_entity_spec (name entity_type : string) (observations : list string)
    (now : string) (kg : Knowledge.kgraph) :
  let '(reply, kg') := Knowledge._tool_add_entity name entity_type observations now kg in
  Knowledge.relations kg' = Knowledge.relations kg /\ Knowledge.last_sync kg' = now /\
  (forall other, other <> name -> Knowledge.entities kg' !! other = Knowledge.entities kg !! other) /\
  match Knowledge.entities kg !! name with
  | Some e =>
      reply = Knowledge.EntityUpdated name (length observations) /\
      exists e', Knowledge.entities kg' !! name = Some e' /\
        Knowledge.name e' = Knowledge.name e /\
        Knowledge.entity_type e' = Knowledge.entity_type e /\
        Knowledge.e_created e' = Knowledge.e_created e /\
        (exists extra, Knowledge.observations e' = app (Knowledge.observations e) extra) /\
        (forall o, In o (Knowledge.observations e') <->
                   In o (Knowledge.observations e) \/ In o observations) /\
        (List.NoDup (Knowledge.observations e) -> List.NoDup (Knowledge.observations e'))
  | None =>
      reply = Knowledge.EntityCreated name entity_type (length observations) /\
      Knowledge.entities kg' !! name = Some (Knowledge.mkEntity name entity_type observations now)
  end.
Proof.
  unfold Knowledge._tool_add_entity.
  destruct (Knowledge.entities kg !! name) as [e|] eqn:E; cbn [Knowledge.relations
    Knowledge.last_sync Knowledge.entities].
  - split; [reflexivity|]. split; [reflexivity|].
    split; [intros other Hne; apply lookup_insert_ne; congruence|].
    split; [reflexivity|].
    eexists. split; [apply lookup_insert_eq|].
    cbn. split; [reflexivity|]. split; [reflexivity|]. split; [reflexivity|].
    apply KnowledgeFacts.append_new_spec.
  - unfold Knowledge.add_entity. rewrite E. cbn [Knowledge.relations Knowledge.entities].
    split; [reflexivity|]. split; [reflexivity|].
    split; [intros other Hne; apply lookup_insert_ne; congruence|].
    split; [reflexivity|apply lookup_insert_eq].
Qed.

(** X24: [_tool_add_relation] with an endpoint missing from the entities
    changes nothing and reports exactly the missing endpoints.  With both
    endpoints present it saves the graph with the entities unchanged, the
    old relations kept in order and at most one relation appended, and
    afterwards the triple occurs exactly as often as before, or once if
    it was absent. *)
Theorem tool_add_relation_spec (from_e rel_type to_e now : string) (kg : Knowledge.kgraph) :
  let '(reply, kg') := Knowledge._tool_add_relation from_e rel_type to_e now kg in
  ((Knowledge.entities kg !! from_e = None \/ Knowledge.entities kg !! to_e = None) ->
     kg' = kg /\
     exists missing, reply = Knowledge.RelationEntitiesMissing missing /\
       forall x, In x missing <-> (x = from_e \/ x = to_e) /\ Knowledge.entities kg !! x = None) /\
  ((exists a b, Knowledge.entities kg !! from_e = Some a /\ Knowledge.entities kg !! to_e = Some b) ->
     reply = Knowledge.RelationAdded from_e rel_type to_e /\
     Knowledge.entities kg' = Knowledge.entities kg /\ Knowledge.last_sync kg' = now /\
     (exists extra, Knowledge.relations kg' = app (Knowledge.relations kg) extra /\
                    length extra <= 1) /\
     length (List.filter (Knowledge.same_triple from_e rel_type to_e) (Knowledge.relations kg')) =
       Nat.max 1 (length (List.filter (Knowledge.same_triple from_e rel_type to_e)
                                      (Knowledge.relations kg)))).
Proof.
  unfold Knowledge._tool_add_relation. cbv zeta.
  set (missing := List.filter (fun e => match Knowledge.entities kg !! e with
                                        | Some _ => false | None => true end) [from_e; to_e]).
  assert (Hm : forall x, In x missing <->
                 (x = from_e \/ x = to_e) /\ Knowledge.entities kg !! x = None).
  { intros x. unfold missing. rewrite filter_In. simpl.
    split; intros [H1 H2]; (split; [intuition congruence|]);
      destruct (Knowledge.entities kg !! x); congruence. }
  destruct missing as [|y ys] eqn:Em; cbv beta iota.
  - split.
    { intros Hnone. exfalso. destruct Hnone as [H|H]; [apply (Hm from_e)|apply (Hm to_e)]; tauto. }
    intros [a [b [Ha Hb]]].
    unfold Knowledge.add_relation.
    destruct (existsb (Knowledge.same_triple from_e rel_type to_e) (Knowledge.relations kg))
      eqn:Ex; cbn [Knowledge.entities Knowledge.relations Knowledge.last_sync].
    + split; [reflexivity|]. split; [reflexivity|]. split; [reflexivity|].
      split; [exists []; split; [rewrite app_nil_r; reflexivity|simpl; lia]|].
      apply existsb_exists in Ex as [r [Hr Hs]].
      assert (0 < length (List.filter (Knowledge.same_triple from_e rel_type to_e)
                                      (Knowledge.relations kg))).
      { destruct (List.filter (Knowledge.same_triple from_e rel_type to_e) (Knowledge.relations kg)) eqn:F; [|simpl; lia].
        exfalso. apply (proj1 (QueryFacts.filter_nil_iff _ _) F r) in Hr. congruence. }
      lia.
    + split; [reflexivity|]. split; [reflexivity|]. split; [reflexivity|].
      split; [eexists; split; [reflexivity|simpl; lia]|].
      rewrite List.filter_app. simpl.
      unfold Knowledge.same_triple at 2. simpl. rewrite !String.eqb_refl. simpl.
      assert (List.filter (Knowledge.same_triple from_e rel_type to_e)
                (Knowledge.relations kg) = []) as ->.
      { apply QueryFacts.filter_nil_iff. intros r Hr.
        destruct (Knowledge.same_triple from_e rel_type to_e r) eqn:Es; [|reflexivity].
        rewrite <- Ex. symmetry. apply existsb_exists. exists r. tauto. }
      reflexivity.
  - split.
    + intros _. split; [reflexivity|]. exists (y :: ys). split; [reflexivity|exact Hm].
    + intros [a [b [Ha Hb]]]. exfalso.
      destruct (proj1 (Hm y) (or_introl eq_refl)) as [[->| ->] H]; congruence.
Qed.

(** X25: [_tool_delete_entity] on an unknown name changes nothing.  On a
    known name it removes the entity and exactly the relations that start
    or end at it, keeps all other relations, reports how many relations it
    removed, and saves the graph. *)
Theorem tool_delete_entity_spec (name now : string) (kg : Knowledge.kgraph) :
  let '(reply, kg') := Knowledge._tool_delete_entity name now kg in
  (Knowledge.entities kg !! name = None -> reply = Knowledge.DeleteEntityMissing name /\ kg' = kg) /\
  (forall e, Knowledge.entities kg !! name = Some e ->
     Knowledge.entities kg' = delete name (Knowledge.entities kg) /\
     (forall r, In r (Knowledge.relations kg') <->
        In r (Knowledge.relations kg) /\ Knowledge.from_entity r <> name /\
        Knowledge.to_entity r <> name) /\
     reply = Knowledge.EntityDeleted name
       (length (List.filter (fun r => String.eqb (Knowledge.from_entity r) name ||
                                      String.eqb (Knowledge.to_entity r) name)
                            (Knowledge.relations kg))) /\
     Knowledge.last_sync kg' = now).
Proof.
  unfold Knowledge._tool_delete_entity.
  destruct (Knowledge.entities kg !! name) as [e0|] eqn:E.
  - split; [discriminate|]. intros e _. cbv zeta.
    cbn [Knowledge.entities Knowledge.relations Knowledge.last_sync].
    split; [reflexivity|]. split.
    { intros r. rewrite filter_In, andb_true_iff, !negb_true_iff, !String.eqb_neq. tauto. }
    split; [|reflexivity].
    set (p := fun r => String.eqb (Knowledge.from_entity r) name ||
                       String.eqb (Knowledge.to_entity r) name).
    rewrite <- (KnowledgeFacts.filter_negb_length p). do 3 f_equal.
    apply filter_ext. intros r. unfold p. rewrite negb_orb. reflexivity.
  - split; [intros _; split; reflexivity|]. intros e H. discriminate.
Qed.

(** X26: [_tool_delete_relation] removes every relation with the given
    triple and keeps all others; it replies that the relation was deleted
    exactly when one was there, and saves the graph in both cases. *)
Theorem tool_delete_relation_spec (from_e rel_type to_e now : string) (kg : Knowledge.kgraph) :
  let '(reply, kg') := Knowledge._tool_delete_relation from_e rel_type to_e now kg in
  Knowledge.entities kg' = Knowledge.entities kg /\ Knowledge.last_sync kg' = now /\
  (forall r, In r (Knowledge.relations kg') <->
     In r (Knowledge.relations kg) /\
     ~ (Knowledge.from_entity r = from_e /\ Knowledge.relation_type r = rel_type /\
        Knowledge.to_entity r = to_e)) /\
  reply = (if existsb (Knowledge.same_triple from_e rel_type to_e) (Knowledge.relations kg)
           then Knowledge.RelationDeleted from_e rel_type to_e
           else Knowledge.RelationMissing from_e rel_type to_e).
Proof.
  unfold Knowledge._tool_delete_relation. cbv zeta.
  rewrite KnowledgeFacts.filter_negb_length.
  assert (Hr : forall r, In r (List.filter (fun r => negb (Knowledge.same_triple from_e rel_type to_e r))
                                 (Knowledge.relations kg)) <->
     In r (Knowledge.relations kg) /\
     ~ (Knowledge.from_entity r = from_e /\ Knowledge.relation_type r = rel_type /\
        Knowledge.to_entity r = to_e)).
  { intros r. rewrite filter_In, negb_true_iff, <- KnowledgeFacts.same_triple_true.
    rewrite Bool.not_true_iff_false. reflexivity. }
  assert (Hx : Nat.ltb 0 (length (List.filter (Knowledge.same_triple from_e rel_type to_e)
                                              (Knowledge.relations kg))) =
               existsb (Knowledge.same_triple from_e rel_type to_e) (Knowledge.relations kg)).
  { clear Hr. induction (Knowledge.relations kg) as [|r l IH]; simpl; [reflexivity|].
    destruct (Knowledge.same_triple from_e rel_type to_e r); simpl; [reflexivity|exact IH]. }
  rewrite Hx.
  destruct (existsb _ _); cbn [Knowledge.entities Knowledge.relations Knowledge.last_sync];
    (split; [reflexivity|]); (split; [reflexivity|]); (split; [exact Hr|reflexivity]).
Qed.

(** X27: [_tool_rename_entity] changes nothing when the old name is
    unknown or the new name is taken.  Otherwise the entity moves to the
    new key with its name set to the new name and everything else kept,
    the other entities stay, no relation mentions the old name afterwards,
    relations that did not mention it are kept, their number is unchanged,
    and the graph is saved. *)
Theorem tool_rename_entity_spec (old_name new_name now : string) (kg : Knowledge.kgraph) :
  let '(reply, kg') := Knowledge._tool_rename_entity old_name new_name now kg in
  match Knowledge.entities kg !! old_name, Knowledge.entities kg !! new_name with
  | None, _ => reply = Knowledge.RenameSourceMissing old_name /\ kg' = kg
  | Some _, Some _ => reply = Knowledge.RenameTargetExists new_name /\ kg' = kg
  | Some e, None =>
      reply = Knowledge.Renamed old_name new_name /\
      Knowledge.entities kg' !! old_name = None /\
      Knowledge.entities kg' !! new_name =
        Some (Knowledge.mkEntity new_name (Knowledge.entity_type e) (Knowledge.observations e)
                                 (Knowledge.e_created e)) /\
      (forall k, k <> old_name -> k <> new_name ->
         Knowledge.entities kg' !! k = Knowledge.entities kg !! k) /\
      (forall r, In r (Knowledge.relations kg') ->
         Knowledge.from_entity r <> old_name /\ Knowledge.to_entity r <> old_name) /\
      (forall r, In r (Knowledge.relations kg) -> Knowledge.from_entity r <> old_name ->
         Knowledge.to_entity r <> old_name -> In r (Knowledge.relations kg')) /\
      length (Knowledge.relations kg') = length (Knowledge.relations kg) /\
      Knowledge.last_sync kg' = now
  end.
Proof.
  unfold Knowledge._tool_rename_entity.
  destruct (Knowledge.entities kg !! old_name) as [e|] eqn:Eo; [|split; reflexivity].
  destruct (Knowledge.entities kg !! new_name) as [e2|] eqn:En; [split; reflexivity|].
  assert (Hne : old_name <> new_name) by congruence.
  cbn [Knowledge.entities Knowledge.relations Knowledge.last_sync].
  split; [reflexivity|].
  split; [apply lookup_delete_eq|].
  split; [rewrite lookup_delete_ne by congruence; apply lookup_insert_eq|].
  split.
  { intros k H1 H2. rewrite lookup_delete_ne by congruence.
    apply lookup_insert_ne. congruence. }
  split.
  { intros r Hr. apply in_map_iff in Hr as [r0 [<- _]].
    pose proof (MergeFacts.repoint_not_source old_name new_name r0 Hne) as H. exact H. }
  split.
  { intros r Hr Hf Ht. apply in_map_iff. exists r. split; [|exact Hr].
    unfold Knowledge.repoint. destruct (String.eqb_spec (Knowledge.from_entity r) old_name);
      [contradiction|]. destruct (String.eqb_spec (Knowledge.to_entity r) old_name);
      [contradiction|]. destruct r; reflexivity. }
  split; [apply length_map|reflexivity].
Qed.

(** X28: renaming an entity from [a] to [b] and back restores the
    entities and the relations, when the entity's own name is [a], [b] is
    not an entity, and no relation mentions [b]. *)
Theorem rename_round_trip (a b now1 now2 : string) (kg : Knowledge.kgraph) (e : Knowledge.entity) :
  Knowledge.entities kg !! a = Some e -> Knowledge.name e = a ->
  Knowledge.entities kg !! b = None ->
  (forall r, In r (Knowledge.relations kg) ->
     Knowledge.from_entity r <> b /\ Knowledge.to_entity r <> b) ->
  let kg1 := snd (Knowledge._tool_rename_entity a b now1 kg) in
  let '(reply, kg2) := Knowledge._tool_rename_entity b a now2 kg1 in
  reply = Knowledge.Renamed b a /\
  Knowledge.entities kg2 = Knowledge.entities kg /\
  Knowledge.relations kg2 = Knowledge.relations kg.
Proof.
  intros Ha Hname Hb Hrels. cbv zeta.
  assert (Hne : a <> b) by congruence.
  unfold Knowledge._tool_rename_entity at 2. rewrite Ha, Hb. cbn [snd Knowledge.entities].
  unfold Knowledge._tool_rename_entity.
  cbn [Knowledge.entities]. rewrite lookup_delete_ne by congruence. rewrite lookup_insert_eq.
  rewrite lookup_delete_eq. cbv beta iota.
  cbn [Knowledge.entities Knowledge.relations Knowledge.entity_type Knowledge.observations
       Knowledge.e_created].
  split; [reflexivity|]. split.
  - apply map_eq. intros k.
    destruct (decide (k = b)) as [->|Hkb]; [rewrite lookup_delete_eq; symmetry; exact Hb|].
    rewrite lookup_delete_ne by congruence.
    destruct (decide (k = a)) as [->|Hka].
    + rewrite lookup_insert_eq, Ha. destruct e; simpl in *; subst; reflexivity.
    + rewrite lookup_insert_ne, lookup_delete_ne, lookup_insert_ne by congruence.
      reflexivity.
  - rewrite map_map. rewrite <- (map_id (Knowledge.relations kg)) at 2.
    apply map_ext_in. intros r Hr. destruct (Hrels r Hr) as [Hf Ht].
    unfold Knowledge.repoint. cbn [Knowledge.from_entity Knowledge.to_entity
      Knowledge.relation_type Knowledge.r_created].
    destruct r as [f rt t c]; cbn [Knowledge.from_entity Knowledge.to_entity] in *.
    destruct (String.eqb_spec f a) as [->|Hfa];
    destruct (String.eqb_spec t a) as [->|Hta]; cbn;
      rewrite ?String.eqb_refl;
      repeat match goal with |- context [String.eqb ?x ?y] =>
        destruct (String.eqb_spec x y); try congruence end; reflexivity.
Qed.

Lemma rename_round_trip_witness :
  (SpecKg.kg_dup.(Knowledge.entities) !! "alpha" = Some SpecKg.alpha /\
   Knowledge.name SpecKg.alpha = "alpha" /\
   SpecKg.kg_dup.(Knowledge.entities) !! "gamma" = None) /\
  Knowledge.entities (snd (Knowledge._tool_rename_entity "gamma" "alpha" "t2"
     (snd (Knowledge._tool_rename_entity "alpha" "gamma" "t1" SpecKg.kg_dup)))) =
  Knowledge.entities SpecKg.kg_dup.
Proof.
  assert (H1 : SpecKg.kg_dup.(Knowledge.entities) !! "alpha" = Some SpecKg.alpha)
    by (vm_compute; reflexivity).
  assert (H2 : Knowledge.name SpecKg.alpha = "alpha") by reflexivity.
  assert (H3 : SpecKg.kg_dup.(Knowledge.entities) !! "gamma" = None)
    by (vm_compute; reflexivity).
  assert (H4 : forall r, In r (Knowledge.relations SpecKg.kg_dup) ->
            Knowledge.from_entity r <> "gamma" /\ Knowledge.to_entity r <> "gamma").
  { intros r Hr. simpl in Hr. destruct Hr as [<-|[]]. split; simpl; discriminate. }
  split; [tauto|].
  pose proof (rename_round_trip "alpha" "gamma" "t1" "t2" SpecKg.kg_dup SpecKg.alpha
                H1 H2 H3 H4) as H.
  cbv zeta in H.
  destruct (Knowledge._tool_rename_entity "gamma" "alpha" "t2"
              (snd (Knowledge._tool_rename_entity "alpha" "gamma" "t1" SpecKg.kg_dup)))
    as [reply kg2].
  exact (proj1 (proj2 H)).
Defined.
